(** * Tool-calling orchestration of the LLM interaction examples

    A shallow embedding of the three handlers of [examples/10_llm_interaction]:

    - [ToolCalling]: [ToolHandler] of [03_tool_calling.py];
    - [Streaming]: [StreamingToolHandler] of [04_streaming_with_tools.py];
    - [Stateful]: [StatefulConversationHandler] of [05_stateful_conversation.py].

    Conventions of the embedding.
    - A Python [str] is a [string]; a value that crosses the JSON boundary
      (tool arguments, tool results, schemas) is a [Json] tree.
    - An attribute that the code probes or tests for truth is an [option].
      In the stateful handler, which probes with [hasattr], [None] stands
      for an absent attribute; in the streaming handler, which reads the
      attribute and tests its truth, [None] stands for an attribute that
      holds Python's [None]. These are the two shapes of the objects of the
      provider library; an attribute that is present and holds [None] where
      [hasattr] probes, or one that is absent where it is read, is outside
      the embedding.
    - A call that may raise returns an [Outcome]; [Raised msg] carries
      [str(e)] of an exception [e] caught by [except Exception].
    - [self.tools] is only ever read by key, so it is a [gmap]; the pending
      tool calls are iterated in insertion order, so they are an
      insertion-ordered [Dict].
    - The provider client ([acompletion], [aresponses]), the JSON codec
      ([json.loads], [json.dumps]) and the wall clock are collaborators of the
      handlers, not part of them: they are section variables, and every
      theorem holds for all of them. *)

From Stdlib Require Import String Ascii List ZArith Lia Bool.
From Stdlib Require QArith.
From stdpp Require Import base option list gmap strings pretty.

Set Default Proof Using "Type".
Set Warnings "-register-all".

(** ** Python values *)

Module Py.

(** JSON-serialisable values. A float is kept as its literal. *)
Inductive Json : Type :=
| JNull
| JBool (b : bool)
| JInt (z : Z)
| JFloat (lit : string)
| JStr (s : string)
| JArr (items : list Json)
| JObj (members : list (string * Json)).

(** The result of a call that may raise. *)
Inductive Outcome (A : Type) : Type :=
| Returned (a : A)
| Raised (msg : string).
Arguments Returned {A} a.
Arguments Raised {A} msg.

(** Truth value of a [str]: the empty string is false. *)
Definition truthy (s : string) : bool := negb (String.eqb s "").

(** Truth value of an attribute that is absent, [None] or a [str]. *)
Definition truthy_attr (o : option string) : bool :=
  match o with
  | Some s => truthy s
  | None => false
  end.

(** [x or y] on an optional string: the first operand when it is true. *)
Definition or_else (o : option string) (dflt : option string) : option string :=
  if truthy_attr o then o else dflt.

(** [str(x)] inside an f-string, for a value that may be [None]. *)
Definition fmt (o : option string) : string :=
  match o with
  | Some s => s
  | None => "None"
  end.

Lemma truthy_spec s : truthy s = true <-> s <> "".
Proof.
  unfold truthy. rewrite negb_true_iff.
  destruct (String.eqb_spec s ""); split; congruence.
Qed.

Lemma truthy_false s : truthy s = false <-> s = "".
Proof.
  unfold truthy. rewrite negb_false_iff. apply String.eqb_eq.
Qed.

Lemma append_cons (c : ascii) (s t : string) :
  String c s +:+ t = String c (s +:+ t).
Proof. reflexivity. Qed.

Lemma append_empty_r (s : string) : s +:+ "" = s.
Proof.
  induction s as [|c s IH]; [done |]. by rewrite append_cons, IH.
Qed.

Lemma append_assoc (a b c : string) : (a +:+ b) +:+ c = a +:+ (b +:+ c).
Proof.
  induction a as [|x a IH]; [done |]. by rewrite !append_cons, IH.
Qed.

(** *** Insertion-ordered dictionaries

    A Python [dict] keeps its keys in insertion order; assigning to a key
    that is present replaces the value in place. *)

Definition Dict (V : Type) : Type := list (string * V).

Fixpoint dict_get {V} (k : string) (d : Dict V) : option V :=
  match d with
  | [] => None
  | (k', v) :: d' => if String.eqb k k' then Some v else dict_get k d'
  end.

Definition dict_mem {V} (k : string) (d : Dict V) : bool :=
  match dict_get k d with
  | Some _ => true
  | None => false
  end.

Fixpoint dict_set {V} (k : string) (v : V) (d : Dict V) : Dict V :=
  match d with
  | [] => [(k, v)]
  | (k', v') :: d' =>
      if String.eqb k k' then (k', v) :: d' else (k', v') :: dict_set k v d'
  end.

(** [d[k] = f(d[k])] for a key that is present (in-place update of the
    value); an absent key leaves [d] as it is. *)
Fixpoint dict_adjust {V} (k : string) (f : V -> V) (d : Dict V) : Dict V :=
  match d with
  | [] => []
  | (k', v) :: d' =>
      if String.eqb k k' then (k', f v) :: d' else (k', v) :: dict_adjust k f d'
  end.

Definition dict_keys {V} (d : Dict V) : list string := map fst d.

(** *** Callables

    A registered tool. [invoke f args] is the outcome of [func( **args)]
    for the decoded argument value [args], binding errors of the keyword
    call included. *)
Record Callable : Type := {
  iscoroutinefunction : bool;
  invoke : Json -> Outcome Json
}.

(** [await func( **args)] for a coroutine function, [func( **args)] otherwise. *)
Definition call_tool (func : Callable) (args : Json) : Outcome Json :=
  if iscoroutinefunction func then invoke func args else invoke func args.

Lemma dict_get_set_eq {V} k (v : V) d : dict_get k (dict_set k v d) = Some v.
Proof.
  induction d as [|[k' v'] d IH]; simpl.
  - by rewrite String.eqb_refl.
  - destruct (String.eqb k k') eqn:E; simpl; rewrite E; [done | exact IH].
Qed.

Lemma dict_get_set_ne {V} k k' (v : V) d :
  k <> k' -> dict_get k' (dict_set k v d) = dict_get k' d.
Proof.
  intros Hne. induction d as [|[k0 v0] d IH]; simpl.
  - destruct (String.eqb_spec k' k); [congruence | done].
  - destruct (String.eqb_spec k k0) as [->|Hk]; simpl.
    + destruct (String.eqb_spec k' k0); [congruence | done].
    + by rewrite IH.
Qed.

Lemma dict_get_adjust_eq {V} k (f : V -> V) d :
  dict_get k (dict_adjust k f d) = f <$> dict_get k d.
Proof.
  induction d as [|[k' v'] d IH]; simpl; [done |].
  destruct (String.eqb k k') eqn:E; simpl; rewrite E; [done | exact IH].
Qed.

Lemma dict_get_adjust_ne {V} k k' (f : V -> V) d :
  k <> k' -> dict_get k' (dict_adjust k f d) = dict_get k' d.
Proof.
  intros Hne. induction d as [|[k0 v0] d IH]; simpl; [done |].
  destruct (String.eqb_spec k k0) as [->|Hk]; simpl.
  - destruct (String.eqb_spec k' k0); [congruence | done].
  - by rewrite IH.
Qed.

Lemma dict_keys_adjust {V} k (f : V -> V) d :
  dict_keys (dict_adjust k f d) = dict_keys d.
Proof.
  induction d as [|[k' v'] d IH]; simpl; [done |].
  destruct (String.eqb k k'); simpl; [done | by rewrite IH].
Qed.

Lemma dict_get_None_keys {V} k (d : Dict V) :
  dict_get k d = None <-> k ∉ dict_keys d.
Proof.
  induction d as [|[k' v] d IH]; simpl.
  - split; [intros _; apply not_elem_of_nil | done].
  - rewrite not_elem_of_cons.
    destruct (String.eqb_spec k k') as [->|Hk]; split; try done.
    + intros [? _]; done.
    + intros H; split; [done | by apply IH].
    + intros [_ H]; by apply IH.
Qed.

Lemma dict_keys_set_mem {V} k (v : V) d :
  dict_mem k d = true -> dict_keys (dict_set k v d) = dict_keys d.
Proof.
  unfold dict_mem. induction d as [|[k' v'] d IH]; simpl; [done |].
  destruct (String.eqb k k') eqn:E; simpl; [done |].
  intros H. by rewrite IH.
Qed.

Lemma dict_keys_set_new {V} k (v : V) d :
  dict_mem k d = false -> dict_keys (dict_set k v d) = dict_keys d ++ [k].
Proof.
  unfold dict_mem. induction d as [|[k' v'] d IH]; simpl; [done |].
  destruct (String.eqb k k') eqn:E; simpl; [done |].
  intros H. by rewrite IH.
Qed.

Lemma dict_set_NoDup {V} k (v : V) d :
  NoDup (dict_keys d) -> NoDup (dict_keys (dict_set k v d)).
Proof.
  intros Hnd. destruct (dict_mem k d) eqn:E.
  - by rewrite dict_keys_set_mem.
  - rewrite dict_keys_set_new by done.
    apply NoDup_app. split_and!; [done | | apply NoDup_singleton].
    intros x Hx Hk%list_elem_of_singleton. subst x.
    unfold dict_mem in E. destruct (dict_get k d) eqn:G; [done |].
    by apply dict_get_None_keys in G.
Qed.

Lemma last_app_two {A} (l : list A) (a b : A) : last (l ++ [a; b]) = Some b.
Proof.
  change [a; b] with ([a] ++ [b]). rewrite app_assoc. apply last_snoc.
Qed.

End Py.

(** ** [03_tool_calling.py]: [ToolHandler] *)

Module ToolCalling.
Import Py.

(** [self.tools] is annotated [Dict[str, Callable]] and is looked up with
    tool names, which are strings: [tools] is its content at string keys. *)
Record ToolHandler : Type := {
  tools : gmap string Callable;
  tool_schemas : list Json
}.

Definition __init__ : ToolHandler := {| tools := ∅; tool_schemas := [] |}.

(** [v[key]] for a string [key]: a [KeyError] on a dictionary without the
    key, a [TypeError] on a value that is not a dictionary. *)
Definition subscript (v : Json) (key : string) : Outcome Json :=
  match v with
  | JObj members =>
      match dict_get key members with
      | Some x => Returned x
      | None => Raised ("'" +:+ key +:+ "'")
      end
  | JArr _ => Raised "list indices must be integers or slices, not str"
  | JStr _ => Raised "string indices must be integers, not 'str'"
  | JNull => Raised "'NoneType' object is not subscriptable"
  | JBool _ => Raised "'bool' object is not subscriptable"
  | JInt _ => Raised "'int' object is not subscriptable"
  | JFloat _ => Raised "'float' object is not subscriptable"
  end.

(** [self.tools[name] = func]: a string names the tool; a list or a
    dictionary is unhashable; any other key is stored where no tool name
    finds it. *)
Definition store (name : Json) (func : Callable) (t : gmap string Callable)
  : Outcome (gmap string Callable) :=
  match name with
  | JStr n => Returned (<[n := func]> t)
  | JArr _ => Raised "unhashable type: 'list'"
  | JObj _ => Raised "unhashable type: 'dict'"
  | _ => Returned t
  end.

Definition register_tool (func : Callable) (schema : Json) (h : ToolHandler)
  : Outcome ToolHandler :=
  match subscript schema "function" with
  | Raised e => Raised e
  | Returned function =>
      match subscript function "name" with
      | Raised e => Raised e
      | Returned name =>
          match store name func (tools h) with
          | Raised e => Raised e
          | Returned t =>
              Returned {| tools := t; tool_schemas := tool_schemas h ++ [schema] |}
          end
      end
  end.

(** The dictionary returned by [execute_tool]. *)
Definition execute_tool (tool_name : string) (arguments : Json)
    (h : ToolHandler) : Json :=
  match tools h !! tool_name with
  | None => JObj [("error", JStr ("Unknown tool: " +:+ tool_name))]
  | Some func =>
      match call_tool func arguments with
      | Returned result => JObj [("result", result)]
      | Raised e => JObj [("error", JStr ("Tool execution failed: " +:+ e))]
      end
  end.

(** The schema with the function entry [{"name": name, ...}]. *)
Definition names (schema : Json) (name : string) : Prop :=
  exists function,
    subscript schema "function" = Returned function /\
    subscript function "name" = Returned (JStr name).

Lemma register_tool_named func schema name h :
  names schema name ->
  register_tool func schema h
  = Returned {| tools := <[name := func]> (tools h);
                tool_schemas := tool_schemas h ++ [schema] |}.
Proof.
  intros (function & Hf & Hn). unfold register_tool. by rewrite Hf, Hn.
Qed.

(** *** The tools of the examples *)

Section Tools.

(** [eval] of an expression and [float] of its value: the value that [eval]
    gives, or the exception that it raises, and the literal of the float
    that [float] makes of a value, or the exception that it raises. *)
Variable Value : Type.
Variable eval : string -> Outcome Value.
Variable float : Value -> Outcome string.

Definition allowed_chars : string := "0123456789+-*/(). ".

(** [c in allowed_chars] for a character [c] of the expression. A character
    outside ASCII is several bytes of the string, none of them allowed. *)
Definition allowed (c : ascii) : bool :=
  existsb (Ascii.eqb c) (list_ascii_of_string allowed_chars).

(** [calculate(expression)] for a string. *)
Definition calculate (expression : string) : Outcome Json :=
  if forallb allowed (list_ascii_of_string expression) then
    match eval expression with
    | Returned result =>
        match float result with
        | Returned f => Returned (JFloat f)
        | Raised e => Raised ("Invalid expression: " +:+ e)
        end
    | Raised e => Raised ("Invalid expression: " +:+ e)
    end
  else Raised "Invalid characters in expression".

(** [str.lower], and [str(item)] for a row of the mock data. *)
Variable str_lower : string -> string.
Variable str_of : Json -> string.

Definition mock_data : Dict (list Json) :=
  [("products",
    [JObj [("id", JInt 1); ("name", JStr "Laptop"); ("price", JFloat "999.99");
           ("category", JStr "Electronics")];
     JObj [("id", JInt 2); ("name", JStr "Phone"); ("price", JFloat "699.99");
           ("category", JStr "Electronics")];
     JObj [("id", JInt 3); ("name", JStr "Desk"); ("price", JFloat "299.99");
           ("category", JStr "Furniture")];
     JObj [("id", JInt 4); ("name", JStr "Chair"); ("price", JFloat "199.99");
           ("category", JStr "Furniture")];
     JObj [("id", JInt 5); ("name", JStr "Monitor"); ("price", JFloat "399.99");
           ("category", JStr "Electronics")]]);
   ("users",
    [JObj [("id", JInt 1); ("name", JStr "Alice"); ("role", JStr "Admin")];
     JObj [("id", JInt 2); ("name", JStr "Bob"); ("role", JStr "User")];
     JObj [("id", JInt 3); ("name", JStr "Charlie"); ("role", JStr "User")]])].

(** [needle in haystack] for two strings. *)
Fixpoint contains (needle haystack : string) : bool :=
  String.prefix needle haystack
  || match haystack with
     | EmptyString => false
     | String _ rest => contains needle rest
     end.

(** [query.lower() in str(item).lower()]. *)
Definition matches (query : string) (item : Json) : bool :=
  contains (str_lower query) (str_lower (str_of item)).

(** The loop of [search_database] over the rows that are left. *)
Fixpoint search (query : string) (limit : Z) (data : list Json)
    (results : list Json) : list Json :=
  match data with
  | [] => results
  | item :: data =>
      if matches query item then
        let results := results ++ [item] in
        if (limit <=? Z.of_nat (length results))%Z then results
        else search query limit data results
      else search query limit data results
  end.

(** [search_database(query, table, limit)] for two strings and an integer. *)
Definition search_database (query table : string) (limit : Z) : list Json :=
  search query limit (default [] (dict_get table mock_data)) [].

Lemma forallb_allowed_false expression c :
  In c (list_ascii_of_string expression) ->
  allowed c = false ->
  forallb allowed (list_ascii_of_string expression) = false.
Proof.
  intros Hin Hc. apply not_true_is_false. intros Hall.
  rewrite forallb_forall in Hall. specialize (Hall c Hin). congruence.
Qed.

(** The loop takes the rows that match, in their order, until the results
    are as many as the limit, and one row at least when one matches. *)
Lemma search_spec query limit data results :
  search query limit data results
  = results
    ++ take (Z.to_nat (Z.max 1 (limit - Z.of_nat (length results))))
         (List.filter (matches query) data).
Proof.
  revert results. induction data as [|item data IH]; intros results;
    cbn [search List.filter].
  - by rewrite take_nil, app_nil_r.
  - destruct (matches query item).
    + destruct (Z.leb_spec limit (Z.of_nat (length (results ++ [item]))))
        as [Hle|Hgt]; rewrite length_app in *; cbn [length] in *.
      * replace (Z.to_nat (Z.max 1 (limit - Z.of_nat (length results))))
          with 1 by lia.
        by rewrite firstn_cons, take_0.
      * rewrite IH, length_app. cbn [length].
        replace (Z.to_nat (Z.max 1 (limit - Z.of_nat (length results))))
          with (S (Z.to_nat
                     (Z.max 1 (limit - Z.of_nat (length results + 1)))))
          by lia.
        by rewrite firstn_cons, <- app_assoc.
    + apply IH.
Qed.

End Tools.

(** *** The schemas of the examples *)

Definition TIME_TOOL_SCHEMA : Json :=
  JObj
    [("type", JStr "function");
     ("function",
      JObj
        [("name", JStr "get_current_time");
         ("description", JStr "Get the current time in a specified timezone");
         ("parameters",
          JObj
            [("type", JStr "object");
             ("properties",
              JObj
                [("timezone",
                  JObj
                    [("type", JStr "string");
                     ("description", JStr "Timezone (e.g., UTC, EST, PST)");
                     ("default", JStr "UTC")])])])])].

Definition CALCULATOR_TOOL_SCHEMA : Json :=
  JObj
    [("type", JStr "function");
     ("function",
      JObj
        [("name", JStr "calculate");
         ("description", JStr "Evaluate a mathematical expression");
         ("parameters",
          JObj
            [("type", JStr "object");
             ("properties",
              JObj
                [("expression",
                  JObj
                    [("type", JStr "string");
                     ("description",
                      JStr "Mathematical expression to evaluate")])]);
             ("required", JArr [JStr "expression"])])])].

Definition SEARCH_TOOL_SCHEMA : Json :=
  JObj
    [("type", JStr "function");
     ("function",
      JObj
        [("name", JStr "search_database");
         ("description", JStr "Search for items in the database");
         ("parameters",
          JObj
            [("type", JStr "object");
             ("properties",
              JObj
                [("query",
                  JObj
                    [("type", JStr "string");
                     ("description", JStr "Search query")]);
                 ("table",
                  JObj
                    [("type", JStr "string");
                     ("enum", JArr [JStr "products"; JStr "users"]);
                     ("description", JStr "Table to search in");
                     ("default", JStr "products")]);
                 ("limit",
                  JObj
                    [("type", JStr "integer");
                     ("description", JStr "Maximum number of results");
                     ("default", JInt 5)])]);
             ("required", JArr [JStr "query"])])])].

Definition create_weather_tool : Json :=
  JObj
    [("type", JStr "function");
     ("function",
      JObj
        [("name", JStr "get_weather");
         ("description", JStr "Get current weather for a location");
         ("parameters",
          JObj
            [("type", JStr "object");
             ("properties",
              JObj
                [("location",
                  JObj
                    [("type", JStr "string");
                     ("description", JStr "City name or coordinates")]);
                 ("units",
                  JObj
                    [("type", JStr "string");
                     ("enum", JArr [JStr "celsius"; JStr "fahrenheit"]);
                     ("description", JStr "Temperature units");
                     ("default", JStr "celsius")])]);
             ("required", JArr [JStr "location"])])])].

(** *** The example conversations *)

(** A tool call of an assistant message: [tool_call.id],
    [tool_call.function.name] and [tool_call.function.arguments]. *)
Record ToolCall : Type := {
  call_id : string;
  function_name : string;
  function_arguments : string
}.

(** The message of a choice: its content, its tool calls ([None] without
    the attribute) and what [message.dict()] returns. *)
Record AssistantMessage : Type := {
  content : option string;
  tool_calls : option (list ToolCall);
  dict : Json
}.

(** An answer of the provider: the messages of its choices. *)
Record Completion : Type := { choices : list AssistantMessage }.

(** The keyword arguments of a call of [acompletion]; [None] for the ones
    that are not given. *)
Record Request : Type := {
  rq_model : string;
  rq_messages : list Json;
  rq_tools : option (list Json);
  rq_tool_choice : option string
}.

(** A computation that calls the provider: from the requests sent so far,
    oldest first, to its outcome and the requests sent when it ends. *)
Definition Call (A : Type) : Type := list Request -> Outcome A * list Request.

Definition ret {A} (a : A) : Call A := fun sent => (Returned a, sent).

Definition raise {A} (e : string) : Call A := fun sent => (Raised e, sent).

Definition bind {A B} (m : Call A) (k : A -> Call B) : Call B :=
  fun sent =>
    match m sent with
    | (Returned a, sent) => k a sent
    | (Raised e, sent) => (Raised e, sent)
    end.

Definition lift {A} (o : Outcome A) : Call A := fun sent => (o, sent).

Notation "'let*' x := m 'in' k" := (bind m (fun x => k))
  (at level 10, x name, m at level 100, k at level 200).

Section Callers.

Variable json_loads : string -> Outcome Json.
Variable json_dumps : Json -> string.
(** The provider: its answer to a request, given the requests before. *)
Variable acompletion : list Request -> Request -> Outcome Completion.
(** The functions of the module that the examples register, as callables:
    [get_current_time], [calculate], [search_database], [get_weather]. *)
Variable time_tool calculator_tool search_tool weather_tool : Callable.

Definition complete (request : Request) : Call Completion :=
  fun sent => (acompletion sent request, sent ++ [request]).

(** [response.choices[0].message]. *)
Definition first_message (response : Completion) : Outcome AssistantMessage :=
  match choices response with
  | message :: _ => Returned message
  | [] => Raised "list index out of range"
  end.

(** [message.tool_calls] when the message has the attribute and it is not
    empty. *)
Definition wanted (message : AssistantMessage) : list ToolCall :=
  default [] (tool_calls message).

Definition user (text : string) : Json :=
  JObj [("role", JStr "user"); ("content", JStr text)].

(** **** [simple_tool_calling_example] *)

(** "Execute each tool call": the list [tool_results]. *)
Fixpoint collect_results (handler : ToolHandler) (tcs : list ToolCall)
    (tool_results : list Json) : Outcome (list Json) :=
  match tcs with
  | [] => Returned tool_results
  | tool_call :: tcs =>
      match json_loads (function_arguments tool_call) with
      | Raised e => Raised e
      | Returned arguments =>
          let result :=
            execute_tool (function_name tool_call) arguments handler in
          collect_results handler tcs
            (tool_results
             ++ [JObj [("tool_call_id", JStr (call_id tool_call));
                       ("output", JStr (json_dumps result))]])
      end
  end.

Definition simple_question : string :=
  "What time is it in UTC and what is 42 * 17?".

Definition simple_tool_calling_example : Call unit :=
  let* handler := lift (register_tool time_tool TIME_TOOL_SCHEMA __init__) in
  let* handler := lift (register_tool calculator_tool CALCULATOR_TOOL_SCHEMA handler) in
  let* response :=
    complete {| rq_model := "gpt-4o-mini";
                rq_messages := [user simple_question];
                rq_tools := Some (tool_schemas handler);
                rq_tool_choice := Some "auto" |} in
  let* message := lift (first_message response) in
  match wanted message with
  | _ :: _ =>
      let* tool_results := lift (collect_results handler (wanted message) []) in
      let* follow_up :=
        complete
          {| rq_model := "gpt-4o-mini";
             rq_messages :=
               [user simple_question;
                dict message;
                JObj [("role", JStr "tool");
                      ("content", JStr (json_dumps (JArr tool_results)));
                      ("tool_call_id", JStr "multi")]];
             rq_tools := None;
             rq_tool_choice := None |} in
      let* ignored := lift (first_message follow_up) in
      ret tt
  | [] => ret tt
  end.

(** **** [multi_step_tool_calling] *)

Definition tool_message (tool_call : ToolCall) (result : Json) : Json :=
  JObj [("role", JStr "tool");
        ("tool_call_id", JStr (call_id tool_call));
        ("content", JStr (json_dumps result))].

(** "Execute tools": the messages after the loop over the tool calls. *)
Fixpoint answer_tool_calls (handler : ToolHandler) (tcs : list ToolCall)
    (messages : list Json) : Outcome (list Json) :=
  match tcs with
  | [] => Returned messages
  | tool_call :: tcs =>
      match json_loads (function_arguments tool_call) with
      | Raised e => Raised e
      | Returned arguments =>
          let result :=
            execute_tool (function_name tool_call) arguments handler in
          answer_tool_calls handler tcs
            (messages ++ [tool_message tool_call result])
      end
  end.

(** The loop [while iteration < max_iterations] from the passes that are
    left: the messages when it ends. *)
Fixpoint rounds (handler : ToolHandler) (passes : nat) (messages : list Json)
  : Call (list Json) :=
  match passes with
  | O => ret messages
  | S passes =>
      let* response :=
        complete {| rq_model := "gpt-4o-mini";
                    rq_messages := messages;
                    rq_tools := Some (tool_schemas handler);
                    rq_tool_choice := Some "auto" |} in
      let* message := lift (first_message response) in
      let messages := messages ++ [dict message] in
      match wanted message with
      | _ :: _ =>
          let* messages :=
            lift (answer_tool_calls handler (wanted message) messages) in
          rounds handler passes messages
      | [] => ret messages
      end
  end.

(** [handler.tool_schemas.append(schema)]. *)
Definition with_schemas (schemas : list Json) (handler : ToolHandler)
  : ToolHandler :=
  {| tools := tools handler; tool_schemas := tool_schemas handler ++ schemas |}.

Definition multi_step_tool_calling : Call unit :=
  let* handler := lift (register_tool search_tool SEARCH_TOOL_SCHEMA __init__) in
  let* handler := lift (register_tool calculator_tool CALCULATOR_TOOL_SCHEMA handler) in
  let* function := lift (subscript create_weather_tool "function") in
  let* handler := lift (register_tool weather_tool function handler) in
  let handler := with_schemas [create_weather_tool] handler in
  let messages :=
    [JObj [("role", JStr "system");
           ("content",
            JStr "You are a helpful assistant with access to various tools.")];
     user ("Find all electronics products, calculate their total price, "
           +:+ "and check the weather in New York.")] in
  let* ignored := rounds handler 5 messages in
  ret tt.

(** **** [parallel_tool_execution] *)

(** "Execute all tools in parallel": the coroutines are made first, one
    per tool call, with the decoded arguments. *)
Fixpoint schedule (tcs : list ToolCall)
  : Outcome (list (ToolCall * Json)) :=
  match tcs with
  | [] => Returned []
  | tool_call :: tcs =>
      match json_loads (function_arguments tool_call) with
      | Raised e => Raised e
      | Returned arguments =>
          match schedule tcs with
          | Raised e => Raised e
          | Returned tasks => Returned ((tool_call, arguments) :: tasks)
          end
      end
  end.

(** "Wait for all tasks to complete": they are awaited one after the
    other. *)
Definition gather (handler : ToolHandler) (tasks : list (ToolCall * Json))
  : list Json :=
  map (fun task =>
         JObj [("tool_call_id", JStr (call_id (fst task)));
               ("function", JStr (function_name (fst task)));
               ("result",
                execute_tool (function_name (fst task)) (snd task) handler)])
    tasks.

Definition parallel_tool_execution : Call (list Json) :=
  let* function := lift (subscript create_weather_tool "function") in
  let* handler := lift (register_tool weather_tool function __init__) in
  let* handler := lift (register_tool search_tool SEARCH_TOOL_SCHEMA handler) in
  let* handler := lift (register_tool time_tool TIME_TOOL_SCHEMA handler) in
  let handler :=
    with_schemas [create_weather_tool; SEARCH_TOOL_SCHEMA; TIME_TOOL_SCHEMA]
      handler in
  let* response :=
    complete
      {| rq_model := "gpt-4o-mini";
         rq_messages :=
           [user ("Get the weather in New York, Miami, and London. Also "
                  +:+ "search for furniture products and tell me the "
                  +:+ "current time.")];
         rq_tools := Some (tool_schemas handler);
         rq_tool_choice := Some "auto" |} in
  let* message := lift (first_message response) in
  match wanted message with
  | _ :: _ =>
      let* tasks := lift (schedule (wanted message)) in
      ret (gather handler tasks)
  | [] => ret []
  end.

(** **** [tool_error_handling] *)

Definition error_question : string := "Calculate this for me: 10 / 0".

(** The loop over the tool calls: each result is sent back on its own. *)
Fixpoint report_each (handler : ToolHandler) (message : AssistantMessage)
    (tcs : list ToolCall) : Call unit :=
  match tcs with
  | [] => ret tt
  | tool_call :: tcs =>
      let* arguments := lift (json_loads (function_arguments tool_call)) in
      let result :=
        execute_tool (function_name tool_call) arguments handler in
      let* follow_up :=
        complete
          {| rq_model := "gpt-4o-mini";
             rq_messages :=
               [user error_question; dict message;
                tool_message tool_call result];
             rq_tools := None;
             rq_tool_choice := None |} in
      let* ignored := lift (first_message follow_up) in
      report_each handler message tcs
  end.

Definition tool_error_handling : Call unit :=
  let* handler := lift (register_tool calculator_tool CALCULATOR_TOOL_SCHEMA __init__) in
  let* response :=
    complete {| rq_model := "gpt-4o-mini";
                rq_messages := [user error_question];
                rq_tools := Some (tool_schemas handler);
                rq_tool_choice := Some "auto" |} in
  let* message := lift (first_message response) in
  report_each handler message (wanted message).

(** **** [main] *)

Definition main : Call unit :=
  let* ignored := simple_tool_calling_example in
  let* ignored := multi_step_tool_calling in
  let* ignored := parallel_tool_execution in
  tool_error_handling.

(** **** What the example conversations send *)

(** The argument texts of the tool calls decode, to these values. *)
Definition decode_to (tcs : list ToolCall) (arguments : list Json) : Prop :=
  Forall2 (fun tool_call a => json_loads (function_arguments tool_call) = Returned a)
    tcs arguments.

(** The result of a tool call whose arguments are decoded. *)
Definition result_of (handler : ToolHandler) (tool_call : ToolCall)
    (arguments : Json) : Json :=
  execute_tool (function_name tool_call) arguments handler.

Lemma collect_results_spec handler tcs arguments tool_results :
  decode_to tcs arguments ->
  collect_results handler tcs tool_results
  = Returned
      (tool_results
       ++ zip_with
            (fun tool_call a =>
               JObj [("tool_call_id", JStr (call_id tool_call));
                     ("output",
                      JStr (json_dumps (result_of handler tool_call a)))])
            tcs arguments).
Proof.
  intros Hd. revert tool_results.
  induction Hd as [|tool_call a tcs arguments Ha _ IH]; intros tool_results;
    cbn [collect_results zip_with].
  - by rewrite app_nil_r.
  - rewrite Ha, IH. by rewrite <- app_assoc.
Qed.

Lemma answer_tool_calls_spec handler tcs arguments messages :
  decode_to tcs arguments ->
  answer_tool_calls handler tcs messages
  = Returned
      (messages
       ++ zip_with
            (fun tool_call a =>
               tool_message tool_call (result_of handler tool_call a))
            tcs arguments).
Proof.
  intros Hd. revert messages.
  induction Hd as [|tool_call a tcs arguments Ha _ IH]; intros messages;
    cbn [answer_tool_calls zip_with].
  - by rewrite app_nil_r.
  - rewrite Ha, IH. by rewrite <- app_assoc.
Qed.

(** The first tool call whose arguments do not decode stops the loop with
    the exception of the decoder. *)
Lemma answer_tool_calls_raises handler tcs1 arguments tool_call tcs2 messages e :
  decode_to tcs1 arguments ->
  json_loads (function_arguments tool_call) = Raised e ->
  answer_tool_calls handler (tcs1 ++ tool_call :: tcs2) messages = Raised e.
Proof.
  intros Hd He. revert messages.
  induction Hd as [|tc a tcs arguments Ha _ IH]; intros messages;
    cbn [answer_tool_calls app].
  - by rewrite He.
  - by rewrite Ha, IH.
Qed.

Lemma collect_results_raises handler tcs1 arguments tool_call tcs2 tool_results e :
  decode_to tcs1 arguments ->
  json_loads (function_arguments tool_call) = Raised e ->
  collect_results handler (tcs1 ++ tool_call :: tcs2) tool_results = Raised e.
Proof.
  intros Hd He. revert tool_results.
  induction Hd as [|tc a tcs arguments Ha _ IH]; intros tool_results;
    cbn [collect_results app].
  - by rewrite He.
  - by rewrite Ha, IH.
Qed.

(** The handler of [simple_tool_calling_example]. *)
Definition simple_handler : ToolHandler :=
  {| tools :=
       <["calculate" := calculator_tool]>
         (<["get_current_time" := time_tool]> ∅);
     tool_schemas := [TIME_TOOL_SCHEMA; CALCULATOR_TOOL_SCHEMA] |}.

Definition simple_request : Request :=
  {| rq_model := "gpt-4o-mini";
     rq_messages := [user simple_question];
     rq_tools := Some [TIME_TOOL_SCHEMA; CALCULATOR_TOOL_SCHEMA];
     rq_tool_choice := Some "auto" |}.

(** The example from the first request on, for the message of its answer. *)
Definition simple_follow_up (message : AssistantMessage) : Call unit :=
  match wanted message with
  | _ :: _ =>
      let* tool_results :=
        lift (collect_results simple_handler (wanted message) []) in
      let* follow_up :=
        complete
          {| rq_model := "gpt-4o-mini";
             rq_messages :=
               [user simple_question;
                dict message;
                JObj [("role", JStr "tool");
                      ("content", JStr (json_dumps (JArr tool_results)));
                      ("tool_call_id", JStr "multi")]];
             rq_tools := None;
             rq_tool_choice := None |} in
      let* ignored := lift (first_message follow_up) in
      ret tt
  | [] => ret tt
  end.

Lemma simple_tool_calling_example_unfold :
  simple_tool_calling_example
  = (let* response := complete simple_request in
     let* message := lift (first_message response) in
     simple_follow_up message).
Proof. reflexivity. Qed.

(** The example sends one request, and a second one when the first answer
    asks for tool calls whose arguments decode. *)
Lemma simple_tool_calling_example_requests sent :
  exists more,
    snd (simple_tool_calling_example sent) = sent ++ simple_request :: more
    /\ length more <= 1.
Proof.
  rewrite simple_tool_calling_example_unfold.
  unfold bind, complete, lift. cbn [fst snd].
  destruct (acompletion sent simple_request) as [response|e];
    [|exists []; split; [done | simpl; lia]].
  destruct (first_message response) as [message|e];
    [|exists []; split; [done | simpl; lia]].
  unfold simple_follow_up.
  destruct (wanted message) as [|tc tcs];
    [exists []; split; [done | simpl; lia] |].
  unfold bind, complete, lift.
  destruct (collect_results simple_handler (tc :: tcs) []) as [results|e];
    [|exists []; split; [done | simpl; lia]].
  eexists [_]. split; [|simpl; lia].
  destruct (acompletion _ _) as [follow_up|e];
    [|by rewrite <- app_assoc].
  destruct (first_message follow_up); by rewrite <- app_assoc.
Qed.

(** The loop of [multi_step_tool_calling] sends one request per pass. *)
Lemma rounds_requests handler passes messages sent :
  exists more,
    snd (rounds handler passes messages sent) = sent ++ more
    /\ length more <= passes.
Proof.
  revert messages sent. induction passes as [|passes IH]; intros messages sent.
  - exists []. by rewrite app_nil_r.
  - cbn [rounds]. unfold bind at 1. unfold complete at 1.
    set (request := {| rq_model := _; rq_messages := messages;
                       rq_tools := _; rq_tool_choice := _ |}).
    destruct (acompletion sent request) as [response|e];
      [|exists [request]; split; [done | simpl; lia]].
    unfold bind at 1. unfold lift at 1.
    destruct (first_message response) as [message|e];
      [|exists [request]; split; [done | simpl; lia]].
    destruct (wanted message) as [|tc tcs];
      [exists [request]; split; [done | simpl; lia] |].
    unfold bind at 1. unfold lift at 1.
    destruct (answer_tool_calls handler (tc :: tcs) _) as [messages'|e];
      [|exists [request]; split; [done | simpl; lia]].
    destruct (IH messages' (sent ++ [request])) as (more & Hm & Hl).
    exists (request :: more). rewrite Hm, <- app_assoc. split; [done |].
    simpl. lia.
Qed.

(** The loop keeps the messages that it is given and adds to them. *)
Lemma rounds_messages handler passes messages sent messages' :
  fst (rounds handler passes messages sent) = Returned messages' ->
  messages `prefix_of` messages'.
Proof.
  revert messages sent. induction passes as [|passes IH]; intros messages sent.
  - cbn. by intros [= <-].
  - cbn [rounds]. unfold bind at 1. unfold complete at 1.
    destruct (acompletion sent _) as [response|e]; [|done].
    unfold bind at 1. unfold lift at 1.
    destruct (first_message response) as [message|e]; [|done].
    destruct (wanted message) as [|tc tcs] eqn:Ew.
    + cbn. intros [= <-]. by apply prefix_app_r.
    + unfold bind at 1. unfold lift at 1.
      destruct (answer_tool_calls handler (tc :: tcs) _) as [messages1|e] eqn:Ea;
        [|done].
      intros Hr. apply IH in Hr.
      assert (Hp : (messages ++ [dict message]) `prefix_of` messages1).
      { clear -Ea. revert Ea. generalize (messages ++ [dict message]).
        generalize (tc :: tcs). intros tcs0.
        induction tcs0 as [|t tcs0 IH0]; intros ms; cbn [answer_tool_calls].
        - by intros [= <-].
        - destruct (json_loads (function_arguments t)); [|done].
          intros H. apply IH0 in H.
          etrans; [|exact H]. by apply prefix_app_r. }
      etrans; [|exact Hr]. etrans; [|exact Hp]. by apply prefix_app_r.
Qed.

(** With a provider whose every answer asks for tool calls whose arguments
    decode, the loop runs all its passes and returns. *)
Definition asks_for_tools (answer : Outcome Completion) : Prop :=
  exists message rest tool_call tcs arguments,
    answer = Returned {| choices := message :: rest |}
    /\ wanted message = tool_call :: tcs
    /\ decode_to (tool_call :: tcs) arguments.

Lemma rounds_bounded handler passes messages sent :
  (forall history request, asks_for_tools (acompletion history request)) ->
  exists messages' more,
    rounds handler passes messages sent = (Returned messages', sent ++ more)
    /\ length more = passes.
Proof.
  intros Hasks. revert messages sent.
  induction passes as [|passes IH]; intros messages sent.
  - exists messages, []. by rewrite app_nil_r.
  - cbn [rounds]. unfold bind at 1. unfold complete at 1.
    set (request := {| rq_model := _; rq_messages := messages;
                       rq_tools := _; rq_tool_choice := _ |}).
    destruct (Hasks sent request)
      as (message & rest & tc & tcs & arguments & Ha & Hw & Hd).
    rewrite Ha. unfold bind at 1. unfold lift at 1.
    cbn [first_message choices]. rewrite Hw.
    unfold bind at 1. unfold lift at 1.
    rewrite (answer_tool_calls_spec handler (tc :: tcs) arguments _ Hd).
    destruct (IH (messages ++ [dict message]
                  ++ zip_with
                       (fun tool_call a =>
                          tool_message tool_call (result_of handler tool_call a))
                       (tc :: tcs) arguments)
                 (sent ++ [request]))
      as (messages' & more & Hr & Hl).
    rewrite <- app_assoc. rewrite Hr.
    exists messages', (request :: more). rewrite <- app_assoc.
    split; [done | simpl; lia].
Qed.

(** The loop of [tool_error_handling] with a provider that answers every
    request with a choice: one follow-up request per tool call. *)
Definition follow_up_of (message : AssistantMessage) (handler : ToolHandler)
    (tool_call : ToolCall) (a : Json) : Request :=
  {| rq_model := "gpt-4o-mini";
     rq_messages :=
       [user error_question; dict message;
        tool_message tool_call (result_of handler tool_call a)];
     rq_tools := None;
     rq_tool_choice := None |}.

Definition answers (answer : Outcome Completion) : Prop :=
  exists message rest, answer = Returned {| choices := message :: rest |}.

Lemma report_each_spec handler message tcs arguments sent :
  (forall history request, answers (acompletion history request)) ->
  decode_to tcs arguments ->
  report_each handler message tcs sent
  = (Returned tt,
     sent ++ zip_with (follow_up_of message handler) tcs arguments).
Proof.
  intros Hans Hd. revert sent.
  induction Hd as [|tool_call a tcs arguments Ha _ IH]; intros sent;
    cbn [report_each zip_with].
  - unfold ret. by rewrite app_nil_r.
  - unfold bind at 1. unfold lift at 1. rewrite Ha.
    unfold bind at 1. unfold complete at 1.
    fold (result_of handler tool_call a).
    fold (follow_up_of message handler tool_call a).
    destruct (Hans sent (follow_up_of message handler tool_call a))
      as (m & rest & ->).
    unfold bind at 1. unfold lift at 1. cbn [first_message choices].
    rewrite IH. by rewrite <- app_assoc.
Qed.

End Callers.

End ToolCalling.

(** ** [04_streaming_with_tools.py]: [StreamingToolHandler] *)

Module Streaming.
Import Py.

(** [StreamEventType]. *)
Inductive StreamEventType : Type :=
| TEXT
| TOOL_CALL_START
| TOOL_CALL_ARGS
| TOOL_CALL_END
| TOOL_RESULT
| ERROR
| END.

(** The [data] payloads that the handler builds, one constructor per shape
    of dictionary (or string, or [None]) that it yields. *)
Inductive EventData : Type :=
| Text (content : string)
| CallStart (id : option string) (name : string)
| CallArgs (id : option string) (arguments_chunk : string)
| CallEnd (id name arguments : string)
| ResultOk (tool_id tool_name : string) (result : Json)
| ResultFailed (tool_id tool_name error : string)
| ErrorText (msg : string)
| NoData.

(** [StreamEvent]; [timestamp] is the reading of [time.time()] taken by
    [__post_init__]. *)
Record StreamEvent : Type := {
  type : StreamEventType;
  data : EventData;
  timestamp : Z
}.

(** The streamed objects of the provider, as far as the handler reads them. *)
Record FunctionDelta : Type := {
  fn_name : option string;
  fn_arguments : option string
}.

Record ToolCallDelta : Type := {
  delta_id : option string;
  delta_function : option FunctionDelta
}.

Record Delta : Type := {
  content : option string;
  tool_calls : option (list ToolCallDelta)
}.

Record Choice : Type := { delta : Delta }.

Record Chunk : Type := { choices : list Choice }.

(** One entry of [current_tool_calls]: the dictionary with the keys
    ["id"], ["name"] and ["arguments"]. *)
Record PendingCall : Type := {
  pc_id : string;
  pc_name : string;
  pc_arguments : string
}.

Definition set_name (n : string) (e : PendingCall) : PendingCall :=
  {| pc_id := pc_id e; pc_name := n; pc_arguments := pc_arguments e |}.

Definition add_arguments (a : string) (e : PendingCall) : PendingCall :=
  {| pc_id := pc_id e; pc_name := pc_name e;
     pc_arguments := pc_arguments e +:+ a |}.

Record StreamingToolHandler : Type := {
  tools : gmap string Callable;
  tool_schemas : list Json;
  current_tool_calls : Dict PendingCall
}.

Definition __init__ : StreamingToolHandler :=
  {| tools := ∅; tool_schemas := []; current_tool_calls := [] |}.

Definition with_calls (h : StreamingToolHandler) (calls : Dict PendingCall)
  : StreamingToolHandler :=
  {| tools := tools h; tool_schemas := tool_schemas h;
     current_tool_calls := calls |}.

Definition register_tool (name : string) (func : Callable) (schema : Json)
    (h : StreamingToolHandler) : StreamingToolHandler :=
  {| tools := <[name := func]> (tools h);
     tool_schemas := tool_schemas h ++ [schema];
     current_tool_calls := current_tool_calls h |}.

(** "Initialize tool call tracking": the entry created for an identifier
    that is not yet pending. *)
Definition track (tool_id : string) (calls : Dict PendingCall)
  : Dict PendingCall :=
  if dict_mem tool_id calls then calls
  else dict_set tool_id
         {| pc_id := tool_id; pc_name := ""; pc_arguments := "" |} calls.

(** "Update tool call information". *)
Definition update (tool_id : string) (func : FunctionDelta)
    (calls : Dict PendingCall) : Dict PendingCall :=
  let calls :=
    match fn_name func with
    | Some n => if truthy n then dict_adjust tool_id (set_name n) calls
                else calls
    | None => calls
    end in
  match fn_arguments func with
  | Some a => if truthy a then dict_adjust tool_id (add_arguments a) calls
              else calls
  | None => calls
  end.

Definition _process_tool_call_delta (tool_call_delta : ToolCallDelta)
    (h : StreamingToolHandler) : StreamingToolHandler :=
  match delta_id tool_call_delta with
  | None => h
  | Some tool_id =>
      if negb (truthy tool_id) then h
      else
        let calls := track tool_id (current_tool_calls h) in
        match delta_function tool_call_delta with
        | Some func => with_calls h (update tool_id func calls)
        | None => with_calls h calls
        end
  end.

(** The accumulator run over fragments in arrival order. *)
Definition accumulate (ds : list ToolCallDelta) (h : StreamingToolHandler)
  : StreamingToolHandler :=
  fold_left (fun h d => _process_tool_call_delta d h) ds h.

(** A generator in progress: the events yielded so far, the handler, and
    the number of clock readings taken. *)
Record Run : Type := {
  events : list StreamEvent;
  handler : StreamingToolHandler;
  clock : nat
}.

(** The call [acompletion(model=model, messages=messages, **kwargs)]. *)
Record Request : Type := {
  rq_model : string;
  rq_messages : list Json;
  rq_kwargs : Dict Json
}.

(** What the provider does with a request: the chunks it delivers and, when
    [failure] is [Some msg], the exception it raises after them (with no
    chunk delivered when the call itself raises). *)
Record Stream : Type := {
  delivered : list Chunk;
  failure : option string
}.

Section Handler.

Variable json_loads : string -> Outcome Json.
Variable time_time : nat -> Z.
(** The provider at the one call [await acompletion(...)] of a turn: the
    stream that this call gives for its request. Another call may give
    another stream, also for the same request, so what is about two turns
    takes one such function per call. *)
Variable acompletion : Request -> Stream.

(** [yield StreamEvent(ty, d)]. *)
Definition yield (ty : StreamEventType) (d : EventData) (r : Run) : Run :=
  {| events := events r ++
               [{| type := ty; data := d; timestamp := time_time (clock r) |}];
     handler := handler r;
     clock := S (clock r) |}.

Definition on_handler (f : StreamingToolHandler -> StreamingToolHandler)
    (r : Run) : Run :=
  {| events := events r; handler := f (handler r); clock := clock r |}.

(** "Yield events for tool call progress". *)
Definition tool_call_progress (tool_call_delta : ToolCallDelta) (r : Run)
  : Run :=
  match delta_function tool_call_delta with
  | Some func =>
      let r :=
        match fn_name func with
        | Some n =>
            if truthy n
            then yield TOOL_CALL_START (CallStart (delta_id tool_call_delta) n) r
            else r
        | None => r
        end in
      match fn_arguments func with
      | Some a =>
          if truthy a
          then yield TOOL_CALL_ARGS (CallArgs (delta_id tool_call_delta) a) r
          else r
      | None => r
      end
  | None => r
  end.

Definition _process_chunk (chunk : Chunk) (r : Run) : Run :=
  match choices chunk with
  | [] => r
  | choice :: _ =>
      let r :=
        match content (delta choice) with
        | Some c => if truthy c then yield TEXT (Text c) r else r
        | None => r
        end in
      match tool_calls (delta choice) with
      | Some tcs =>
          fold_left
            (fun r d =>
               tool_call_progress d (on_handler (_process_tool_call_delta d) r))
            tcs r
      | None => r
      end
  end.

(** The body of the loop of [_execute_pending_tools] for one pending call. *)
Definition execute_pending (tool_id : string) (tool_info : PendingCall)
    (r : Run) : Run :=
  let r :=
    yield TOOL_CALL_END
      (CallEnd tool_id (pc_name tool_info) (pc_arguments tool_info)) r in
  let tool_name := pc_name tool_info in
  match tools (handler r) !! tool_name with
  | Some func =>
      match json_loads (pc_arguments tool_info) with
      | Returned args =>
          match call_tool func args with
          | Returned result =>
              yield TOOL_RESULT (ResultOk tool_id tool_name result) r
          | Raised e =>
              yield TOOL_RESULT (ResultFailed tool_id tool_name e) r
          end
      | Raised e => yield TOOL_RESULT (ResultFailed tool_id tool_name e) r
      end
  | None => r
  end.

Definition execute_each (calls : Dict PendingCall) (r : Run) : Run :=
  fold_left (fun r item => execute_pending (fst item) (snd item) r) calls r.

Definition _execute_pending_tools (r : Run) : Run :=
  let r := execute_each (current_tool_calls (handler r)) r in
  on_handler (fun h => with_calls h []) r.

(** "Add tools to kwargs": the request sent to the provider. *)
Definition request_of (model : string) (messages : list Json)
    (kwargs : Dict Json) (h : StreamingToolHandler) : Request :=
  let kwargs := dict_set "tools" (JArr (tool_schemas h)) kwargs in
  let kwargs :=
    dict_set "tool_choice"
      (default (JStr "auto") (dict_get "tool_choice" kwargs)) kwargs in
  let kwargs := dict_set "stream" (JBool true) kwargs in
  {| rq_model := model; rq_messages := messages; rq_kwargs := kwargs |}.

Definition stream_with_tools (model : string) (messages : list Json)
    (kwargs : Dict Json) (h : StreamingToolHandler) (now : nat) : Run :=
  let stream := acompletion (request_of model messages kwargs h) in
  let r :=
    fold_left (fun r chunk => _process_chunk chunk r) (delivered stream)
      {| events := []; handler := h; clock := now |} in
  match failure stream with
  | Some e => yield ERROR (ErrorText e) r
  | None =>
      let r :=
        match current_tool_calls (handler r) with
        | [] => r
        | _ :: _ => _execute_pending_tools r
        end in
      yield END NoData r
  end.

(** *** The delta accumulator *)

(** The name token of a fragment, when it carries one. *)
Definition name_token (d : ToolCallDelta) : option string :=
  match delta_function d with
  | Some func =>
      match fn_name func with
      | Some n => if truthy n then Some n else None
      | None => None
      end
  | None => None
  end.

(** The argument-text chunk of a fragment (empty when it carries none). *)
Definition argument_chunk (d : ToolCallDelta) : string :=
  match delta_function d with
  | Some func => default "" (fn_arguments func)
  | None => ""
  end.

Definition name_tokens (ds : list ToolCallDelta) : list string :=
  omap name_token ds.

(** The chunks of [ds] concatenated in arrival order. *)
Definition argument_text (ds : list ToolCallDelta) : string :=
  foldr (fun d acc => argument_chunk d +:+ acc) "" ds.

(** What one fragment does to the entry of its own identifier. *)
Definition apply_fragment (d : ToolCallDelta) (e : PendingCall) : PendingCall :=
  {| pc_id := pc_id e;
     pc_name := default (pc_name e) (name_token d);
     pc_arguments := pc_arguments e +:+ argument_chunk d |}.

Definition empty_entry (tool_id : string) : PendingCall :=
  {| pc_id := tool_id; pc_name := ""; pc_arguments := "" |}.

(** The fragment that delivers a whole argument string at once. *)
Definition whole_fragment (tool_id args : string) : ToolCallDelta :=
  {| delta_id := Some tool_id;
     delta_function := Some {| fn_name := None; fn_arguments := Some args |} |}.

Lemma track_lookup tool_id calls :
  dict_get tool_id (track tool_id calls)
  = Some (default (empty_entry tool_id) (dict_get tool_id calls)).
Proof.
  unfold track, dict_mem.
  destruct (dict_get tool_id calls) eqn:E; simpl; [done |].
  apply dict_get_set_eq.
Qed.

Lemma track_lookup_ne tool_id k calls :
  tool_id <> k -> dict_get k (track tool_id calls) = dict_get k calls.
Proof.
  intros Hne. unfold track. destruct (dict_mem tool_id calls); [done |].
  by apply dict_get_set_ne.
Qed.

Lemma update_lookup tool_id func calls e :
  dict_get tool_id calls = Some e ->
  dict_get tool_id (update tool_id func calls)
  = Some (apply_fragment
            {| delta_id := Some tool_id; delta_function := Some func |} e).
Proof.
  intros He. unfold update, apply_fragment, name_token, argument_chunk; simpl.
  destruct e as [i n a].
  destruct (fn_name func) as [nm|], (fn_arguments func) as [ar|]; simpl;
    repeat match goal with
      | |- context [truthy ?x] =>
          let E := fresh "E" in destruct (truthy x) eqn:E; simpl
      | H : truthy _ = false |- _ => apply truthy_false in H; subst
      end;
    rewrite ?dict_get_adjust_eq, ?He; simpl;
    rewrite ?append_empty_r; done.
Qed.

Lemma update_lookup_ne tool_id k func calls :
  tool_id <> k -> dict_get k (update tool_id func calls) = dict_get k calls.
Proof.
  intros Hne. unfold update.
  destruct (fn_name func) as [nm|], (fn_arguments func) as [ar|]; simpl;
    repeat match goal with
      | |- context [truthy ?x] => destruct (truthy x); simpl
      end;
    rewrite ?dict_get_adjust_ne by done; done.
Qed.

(** A fragment acts on the entry of its identifier, creating it first when
    the identifier is not pending. *)
Lemma fragment_own_entry tool_id d h :
  tool_id <> "" ->
  delta_id d = Some tool_id ->
  dict_get tool_id (current_tool_calls (_process_tool_call_delta d h))
  = Some (apply_fragment d
            (default (empty_entry tool_id)
               (dict_get tool_id (current_tool_calls h)))).
Proof.
  intros Hid Hd. unfold _process_tool_call_delta. rewrite Hd.
  apply truthy_spec in Hid. rewrite Hid. simpl.
  destruct d as [i [func|]]; simpl in *.
  - erewrite update_lookup by apply track_lookup. done.
  - rewrite track_lookup. unfold apply_fragment, name_token, argument_chunk.
    simpl. rewrite append_empty_r. by destruct (default _ _).
Qed.

(** A fragment leaves the entries of all other identifiers alone. *)
Lemma fragment_other_entry k d h :
  delta_id d <> Some k ->
  dict_get k (current_tool_calls (_process_tool_call_delta d h))
  = dict_get k (current_tool_calls h).
Proof.
  intros Hd. unfold _process_tool_call_delta.
  destruct (delta_id d) as [tool_id|]; [|done].
  destruct (truthy tool_id); simpl; [|done].
  assert (tool_id <> k) by congruence.
  destruct (delta_function d); simpl.
  - by rewrite update_lookup_ne, track_lookup_ne.
  - by rewrite track_lookup_ne.
Qed.

Lemma default_last_cons {A} (a n : A) (l : list A) :
  default a (last (n :: l)) = default n (last l).
Proof. rewrite last_cons. by destruct (last l). Qed.

Lemma apply_fragments_fold ds e :
  fold_left (fun e d => apply_fragment d e) ds e
  = {| pc_id := pc_id e;
       pc_name := default (pc_name e) (last (name_tokens ds));
       pc_arguments := pc_arguments e +:+ argument_text ds |}.
Proof.
  revert e. induction ds as [|d ds IH]; intros e; simpl.
  - rewrite append_empty_r. by destruct e.
  - rewrite IH. unfold apply_fragment at 1 2 3. simpl.
    rewrite append_assoc. f_equal.
    unfold name_tokens. simpl. destruct (name_token d) as [n|]; simpl; [|done].
    by rewrite default_last_cons.
Qed.

Lemma accumulate_own_entry tool_id ds h e :
  tool_id <> "" ->
  Forall (fun d => delta_id d = Some tool_id) ds ->
  dict_get tool_id (current_tool_calls h) = Some e ->
  dict_get tool_id (current_tool_calls (accumulate ds h))
  = Some (fold_left (fun e d => apply_fragment d e) ds e).
Proof.
  intros Hid Hds. revert h e.
  induction Hds as [|d ds Hd _ IH]; intros h e He; simpl; [done |].
  apply IH. rewrite fragment_own_entry by done. by rewrite He.
Qed.

Lemma accumulate_other_entry k ds h :
  Forall (fun d => delta_id d <> Some k) ds ->
  dict_get k (current_tool_calls (accumulate ds h))
  = dict_get k (current_tool_calls h).
Proof.
  intros Hds. revert h.
  induction Hds as [|d ds Hd _ IH]; intros h; simpl; [done |].
  unfold accumulate in IH. rewrite IH. by apply fragment_other_entry.
Qed.

Lemma accumulate_app ds1 ds2 h :
  accumulate (ds1 ++ ds2) h = accumulate ds2 (accumulate ds1 h).
Proof. apply fold_left_app. Qed.

(** The accumulator keeps the buffer a dictionary: no key twice. *)
Lemma track_NoDup tool_id calls :
  NoDup (dict_keys calls) -> NoDup (dict_keys (track tool_id calls)).
Proof.
  intros H. unfold track. destruct (dict_mem tool_id calls); [done |].
  by apply dict_set_NoDup.
Qed.

Lemma update_keys tool_id func calls :
  dict_keys (update tool_id func calls) = dict_keys calls.
Proof.
  unfold update.
  destruct (fn_name func) as [nm|], (fn_arguments func) as [ar|]; simpl;
    repeat match goal with
      | |- context [truthy ?x] => destruct (truthy x); simpl
      end;
    rewrite ?dict_keys_adjust; done.
Qed.

Lemma fragment_NoDup d h :
  NoDup (dict_keys (current_tool_calls h)) ->
  NoDup (dict_keys (current_tool_calls (_process_tool_call_delta d h))).
Proof.
  intros H. unfold _process_tool_call_delta.
  destruct (delta_id d) as [tool_id|]; [|done].
  destruct (truthy tool_id); simpl; [|done].
  destruct (delta_function d); simpl.
  - rewrite update_keys. by apply track_NoDup.
  - by apply track_NoDup.
Qed.

(** *** Execution of the pending calls *)

(** What an event says, without the time at which it was built. *)
Definition payload (ev : StreamEvent) : StreamEventType * EventData :=
  (type ev, data ev).

(** The identifiers finalized by a run: one per [TOOL_CALL_END] event. *)
Definition finalized (evs : list StreamEvent) : list string :=
  omap (fun ev =>
          match type ev, data ev with
          | TOOL_CALL_END, CallEnd id _ _ => Some id
          | _, _ => None
          end) evs.

(** The [TOOL_RESULT] payloads of a run. *)
Definition tool_results (evs : list StreamEvent) : list EventData :=
  omap (fun ev =>
          match type ev with
          | TOOL_RESULT => Some (data ev)
          | _ => None
          end) evs.


(** The run that starts on handler [h] with nothing yielded yet. *)
Definition fresh (h : StreamingToolHandler) : Run :=
  {| events := []; handler := h; clock := 0 |}.

(** The payloads that one pending call yields when it is executed alone. *)
Definition alone (h : StreamingToolHandler) (tool_id : string)
    (tool_info : PendingCall) : list (StreamEventType * EventData) :=
  map payload (events (execute_pending tool_id tool_info (fresh h))).

Lemma yield_handler ty d r : handler (yield ty d r) = handler r.
Proof. done. Qed.

Lemma yield_payloads ty d r :
  map payload (events (yield ty d r)) = map payload (events r) ++ [(ty, d)].
Proof. unfold yield; simpl. by rewrite map_app. Qed.

Lemma execute_pending_handler tool_id tool_info r :
  handler (execute_pending tool_id tool_info r) = handler r.
Proof.
  unfold execute_pending. simpl.
  destruct (tools (handler r) !! pc_name tool_info); [|done].
  destruct (json_loads _); [|done]. by destruct (call_tool _ _).
Qed.

(** A pending call yields the same payloads whatever was yielded before
    it and whenever it runs. *)
Lemma execute_pending_payloads tool_id tool_info r :
  map payload (events (execute_pending tool_id tool_info r))
  = map payload (events r) ++ alone (handler r) tool_id tool_info.
Proof.
  unfold alone, execute_pending. simpl.
  destruct (tools (handler r) !! pc_name tool_info); simpl.
  - destruct (json_loads _); simpl.
    + destruct (call_tool _ _); simpl;
        rewrite !map_app, <- app_assoc; done.
    + rewrite !map_app, <- app_assoc; done.
  - by rewrite map_app.
Qed.

Lemma execute_each_handler calls r :
  handler (execute_each calls r) = handler r.
Proof.
  revert r. induction calls as [|[k v] calls IH]; intros r; simpl; [done |].
  unfold execute_each in IH. rewrite IH.
  apply execute_pending_handler.
Qed.

(** The pending calls are executed one after the other, in the order of the
    buffer, each as if it were alone. *)
Lemma execute_each_payloads calls r :
  map payload (events (execute_each calls r))
  = map payload (events r)
    ++ flat_map (fun item => alone (handler r) (fst item) (snd item)) calls.
Proof.
  revert r. induction calls as [|[k v] calls IH]; intros r; simpl.
  - by rewrite app_nil_r.
  - unfold execute_each in IH. rewrite IH.
    rewrite execute_pending_payloads, execute_pending_handler.
    by rewrite <- app_assoc.
Qed.

(** The four ways in which a pending call ends. *)
Lemma alone_unknown h tool_id tool_info :
  tools h !! pc_name tool_info = None ->
  alone h tool_id tool_info
  = [(TOOL_CALL_END,
      CallEnd tool_id (pc_name tool_info) (pc_arguments tool_info))].
Proof. intros H. unfold alone, execute_pending. simpl. by rewrite H. Qed.


Lemma alone_raised h tool_id tool_info func a e :
  tools h !! pc_name tool_info = Some func ->
  json_loads (pc_arguments tool_info) = Returned a ->
  call_tool func a = Raised e ->
  alone h tool_id tool_info
  = [(TOOL_CALL_END,
      CallEnd tool_id (pc_name tool_info) (pc_arguments tool_info));
     (TOOL_RESULT, ResultFailed tool_id (pc_name tool_info) e)].
Proof.
  intros H1 H2 H3. unfold alone, execute_pending. simpl.
  by rewrite H1, H2, H3.
Qed.

Lemma alone_returned h tool_id tool_info func a v :
  tools h !! pc_name tool_info = Some func ->
  json_loads (pc_arguments tool_info) = Returned a ->
  call_tool func a = Returned v ->
  alone h tool_id tool_info
  = [(TOOL_CALL_END,
      CallEnd tool_id (pc_name tool_info) (pc_arguments tool_info));
     (TOOL_RESULT, ResultOk tool_id (pc_name tool_info) v)].
Proof.
  intros H1 H2 H3. unfold alone, execute_pending. simpl.
  by rewrite H1, H2, H3.
Qed.

(** A batch in which one call is singled out. *)
Lemma execute_each_middle calls1 tool_id tool_info calls2 r :
  map payload
    (events (execute_each (calls1 ++ (tool_id, tool_info) :: calls2) r))
  = map payload (events r)
    ++ flat_map (fun item => alone (handler r) (fst item) (snd item)) calls1
    ++ alone (handler r) tool_id tool_info
    ++ flat_map (fun item => alone (handler r) (fst item) (snd item)) calls2.
Proof. rewrite execute_each_payloads, flat_map_app. done. Qed.





(** *** Finalization within a turn *)

Lemma finalized_app evs1 evs2 :
  finalized (evs1 ++ evs2) = finalized evs1 ++ finalized evs2.
Proof. unfold finalized. apply omap_app. Qed.

Lemma finalized_yield ty d r :
  ty <> TOOL_CALL_END ->
  finalized (events (yield ty d r)) = finalized (events r).
Proof.
  intros Hty. unfold yield. simpl. rewrite finalized_app. simpl.
  destruct ty; try done; by rewrite app_nil_r.
Qed.

Lemma execute_pending_finalized tool_id tool_info r :
  finalized (events (execute_pending tool_id tool_info r))
  = finalized (events r) ++ [tool_id].
Proof.
  unfold execute_pending. simpl.
  destruct (tools (handler r) !! pc_name tool_info); simpl.
  - destruct (json_loads _); simpl;
      [destruct (call_tool _ _); simpl |];
      rewrite !finalized_app; simpl; by rewrite app_nil_r.
  - by rewrite finalized_app.
Qed.

Lemma execute_each_finalized calls r :
  finalized (events (execute_each calls r))
  = finalized (events r) ++ dict_keys calls.
Proof.
  revert r. induction calls as [|[k v] calls IH]; intros r.
  - cbn. by rewrite app_nil_r.
  - cbn [execute_each fold_left]. unfold execute_each in IH. rewrite IH.
    rewrite execute_pending_finalized. cbn. by rewrite <- app_assoc.
Qed.

(** [_execute_pending_tools] finalizes every pending identifier once, in
    the order of the buffer, and leaves the buffer empty. *)
Lemma _execute_pending_tools_spec r :
  finalized (events (_execute_pending_tools r))
  = finalized (events r) ++ dict_keys (current_tool_calls (handler r))
  /\ current_tool_calls (handler (_execute_pending_tools r)) = []
  /\ tools (handler (_execute_pending_tools r)) = tools (handler r).
Proof.
  unfold _execute_pending_tools. simpl.
  rewrite execute_each_finalized, execute_each_handler. done.
Qed.

Lemma tool_call_progress_spec d r :
  finalized (events (tool_call_progress d r)) = finalized (events r)
  /\ handler (tool_call_progress d r) = handler r.
Proof.
  unfold tool_call_progress.
  destruct (delta_function d) as [func|]; [|done].
  destruct (fn_name func) as [n|], (fn_arguments func) as [a|]; simpl;
    repeat match goal with
      | |- context [truthy ?x] => destruct (truthy x); simpl
      end;
    rewrite ?finalized_app; simpl; rewrite ?app_nil_r; done.
Qed.

(** Reading a chunk finalizes nothing and keeps the buffer a dictionary. *)
Lemma _process_chunk_spec chunk r :
  NoDup (dict_keys (current_tool_calls (handler r))) ->
  finalized (events (_process_chunk chunk r)) = finalized (events r)
  /\ NoDup (dict_keys (current_tool_calls (handler (_process_chunk chunk r))))
  /\ tools (handler (_process_chunk chunk r)) = tools (handler r).
Proof.
  intros Hnd. unfold _process_chunk.
  destruct (choices chunk) as [|choice _]; [done |].
  set (r1 := match content (delta choice) with
             | Some c => if truthy c then yield TEXT (Text c) r else r
             | None => r
             end).
  assert (H1 : finalized (events r1) = finalized (events r)
               /\ handler r1 = handler r).
  { unfold r1. destruct (content (delta choice)) as [c|]; [|done].
    destruct (truthy c); [|done]. by rewrite finalized_yield. }
  destruct H1 as (Hf & Hh). rewrite <- Hf, <- Hh in *. clearbody r1.
  destruct (tool_calls (delta choice)) as [tcs|]; [|done].
  clear Hf Hh. revert r1 Hnd.
  induction tcs as [|d tcs IH]; intros r1 Hnd; [done |].
  cbn [fold_left].
  pose proof (tool_call_progress_spec d
                (on_handler (_process_tool_call_delta d) r1)) as (Hf & Hh).
  destruct (IH (tool_call_progress d
                  (on_handler (_process_tool_call_delta d) r1)))
    as (IH1 & IH2 & IH3).
  { rewrite Hh. simpl. by apply fragment_NoDup. }
  rewrite IH1, IH3, Hf, Hh. split_and!; [done | done |].
  simpl. unfold _process_tool_call_delta.
  destruct (delta_id d) as [tool_id|]; [|done].
  destruct (truthy tool_id); [|done]. simpl.
  by destruct (delta_function d).
Qed.

(** The tool-call fragments of a chunk, and of a stream, in arrival order. *)
Definition chunk_fragments (chunk : Chunk) : list ToolCallDelta :=
  match choices chunk with
  | [] => []
  | choice :: _ => default [] (tool_calls (delta choice))
  end.

Definition fragments_of (chunks : list Chunk) : list ToolCallDelta :=
  flat_map chunk_fragments chunks.

(** Reading a chunk runs the accumulator over its fragments. *)
Lemma _process_chunk_handler chunk r :
  handler (_process_chunk chunk r)
  = accumulate (chunk_fragments chunk) (handler r).
Proof.
  unfold _process_chunk, chunk_fragments.
  destruct (choices chunk) as [|choice _]; [done |].
  set (r1 := match content (delta choice) with
             | Some c => if truthy c then yield TEXT (Text c) r else r
             | None => r
             end).
  assert (Hh : handler r1 = handler r).
  { unfold r1. destruct (content (delta choice)) as [c|]; [|done].
    by destruct (truthy c). }
  rewrite <- Hh. clear Hh. clearbody r1.
  destruct (tool_calls (delta choice)) as [tcs|]; [|done]. simpl.
  revert r1. induction tcs as [|d tcs IH]; intros r1; [done |].
  cbn [fold_left]. rewrite IH.
  by destruct (tool_call_progress_spec d
                 (on_handler (_process_tool_call_delta d) r1)) as (_ & ->).
Qed.

Lemma process_chunks_handler chunks r :
  handler (fold_left (fun r chunk => _process_chunk chunk r) chunks r)
  = accumulate (fragments_of chunks) (handler r).
Proof.
  revert r. induction chunks as [|chunk chunks IH]; intros r; [done |].
  cbn [fold_left fragments_of flat_map]. rewrite IH, _process_chunk_handler.
  by rewrite accumulate_app.
Qed.

Lemma process_chunks_spec chunks r :
  NoDup (dict_keys (current_tool_calls (handler r))) ->
  let r' := fold_left (fun r chunk => _process_chunk chunk r) chunks r in
  finalized (events r') = finalized (events r)
  /\ NoDup (dict_keys (current_tool_calls (handler r')))
  /\ tools (handler r') = tools (handler r).
Proof.
  cbv zeta. revert r. induction chunks as [|chunk chunks IH]; intros r Hnd.
  - done.
  - cbn [fold_left].
    destruct (_process_chunk_spec chunk r Hnd) as (Hf & Hn & Ht).
    destruct (IH _ Hn) as (IH1 & IH2 & IH3).
    by rewrite IH1, IH3, Hf, Ht.
Qed.

(** *** The events of a turn *)

(** The payloads of the events that reading a fragment yields. *)
Definition fragment_payloads (d : ToolCallDelta)
  : list (StreamEventType * EventData) :=
  match delta_function d with
  | Some func =>
      match fn_name func with
      | Some n =>
          if truthy n then [(TOOL_CALL_START, CallStart (delta_id d) n)] else []
      | None => []
      end
      ++ match fn_arguments func with
         | Some a =>
             if truthy a then [(TOOL_CALL_ARGS, CallArgs (delta_id d) a)] else []
         | None => []
         end
  | None => []
  end.

(** The text of a chunk: the content of the delta of its first choice, when
    there is one and it is not empty. *)
Definition chunk_text (chunk : Chunk) : option string :=
  match choices chunk with
  | [] => None
  | choice :: _ =>
      match content (delta choice) with
      | Some c => if truthy c then Some c else None
      | None => None
      end
  end.

(** The payloads of the events that reading a chunk yields. *)
Definition chunk_payloads (chunk : Chunk)
  : list (StreamEventType * EventData) :=
  match chunk_text chunk with
  | Some c => [(TEXT, Text c)]
  | None => []
  end
  ++ flat_map fragment_payloads (chunk_fragments chunk).

Lemma tool_call_progress_payloads d r :
  map payload (events (tool_call_progress d r))
  = map payload (events r) ++ fragment_payloads d.
Proof.
  unfold tool_call_progress, fragment_payloads.
  destruct (delta_function d) as [func|]; [|by rewrite app_nil_r].
  destruct (fn_name func) as [n|], (fn_arguments func) as [a|];
    repeat match goal with
      | |- context [truthy ?x] => destruct (truthy x)
      end;
    rewrite ?yield_payloads, <- ?app_assoc, ?app_nil_r; done.
Qed.

Lemma on_handler_events f r : events (on_handler f r) = events r.
Proof. done. Qed.

Lemma process_fragments_payloads ds r :
  map payload
    (events
       (fold_left
          (fun r d =>
             tool_call_progress d (on_handler (_process_tool_call_delta d) r))
          ds r))
  = map payload (events r) ++ flat_map fragment_payloads ds.
Proof.
  revert r. induction ds as [|d ds IH]; intros r; cbn [fold_left flat_map].
  - by rewrite app_nil_r.
  - rewrite IH, tool_call_progress_payloads, on_handler_events.
    by rewrite <- app_assoc.
Qed.

Lemma _process_chunk_payloads chunk r :
  map payload (events (_process_chunk chunk r))
  = map payload (events r) ++ chunk_payloads chunk.
Proof.
  unfold _process_chunk, chunk_payloads, chunk_text, chunk_fragments.
  destruct (choices chunk) as [|choice rest]; [by rewrite app_nil_r |].
  set (r1 := match content (delta choice) with
             | Some c => if truthy c then yield TEXT (Text c) r else r
             | None => r
             end).
  assert (H1 : map payload (events r1)
               = map payload (events r)
                 ++ match
                      match content (delta choice) with
                      | Some c => if truthy c then Some c else None
                      | None => None
                      end
                    with
                    | Some c => [(TEXT, Text c)]
                    | None => []
                    end).
  { subst r1. destruct (content (delta choice)) as [c|];
      [|by rewrite app_nil_r].
    destruct (truthy c); [apply yield_payloads | by rewrite app_nil_r]. }
  clearbody r1.
  destruct (tool_calls (delta choice)) as [tcs|]; cbn [default from_option id].
  - rewrite process_fragments_payloads, H1. by rewrite <- app_assoc.
  - rewrite H1. cbn [flat_map]. by rewrite app_nil_r.
Qed.

Lemma process_chunks_payloads chunks r :
  map payload
    (events (fold_left (fun r chunk => _process_chunk chunk r) chunks r))
  = map payload (events r) ++ flat_map chunk_payloads chunks.
Proof.
  revert r. induction chunks as [|chunk chunks IH]; intros r;
    cbn [fold_left flat_map].
  - by rewrite app_nil_r.
  - rewrite IH, _process_chunk_payloads. by rewrite <- app_assoc.
Qed.

(** The accumulator never touches the registry nor the schemas. *)
Lemma fragment_registry d h :
  tools (_process_tool_call_delta d h) = tools h
  /\ tool_schemas (_process_tool_call_delta d h) = tool_schemas h.
Proof.
  unfold _process_tool_call_delta.
  destruct (delta_id d) as [tool_id|]; [|done].
  destruct (truthy tool_id); simpl; [|done].
  by destruct (delta_function d).
Qed.

Lemma accumulate_registry ds h :
  tools (accumulate ds h) = tools h
  /\ tool_schemas (accumulate ds h) = tool_schemas h.
Proof.
  revert h. induction ds as [|d ds IH]; intros h; [done |].
  change (accumulate (d :: ds) h)
    with (accumulate ds (_process_tool_call_delta d h)).
  destruct (IH (_process_tool_call_delta d h)) as (-> & ->).
  apply fragment_registry.
Qed.

(** What a pending call yields depends on the handler through the registry
    only. *)
Lemma alone_registry h h' tool_id tool_info :
  tools h' = tools h ->
  alone h' tool_id tool_info = alone h tool_id tool_info.
Proof.
  intros H. unfold alone, execute_pending. cbn [fst snd handler fresh yield].
  rewrite H. destruct (tools h !! pc_name tool_info); [|done].
  destruct (json_loads (pc_arguments tool_info)); [|done].
  by destruct (call_tool _ _).
Qed.

(** The events of a turn, apart from their times: those of the chunks that
    were delivered; then, when the stream was read to its end, those of the
    pending calls and the end event, and otherwise the error event. *)
Lemma stream_with_tools_payloads model messages kwargs h now :
  let stream := acompletion (request_of model messages kwargs h) in
  let pending :=
    current_tool_calls (accumulate (fragments_of (delivered stream)) h) in
  map payload (events (stream_with_tools model messages kwargs h now))
  = flat_map chunk_payloads (delivered stream)
    ++ match failure stream with
       | Some e => [(ERROR, ErrorText e)]
       | None =>
           flat_map (fun item => alone h (fst item) (snd item)) pending
           ++ [(END, NoData)]
       end.
Proof.
  cbv zeta. unfold stream_with_tools.
  set (stream := acompletion (request_of model messages kwargs h)).
  pose proof (process_chunks_payloads (delivered stream)
                {| events := []; handler := h; clock := now |}) as Hp.
  pose proof (process_chunks_handler (delivered stream)
                {| events := []; handler := h; clock := now |}) as Hh.
  cbn [events handler map app] in Hp, Hh.
  set (r := fold_left _ (delivered stream) _) in *.
  destruct (failure stream) as [e|].
  - by rewrite yield_payloads, Hp.
  - rewrite yield_payloads. rewrite <- Hh. rewrite app_assoc. f_equal.
    destruct (current_tool_calls (handler r)) as [|item calls] eqn:E.
    + by rewrite Hp, app_nil_r.
    + unfold _execute_pending_tools. rewrite on_handler_events.
      rewrite execute_each_payloads, Hp, E. f_equal.
      apply flat_map_ext. intros [k v]. apply alone_registry.
      rewrite Hh. apply accumulate_registry.
Qed.

(** The handler after a turn: the registry and the schemas as they were;
    the buffer empty when the stream was read to its end, and otherwise
    what the delivered fragments accumulated. *)
Lemma stream_with_tools_handler model messages kwargs h now :
  let stream := acompletion (request_of model messages kwargs h) in
  let turn := stream_with_tools model messages kwargs h now in
  tools (handler turn) = tools h
  /\ tool_schemas (handler turn) = tool_schemas h
  /\ current_tool_calls (handler turn)
     = match failure stream with
       | Some _ =>
           current_tool_calls (accumulate (fragments_of (delivered stream)) h)
       | None => []
       end.
Proof.
  cbv zeta. unfold stream_with_tools.
  set (stream := acompletion (request_of model messages kwargs h)).
  pose proof (process_chunks_handler (delivered stream)
                {| events := []; handler := h; clock := now |}) as Hh.
  cbn [handler] in Hh.
  set (r := fold_left _ (delivered stream) _) in *.
  pose proof (accumulate_registry (fragments_of (delivered stream)) h)
    as (Ht & Hs).
  destruct (failure stream) as [e|].
  - rewrite yield_handler, Hh. by split_and!.
  - rewrite yield_handler.
    destruct (current_tool_calls (handler r)) as [|item calls] eqn:E.
    + rewrite Hh in *. by split_and!.
    + unfold _execute_pending_tools. cbn [handler on_handler with_calls].
      rewrite execute_each_handler, Hh. by split_and!.
Qed.

(** *** Fragments without an identifier *)

(** A fragment that the accumulator takes: one with an identifier that is
    not empty. *)
Definition identified (d : ToolCallDelta) : bool := truthy_attr (delta_id d).

Lemma fragment_unidentified d h :
  identified d = false -> _process_tool_call_delta d h = h.
Proof.
  unfold identified, _process_tool_call_delta.
  destruct (delta_id d) as [tool_id|]; [|done]. simpl. by intros ->.
Qed.

Lemma accumulate_identified ds h :
  accumulate ds h = accumulate (List.filter identified ds) h.
Proof.
  revert h. induction ds as [|d ds IH]; intros h; [done |].
  change (accumulate (d :: ds) h)
    with (accumulate ds (_process_tool_call_delta d h)).
  cbn [List.filter]. destruct (identified d) eqn:E.
  - change (accumulate (d :: List.filter identified ds) h)
      with (accumulate (List.filter identified ds)
              (_process_tool_call_delta d h)).
    apply IH.
  - rewrite fragment_unidentified by done. apply IH.
Qed.

(** *** The text of a turn *)

(** The contents of the [TEXT] events, in the order of the events. *)
Definition texts (payloads : list (StreamEventType * EventData))
  : list string :=
  omap (fun p =>
          match p with
          | (TEXT, Text c) => Some c
          | _ => None
          end) payloads.

Lemma texts_app p1 p2 : texts (p1 ++ p2) = texts p1 ++ texts p2.
Proof. apply omap_app. Qed.

Lemma texts_fragments ds : texts (flat_map fragment_payloads ds) = [].
Proof.
  induction ds as [|d ds IH]; [done |]. cbn [flat_map].
  rewrite texts_app, IH, app_nil_r. unfold fragment_payloads.
  destruct (delta_function d) as [func|]; [|done].
  destruct (fn_name func) as [n|], (fn_arguments func) as [a|];
    repeat match goal with
      | |- context [truthy ?x] => destruct (truthy x)
      end; done.
Qed.

Lemma texts_chunks chunks :
  texts (flat_map chunk_payloads chunks) = omap chunk_text chunks.
Proof.
  induction chunks as [|chunk chunks IH]; [done |]. cbn [flat_map].
  rewrite texts_app, IH. unfold chunk_payloads.
  rewrite texts_app, texts_fragments, app_nil_r.
  cbn [omap list_omap]. by destruct (chunk_text chunk).
Qed.

Lemma texts_alone h calls :
  texts (flat_map (fun item => alone h (fst item) (snd item)) calls) = [].
Proof.
  induction calls as [|[k v] calls IH]; [done |]. cbn [flat_map].
  rewrite texts_app, IH, app_nil_r.
  unfold alone, execute_pending. cbn [fst snd handler fresh yield].
  destruct (tools h !! pc_name v); [|reflexivity].
  destruct (json_loads (pc_arguments v)); [|reflexivity].
  destruct (call_tool _ _); reflexivity.
Qed.

End Handler.

(** *** The callers of the demos *)

Section Callers.

Variable json_loads : string -> Outcome Json.
Variable time_time : nat -> Z.
Variable acompletion : Request -> Stream.

(** [event.data] of a [TEXT] event: the handler builds these events with a
    [str], the content of a delta. *)
Definition text_data (d : EventData) : string :=
  match d with
  | Text c => c
  | _ => ""
  end.

(** The loop of [process_user_query]: the text of every [TEXT] event up to
    the [END] event, where the loop is left. *)
Fixpoint response_parts (evs : list StreamEvent) : list string :=
  match evs with
  | [] => []
  | event :: rest =>
      match type event with
      | TEXT => text_data (data event) :: response_parts rest
      | END => []
      | _ => response_parts rest
      end
  end.

(** [process_user_query] of [demo_concurrent_streaming]: the pair that it
    returns, and the turn that it ran. *)
Definition process_user_query (user_id : Z) (query : string)
    (h : StreamingToolHandler) (now : nat) : (Z * string) * Run :=
  let messages := [JObj [("role", JStr "user"); ("content", JStr query)]] in
  let turn :=
    stream_with_tools json_loads time_time acompletion
      "gpt-4o-mini" messages [] h now in
  ((user_id, String.concat "" (response_parts (events turn))), turn).

(** An event of the kinds that are yielded before a turn ends, a [TEXT]
    event with a text. *)
Definition in_progress (p : StreamEventType * EventData) : Prop :=
  match p with
  | (TEXT, Text _) => True
  | (TEXT, _) => False
  | (END, _) => False
  | (ERROR, _) => False
  | _ => True
  end.

Lemma in_progress_fragments ds :
  Forall in_progress (flat_map fragment_payloads ds).
Proof.
  induction ds as [|d ds IH]; [constructor |]. cbn [flat_map].
  apply Forall_app. split; [|done]. unfold fragment_payloads.
  destruct (delta_function d) as [func|]; [|constructor].
  apply Forall_app. split.
  - destruct (fn_name func) as [n|]; [|constructor].
    destruct (truthy n); by repeat constructor.
  - destruct (fn_arguments func) as [a|]; [|constructor].
    destruct (truthy a); by repeat constructor.
Qed.

Lemma in_progress_chunks chunks :
  Forall in_progress (flat_map chunk_payloads chunks).
Proof.
  induction chunks as [|chunk chunks IH]; [constructor |]. cbn [flat_map].
  apply Forall_app. split; [|done]. unfold chunk_payloads.
  apply Forall_app. split; [|apply in_progress_fragments].
  destruct (chunk_text chunk); by repeat constructor.
Qed.

Lemma in_progress_alone h calls :
  Forall in_progress
    (flat_map (fun item => alone json_loads time_time h (fst item) (snd item))
       calls).
Proof.
  induction calls as [|[k v] calls IH]; [constructor |]. cbn [flat_map].
  apply Forall_app. split; [|done].
  unfold alone, execute_pending. cbn [fst snd handler fresh yield].
  destruct (tools h !! pc_name v); [|by repeat constructor].
  destruct (json_loads (pc_arguments v)); [|by repeat constructor].
  destruct (call_tool _ _); by repeat constructor.
Qed.

(** The loop of [process_user_query] on events that end a turn. *)
Lemma response_parts_spec evs body last :
  map payload evs = body ++ [last] ->
  Forall in_progress body ->
  fst last = END \/ fst last = ERROR ->
  response_parts evs = texts body.
Proof.
  revert body. induction evs as [|ev evs IH]; intros body Hp Hall Hlast.
  - by destruct body.
  - destruct body as [|p body]; cbn [map app] in Hp.
    + injection Hp as Hev Hrest. apply map_eq_nil in Hrest. subst evs.
      unfold payload in Hev. cbn [response_parts].
      destruct last as [ty d]. injection Hev as -> ->. simpl in Hlast.
      by destruct Hlast as [-> | ->].
    + injection Hp as Hev Hrest.
      inversion Hall as [|? ? Hhead Htail]; subst.
      cbn [response_parts]. unfold payload in Hhead.
      rewrite (IH body Hrest Htail Hlast). cbn [texts omap list_omap].
      unfold payload. simpl in Hhead.
      destruct (type ev), (data ev); try done.
Qed.

(** The identifiers of the [TOOL_CALL_END] payloads. *)
Definition ends (payloads : list (StreamEventType * EventData))
  : list string :=
  omap (fun p =>
          match p with
          | (TOOL_CALL_END, CallEnd id _ _) => Some id
          | _ => None
          end) payloads.

Lemma finalized_ends evs : finalized evs = ends (map payload evs).
Proof.
  induction evs as [|ev evs IH]; [done |].
  unfold finalized, ends in *. cbn [map omap list_omap]. rewrite <- IH.
  unfold payload. by destruct (type ev), (data ev).
Qed.

Lemma ends_app p1 p2 : ends (p1 ++ p2) = ends p1 ++ ends p2.
Proof. apply omap_app. Qed.

Lemma ends_in_progress_fragments ds : ends (flat_map fragment_payloads ds) = [].
Proof.
  induction ds as [|d ds IH]; [done |]. cbn [flat_map].
  rewrite ends_app, IH, app_nil_r. unfold fragment_payloads.
  destruct (delta_function d) as [func|]; [|done].
  destruct (fn_name func) as [n|], (fn_arguments func) as [a|];
    repeat match goal with
      | |- context [truthy ?x] => destruct (truthy x)
      end; done.
Qed.

Lemma ends_chunks chunks : ends (flat_map chunk_payloads chunks) = [].
Proof.
  induction chunks as [|chunk chunks IH]; [done |]. cbn [flat_map].
  rewrite ends_app, IH, app_nil_r. unfold chunk_payloads.
  rewrite ends_app, ends_in_progress_fragments, app_nil_r.
  by destruct (chunk_text chunk).
Qed.

Lemma ends_alone h calls :
  ends (flat_map (fun item => alone json_loads time_time h (fst item) (snd item))
          calls)
  = dict_keys calls.
Proof.
  induction calls as [|[k v] calls IH]; [done |]. cbn [flat_map].
  rewrite ends_app, IH.
  unfold alone, execute_pending. cbn [fst snd handler fresh yield].
  destruct (tools h !! pc_name v); [|reflexivity].
  destruct (json_loads (pc_arguments v)); [|reflexivity].
  destruct (call_tool _ _); reflexivity.
Qed.

(** **** The loops of [demo_streaming_with_tools] *)

(** [StreamEventType.value]. *)
Definition type_value (t : StreamEventType) : string :=
  match t with
  | TEXT => "text"
  | TOOL_CALL_START => "tool_call_start"
  | TOOL_CALL_ARGS => "tool_call_args"
  | TOOL_CALL_END => "tool_call_end"
  | TOOL_RESULT => "tool_result"
  | ERROR => "error"
  | END => "end"
  end.

(** [full_response += event.data] for every [TEXT] event of the log. *)
Definition full_response (events_log : list StreamEvent) : string :=
  fold_left
    (fun acc event =>
       match type event with
       | TEXT => acc +:+ text_data (data event)
       | _ => acc
       end)
    events_log "".

(** [event_counts[value] = event_counts.get(value, 0) + 1]. *)
Definition count_event (event_counts : Dict Z) (event : StreamEvent)
  : Dict Z :=
  let value := type_value (type event) in
  dict_set value (default 0 (dict_get value event_counts) + 1)%Z event_counts.

(** "Show event summary": the dictionary [event_counts]. *)
Definition event_counts (events_log : list StreamEvent) : Dict Z :=
  fold_left count_event events_log [].

(** The number of events of a log whose type has the value [value]. *)
Definition occurrences (value : string) (events_log : list StreamEvent)
  : nat :=
  length
    (List.filter (fun event => String.eqb (type_value (type event)) value)
       events_log).

(** The sum of the counts of a summary. *)
Definition total (counts : Dict Z) : Z :=
  fold_right (fun item sum => (snd item + sum)%Z) 0%Z counts.

Lemma occurrences_cons value event events_log :
  occurrences value (event :: events_log)
  = if String.eqb (type_value (type event)) value
    then S (occurrences value events_log)
    else occurrences value events_log.
Proof.
  unfold occurrences. cbn [List.filter]. by destruct (String.eqb _ value).
Qed.

Lemma count_events_lookup events_log counts value :
  dict_get value (fold_left count_event events_log counts)
  = match occurrences value events_log with
    | O => dict_get value counts
    | S n =>
        Some (default 0 (dict_get value counts) + Z.of_nat (S n))%Z
    end.
Proof.
  revert counts. induction events_log as [|event events_log IH];
    intros counts; [done |].
  cbn [fold_left]. rewrite IH, occurrences_cons. unfold count_event.
  destruct (String.eqb_spec (type_value (type event)) value) as [<-|Hne].
  - rewrite dict_get_set_eq. cbn [default from_option id].
    destruct (occurrences _ events_log) as [|n]; f_equal; lia.
  - by rewrite dict_get_set_ne.
Qed.

Lemma total_set value counts :
  total (dict_set value (default 0 (dict_get value counts) + 1)%Z counts)
  = (total counts + 1)%Z.
Proof.
  induction counts as [|[k v] counts IH]; cbn [dict_set dict_get]; [done |].
  destruct (String.eqb value k) eqn:E; cbn [total fold_right snd].
  - cbn [default from_option id]. fold (total counts). lia.
  - fold (total counts).
    fold (total (dict_set value
                   (default 0 (dict_get value counts) + 1)%Z counts)).
    rewrite IH. lia.
Qed.

Lemma count_events_total events_log counts :
  total (fold_left count_event events_log counts)
  = (total counts + Z.of_nat (length events_log))%Z.
Proof.
  revert counts. induction events_log as [|event events_log IH];
    intros counts; cbn [fold_left length]; [lia |].
  rewrite IH. unfold count_event. rewrite total_set. lia.
Qed.

Lemma count_events_NoDup events_log counts :
  NoDup (dict_keys counts) ->
  NoDup (dict_keys (fold_left count_event events_log counts)).
Proof.
  revert counts. induction events_log as [|event events_log IH];
    intros counts Hnd; [done |].
  cbn [fold_left]. apply IH. unfold count_event. by apply dict_set_NoDup.
Qed.

(** The occurrences of a value in a log, from the payloads of the log. *)
Definition occurrences_in (value : string)
    (payloads : list (StreamEventType * EventData)) : nat :=
  length
    (List.filter (fun p => String.eqb (type_value (fst p)) value) payloads).

Lemma occurrences_payloads value events_log :
  occurrences value events_log
  = occurrences_in value (map payload events_log).
Proof.
  unfold occurrences, occurrences_in.
  induction events_log as [|event events_log IH]; [done |].
  cbn [List.filter map]. unfold payload at 1. cbn [fst].
  destruct (String.eqb _ value); cbn [length]; by rewrite IH.
Qed.

Lemma occurrences_in_app value p1 p2 :
  occurrences_in value (p1 ++ p2)
  = occurrences_in value p1 + occurrences_in value p2.
Proof.
  unfold occurrences_in. by rewrite List.filter_app, length_app.
Qed.

(** No event that is yielded before a turn ends is an end or an error. *)
Lemma occurrences_in_progress value body :
  value = "end" \/ value = "error" ->
  Forall in_progress body ->
  occurrences_in value body = 0.
Proof.
  intros Hv Hall. unfold occurrences_in.
  induction Hall as [|[ty d] body Hp _ IH]; [done |].
  cbn [List.filter fst].
  replace (String.eqb (type_value ty) value) with false; [exact IH |].
  symmetry. apply String.eqb_neq.
  destruct Hv as [-> | ->]; destruct ty; try done; by destruct d.
Qed.

(** The texts that [full_response] joins. *)
Lemma full_response_spec events_log body last :
  map payload events_log = body ++ [last] ->
  Forall in_progress body ->
  fst last = END \/ fst last = ERROR ->
  full_response events_log = String.concat "" (texts body).
Proof.
  intros Hp Hall Hlast. unfold full_response.
  assert (Hfold : forall evs acc,
    fold_left
      (fun acc event =>
         match type event with
         | TEXT => acc +:+ text_data (data event)
         | _ => acc
         end) evs acc
    = acc +:+ String.concat ""
                (omap (fun event =>
                         match type event with
                         | TEXT => Some (text_data (data event))
                         | _ => None
                         end) evs)).
  { induction evs as [|ev evs IH]; intros acc; cbn [fold_left omap list_omap].
    - by rewrite append_empty_r.
    - rewrite IH. destruct (type ev); try done.
      rewrite append_assoc. f_equal.
      destruct (omap _ evs) as [|x l] eqn:E; cbn [String.concat].
      + by rewrite append_empty_r.
      + done. }
  rewrite Hfold. clear Hfold.
  change ("" +:+ ?x) with x. f_equal.
  revert body Hp Hall.
  induction events_log as [|ev evs IH]; intros body Hp Hall.
  - by destruct body.
  - destruct body as [|p body]; cbn [map app] in Hp.
    + injection Hp as Hev Hrest. apply map_eq_nil in Hrest. subst evs.
      unfold payload in Hev. destruct last as [ty d].
      injection Hev as Hty Hd. cbn [omap list_omap]. rewrite Hty.
      simpl in Hlast. by destruct Hlast as [-> | ->].
    + injection Hp as Hev Hrest.
      inversion Hall as [|? ? Hhead Htail]; subst.
      unfold texts. cbn [omap list_omap]. fold (texts body).
      rewrite <- (IH body Hrest Htail).
      unfold payload in Hhead. simpl in Hhead. unfold payload.
      destruct (type ev), (data ev); try done.
Qed.

End Callers.

(** *** [reliable_api] of [demo_streaming_with_retry] *)

Section Retry.

(** [random.random()], by the number of draws made before. *)
Variable random_random : nat -> QArith_base.Q.

(** The draws made and the sleeps taken so far, in seconds. *)
Record Attempts : Type := {
  draws : nat;
  sleeps : list QArith_base.Q
}.

Definition half : QArith_base.Q := QArith_base.Qmake 1 2.

(** [random.random() < 0.5] at the n-th draw. *)
Definition unavailable (n : nat) : bool :=
  negb (QArith_base.Qle_bool half (random_random n)).

Definition unreliable_api (query : string) (a : Attempts)
  : Outcome string * Attempts :=
  let drawn := {| draws := S (draws a); sleeps := sleeps a |} in
  if unavailable (draws a)
  then (Raised "API temporarily unavailable", drawn)
  else (Returned ("Result for: " +:+ query), drawn).

Definition sleep (delay : QArith_base.Q) (a : Attempts) : Attempts :=
  {| draws := draws a; sleeps := sleeps a ++ [delay] |}.

(** [0.5 * (attempt + 1)]. *)
Definition backoff (attempt : Z) : QArith_base.Q :=
  QArith_base.Qmult half (QArith_base.inject_Z (attempt + 1)).

(** The loop [for attempt in range(max_retries)] from the attempts that are
    left; [None] when the loop ends and the function returns nothing. *)
Fixpoint attempts (query : string) (max_retries : Z) (range : list Z)
    (a : Attempts) : option string * Attempts :=
  match range with
  | [] => (None, a)
  | attempt :: range =>
      match unreliable_api query a with
      | (Returned result, a) => (Some result, a)
      | (Raised e, a) =>
          if (attempt =? max_retries - 1)%Z then
            (Some ("Failed after " +:+ pretty max_retries +:+ " attempts: "
                   +:+ e), a)
          else attempts query max_retries range (sleep (backoff attempt) a)
      end
  end.

Definition reliable_api (query : string) (max_retries : Z) (a : Attempts)
  : option string * Attempts :=
  attempts query max_retries (seqZ 0 max_retries) a.

(** The first [k] of the attempts that are left fail and the next one
    succeeds. *)
Lemma attempts_succeed query max_retries k s a :
  (0 <= s)%Z ->
  (s + Z.of_nat k < max_retries)%Z ->
  (forall i, i < k -> unavailable (draws a + i) = true) ->
  unavailable (draws a + k) = false ->
  attempts query max_retries (seqZ s (max_retries - s)) a
  = (Some ("Result for: " +:+ query),
     {| draws := draws a + k + 1;
        sleeps := sleeps a ++ (backoff <$> seqZ s (Z.of_nat k)) |}).
Proof.
  revert s a. induction k as [|k IH]; intros s a Hs Hlt Hfail Hok.
  - rewrite seqZ_cons by lia. cbn [attempts]. unfold unreliable_api.
    rewrite Nat.add_0_r in Hok. rewrite Hok.
    f_equal. f_equal; [lia |]. simpl. by rewrite app_nil_r.
  - rewrite seqZ_cons by lia. cbn [attempts]. unfold unreliable_api.
    pose proof (Hfail 0 ltac:(lia)) as H0. rewrite Nat.add_0_r in H0.
    rewrite H0.
    destruct (Z.eqb_spec s (max_retries - 1)) as [Heq|_]; [lia |].
    replace (Z.pred (max_retries - s)) with (max_retries - Z.succ s)%Z by lia.
    rewrite IH; cbn [draws sleeps sleep]; try lia.
    + f_equal. f_equal; [lia |].
      rewrite (seqZ_cons s (Z.of_nat (S k))) by lia.
      rewrite <- app_assoc. cbn [fmap list_fmap app]. repeat f_equal. lia.
    + intros i Hi. replace (S (draws a) + i) with (draws a + S i) by lia.
      apply Hfail. lia.
    + replace (S (draws a) + k) with (draws a + S k) by lia. exact Hok.
Qed.

(** All the attempts that are left fail. *)
Lemma attempts_fail query max_retries m s a :
  (0 <= s)%Z ->
  (s + Z.of_nat (S m) = max_retries)%Z ->
  (forall i, i <= m -> unavailable (draws a + i) = true) ->
  attempts query max_retries (seqZ s (max_retries - s)) a
  = (Some ("Failed after " +:+ pretty max_retries
           +:+ " attempts: API temporarily unavailable"),
     {| draws := draws a + S m;
        sleeps := sleeps a ++ (backoff <$> seqZ s (Z.of_nat m)) |}).
Proof.
  revert s a. induction m as [|m IH]; intros s a Hs Hlen Hfail.
  - rewrite seqZ_cons by lia. cbn [attempts]. unfold unreliable_api.
    pose proof (Hfail 0 ltac:(lia)) as H0. rewrite Nat.add_0_r in H0.
    rewrite H0.
    destruct (Z.eqb_spec s (max_retries - 1)) as [_|Hne]; [|lia].
    f_equal. f_equal; [lia |]. simpl. by rewrite app_nil_r.
  - rewrite seqZ_cons by lia. cbn [attempts]. unfold unreliable_api.
    pose proof (Hfail 0 ltac:(lia)) as H0. rewrite Nat.add_0_r in H0.
    rewrite H0.
    destruct (Z.eqb_spec s (max_retries - 1)) as [Heq|_]; [lia |].
    replace (Z.pred (max_retries - s)) with (max_retries - Z.succ s)%Z by lia.
    rewrite IH; cbn [draws sleeps sleep]; try lia.
    + f_equal. f_equal; [lia |].
      rewrite (seqZ_cons s (Z.of_nat (S m))) by lia.
      rewrite <- app_assoc. cbn [fmap list_fmap app]. repeat f_equal. lia.
    + intros i Hi. replace (S (draws a) + i) with (draws a + S i) by lia.
      apply Hfail. lia.
Qed.

(** The loop draws once per attempt that it makes. *)
Lemma attempts_draws query max_retries range a :
  draws a <= draws (snd (attempts query max_retries range a))
  <= draws a + length range.
Proof.
  revert a. induction range as [|attempt range IH]; intros a; cbn [attempts].
  - simpl. lia.
  - unfold unreliable_api. destruct (unavailable (draws a)).
    + destruct (attempt =? max_retries - 1)%Z; [simpl; lia |].
      pose proof (IH (sleep (backoff attempt)
                        {| draws := S (draws a); sleeps := sleeps a |})).
      simpl in *. lia.
    + simpl. lia.
Qed.

End Retry.

End Streaming.

(** ** [05_stateful_conversation.py]: [StatefulConversationHandler] *)

Module Stateful.
Import Py.

(** [MessageRole] and its [value]. *)
Inductive MessageRole : Type := USER | ASSISTANT | SYSTEM | TOOL.

Definition value (r : MessageRole) : string :=
  match r with
  | USER => "user"
  | ASSISTANT => "assistant"
  | SYSTEM => "system"
  | TOOL => "tool"
  end.

(** One dictionary of the list returned by [_execute_tools]. The keys
    ["tool"], ["args"] and ["success"] are not in every shape of it: [None]
    is an absent key. *)
Record ToolOutput : Type := {
  call_id : string;
  tool : option string;
  args : option Json;
  result : Json;
  success : option bool
}.

(** One dictionary of [session.messages]; [tool_calls] is [None] for a
    message without the key and for one that holds [None] under it. *)
Record Message : Type := {
  role : string;
  content : string;
  timestamp : string;
  tool_calls : option (list ToolOutput)
}.

(** One dictionary of [session.tool_calls_history]. *)
Record HistoryEntry : Type := {
  h_timestamp : string;
  h_tool : string;
  h_args : Json;
  h_result : Json
}.

(** [ConversationState]; a [datetime] is kept as its ISO format. *)
Record ConversationState : Type := {
  session_id : string;
  created_at : string;
  last_response_id : option string;
  context : Dict Json;
  messages : list Message;
  tool_calls_history : list HistoryEntry
}.

Record StatefulConversationHandler : Type := {
  sessions : gmap string ConversationState;
  tools : gmap string Callable;
  tool_schemas : list Json
}.

Definition __init__ : StatefulConversationHandler :=
  {| sessions := ∅; tools := ∅; tool_schemas := [] |}.

(** The objects of a response, as far as the handler probes them. *)
Record FunctionObj : Type := {
  f_name : option string;
  f_arguments : option string
}.

(** A tool call in any of the shapes that [_execute_tools] accepts. *)
Record ToolCallObj : Type := {
  tc_type : option string;
  tc_name : option string;
  tc_arguments : option string;
  tc_call_id : option string;
  tc_id : option string;
  tc_function : option FunctionObj
}.

Record ContentItem : Type := {
  ci_type : option string;
  ci_text : option string
}.

(** An element of [response.output]: its own attributes as a tool call,
    its [tool_calls] and its [content]. *)
Record OutputItem : Type := {
  oi_self : ToolCallObj;
  oi_tool_calls : option (list ToolCallObj);
  oi_content : option (list ContentItem)
}.

(** A response; [r_output] is [None] when the attribute is absent or is not
    a list. *)
Record Response : Type := {
  r_id : option string;
  r_output : option (list OutputItem)
}.

(** An element of the list sent back as the next input. *)
Record FunctionCallOutput : Type := {
  fco_call_id : string;
  fco_output : string
}.

(** [current_input]: the user message, or the tool outputs of a round. *)
Inductive Input : Type :=
| InputText (text : string)
| InputToolOutputs (outputs : list FunctionCallOutput).

(** The keyword arguments of one call of [aresponses]; [k_system] is
    [None] when the key is not set. *)
Record Kwargs : Type := {
  k_model : string;
  k_tools : option (list Json);
  k_input : Input;
  k_previous_response_id : option string;
  k_system : option string
}.

(** The dictionary returned by [process_message]. *)
Record Reply : Type := {
  response : string;
  reply_session_id : string;
  iterations : Z;
  reply_tool_calls : nat;
  response_id : option string
}.

(** The handler in its environment: the clock readings taken so far and the
    calls made to the provider so far, oldest first. *)
Record World : Type := {
  self : StatefulConversationHandler;
  clock : nat;
  requests : list Kwargs
}.

Definition on_sessions
    (f : gmap string ConversationState -> gmap string ConversationState)
    (w : World) : World :=
  {| self := {| sessions := f (sessions (self w));
                tools := tools (self w);
                tool_schemas := tool_schemas (self w) |};
     clock := clock w;
     requests := requests w |}.

Definition tick (w : World) : World :=
  {| self := self w; clock := S (clock w); requests := requests w |}.

Definition sent (kwargs : Kwargs) (w : World) : World :=
  {| self := self w; clock := clock w; requests := requests w ++ [kwargs] |}.

(** The variables of [process_message] that the loop assigns. *)
Record Loop : Type := {
  world : World;
  current_input : Input;
  current_response_id : option string;
  iteration : Z;
  full_response : string;
  tool_calls_made : list ToolOutput
}.

Section Handler.

Variable json_loads : string -> Outcome Json.
Variable json_dumps : Json -> string.
(** [datetime.now().isoformat()] at the n-th reading of the clock. *)
Variable now_isoformat : nat -> string.
(** The provider: its answer to a call, given the calls made before. *)
Variable aresponses : list Kwargs -> Kwargs -> Outcome Response.

(** "Convert to aresponses format". *)
Definition convert (func_def : Dict Json) : Json :=
  JObj [("type", JStr "function");
        ("name", default JNull (dict_get "name" func_def));
        ("description", default JNull (dict_get "description" func_def));
        ("parameters", default (JObj []) (dict_get "parameters" func_def))].

(** [v.get] on a value that is not a dictionary. *)
Definition no_get (v : Json) : string :=
  "'" +:+
  match v with
  | JNull => "NoneType"
  | JBool _ => "bool"
  | JInt _ => "int"
  | JFloat _ => "float"
  | JStr _ => "str"
  | JArr _ => "list"
  | JObj _ => "dict"
  end +:+ "' object has no attribute 'get'".

(** [schema] is a dictionary ([Dict[str, Any]]), given by its members. The
    handler after the call, and the exception that the call raised, if any:
    the tool is stored before the schema is looked at. *)
Definition register_tool (name : string) (func : Callable)
    (schema : Dict Json) (h : StatefulConversationHandler)
  : StatefulConversationHandler * option string :=
  let tools' := <[name := func]> (tools h) in
  match dict_get "function" schema with
  | Some (JObj func_def) =>
      ({| sessions := sessions h; tools := tools';
          tool_schemas := tool_schemas h ++ [convert func_def] |}, None)
  | Some v =>
      ({| sessions := sessions h; tools := tools';
          tool_schemas := tool_schemas h |}, Some (no_get v))
  | None =>
      ({| sessions := sessions h; tools := tools';
          tool_schemas := tool_schemas h |}, None)
  end.

Definition new_session (sid : string) (w : World) : ConversationState :=
  {| session_id := sid;
     created_at := now_isoformat (clock w);
     last_response_id := None;
     context := [];
     messages := [];
     tool_calls_history := [] |}.

Definition get_or_create_session (sid : string) (w : World) : World :=
  match sessions (self w) !! sid with
  | Some _ => w
  | None => tick (on_sessions (insert sid (new_session sid w)) w)
  end.

(** The session object that [session] refers to. *)
Definition session_of (sid : string) (w : World) : option ConversationState :=
  sessions (self w) !! sid.

Definition append_message (m : Message) (s : ConversationState)
  : ConversationState :=
  {| session_id := session_id s; created_at := created_at s;
     last_response_id := last_response_id s; context := context s;
     messages := messages s ++ [m];
     tool_calls_history := tool_calls_history s |}.

Definition set_last_response_id (i : option string) (s : ConversationState)
  : ConversationState :=
  {| session_id := session_id s; created_at := created_at s;
     last_response_id := i; context := context s;
     messages := messages s;
     tool_calls_history := tool_calls_history s |}.

Definition append_history (e : HistoryEntry) (s : ConversationState)
  : ConversationState :=
  {| session_id := session_id s; created_at := created_at s;
     last_response_id := last_response_id s; context := context s;
     messages := messages s;
     tool_calls_history := tool_calls_history s ++ [e] |}.

(** "Extract tool details": name, argument text and call identifier. *)
Definition extract (tc : ToolCallObj)
  : option string * string * option string :=
  if bool_decide (tc_type tc = Some "function_call") then
    (tc_name tc, default "{}" (tc_arguments tc), tc_call_id tc)
  else
    match tc_function tc with
    | Some func =>
        (f_name func, default "{}" (f_arguments func),
         or_else (tc_call_id tc) (tc_id tc))
    | None =>
        (tc_name tc, default "{}" (tc_arguments tc),
         or_else (tc_call_id tc) (tc_id tc))
    end.

(** [call_id or generated]. *)
Definition id_or (call_id : option string) (generated : string) : string :=
  match call_id with
  | Some i => if truthy i then i else generated
  | None => generated
  end.

Definition error_dict (msg : string) : Json := JObj [("error", JStr msg)].

(** [json.loads(args_json) if args_json else {}]. *)
Definition decode_arguments (args_json : string) : Outcome Json :=
  if truthy args_json then json_loads args_json else Returned (JObj []).

(** The body of the loop of [_execute_tools] for one tool call: [results]
    and the world before it, and after it. *)
Definition execute_one (sid : string) (tc : ToolCallObj)
    (acc : list ToolOutput * World) : list ToolOutput * World :=
  let '(results, w) := acc in
  let '(name, args_json, cid) := extract tc in
  let unknown :=
    (results ++
       [{| call_id := id_or cid ("error_" +:+ pretty (length results));
           tool := None; args := None;
           result := error_dict ("Unknown tool: " +:+ fmt name);
           success := None |}], w) in
  match name with
  | None => unknown
  | Some n =>
      if negb (truthy n) then unknown
      else
        match tools (self w) !! n with
        | None => unknown
        | Some func =>
            let failed e :=
              (results ++
                 [{| call_id :=
                       id_or cid ("error_" +:+ pretty (length results));
                     tool := Some n; args := None;
                     result := error_dict e;
                     success := Some false |}], w) in
            match decode_arguments args_json with
            | Raised e => failed e
            | Returned a =>
                match call_tool func a with
                | Raised e => failed e
                | Returned r =>
                    (results ++
                       [{| call_id :=
                             id_or cid
                               ("call_" +:+ n +:+ "_" +:+
                                pretty (length results));
                           tool := Some n; args := Some a; result := r;
                           success := Some true |}],
                     tick
                       (on_sessions
                          (alter
                             (append_history
                                {| h_timestamp := now_isoformat (clock w);
                                   h_tool := n; h_args := a; h_result := r |})
                             sid) w))
                end
            end
        end
  end.

Definition _execute_tools (tool_calls : list ToolCallObj) (sid : string)
    (w : World) : list ToolOutput * World :=
  fold_left (fun acc tc => execute_one sid tc acc) tool_calls ([], w).

(** The dictionary that the loop of [_execute_tools] appends for [tc] when
    [n] results precede it and the registry is [t] (see [execute_one_fst]). *)
Definition entry_at (t : gmap string Callable) (n : nat) (tc : ToolCallObj)
  : ToolOutput :=
  let '(name, args_json, cid) := extract tc in
  let unknown :=
    {| call_id := id_or cid ("error_" +:+ pretty n);
       tool := None; args := None;
       result := error_dict ("Unknown tool: " +:+ fmt name);
       success := None |} in
  match name with
  | None => unknown
  | Some nm =>
      if negb (truthy nm) then unknown
      else
        match t !! nm with
        | None => unknown
        | Some func =>
            let failed e :=
              {| call_id := id_or cid ("error_" +:+ pretty n);
                 tool := Some nm; args := None;
                 result := error_dict e; success := Some false |} in
            match decode_arguments args_json with
            | Raised e => failed e
            | Returned a =>
                match call_tool func a with
                | Raised e => failed e
                | Returned r =>
                    {| call_id :=
                         id_or cid ("call_" +:+ nm +:+ "_" +:+ pretty n);
                       tool := Some nm; args := Some a; result := r;
                       success := Some true |}
                end
            end
        end
  end.

Lemma execute_one_fst sid tc results w :
  fst (execute_one sid tc (results, w))
  = results ++ [entry_at (tools (self w)) (length results) tc].
Proof.
  unfold execute_one, entry_at.
  destruct (extract tc) as [[name args_json] cid].
  destruct name as [nm|]; [|done].
  destruct (truthy nm); simpl; [|done].
  destruct (tools (self w) !! nm); [|done].
  destruct (decode_arguments args_json); [|done].
  by destruct (call_tool _ _).
Qed.

(** [keeps sid w w']: from [w] to [w'] the registry, the schemas, the
    other sessions and the messages of session [sid] stay as they are. *)
Definition keeps (sid : string) (w w' : World) : Prop :=
  tools (self w') = tools (self w)
  /\ tool_schemas (self w') = tool_schemas (self w)
  /\ (forall k, k <> sid -> session_of k w' = session_of k w)
  /\ messages <$> session_of sid w' = messages <$> session_of sid w.

Lemma keeps_refl sid w : keeps sid w w.
Proof. by repeat split. Qed.

Lemma keeps_trans sid w1 w2 w3 :
  keeps sid w1 w2 -> keeps sid w2 w3 -> keeps sid w1 w3.
Proof.
  intros (A1 & A2 & A3 & A4) (B1 & B2 & B3 & B4). split_and!.
  - by rewrite B1.
  - by rewrite B2.
  - intros k Hk. by rewrite B3, A3.
  - by rewrite B4.
Qed.

Lemma keeps_tick sid w : keeps sid w (tick w).
Proof. by repeat split. Qed.

Lemma keeps_sent sid kwargs w : keeps sid w (sent kwargs w).
Proof. by repeat split. Qed.

(** An in-place change of session [sid] that leaves its messages alone. *)
Lemma keeps_alter sid f w :
  (forall s, messages (f s) = messages s) ->
  keeps sid w (on_sessions (alter f sid) w).
Proof.
  intros Hf. split_and!; try done.
  - intros k Hk. unfold session_of. simpl. by rewrite lookup_alter_ne.
  - unfold session_of. simpl. rewrite lookup_alter_eq.
    destruct (sessions (self w) !! sid); simpl; [by rewrite Hf | done].
Qed.

(** A tool call touches nothing of the world but the audit log of the
    session, the clock apart. *)
Lemma execute_one_frame sid tc results w :
  keeps sid w (snd (execute_one sid tc (results, w)))
  /\ requests (snd (execute_one sid tc (results, w))) = requests w.
Proof.
  unfold execute_one.
  destruct (extract tc) as [[name args_json] cid].
  destruct name as [nm|]; [|split; [apply keeps_refl | done]].
  destruct (truthy nm); simpl; [|split; [apply keeps_refl | done]].
  destruct (tools (self w) !! nm); [|split; [apply keeps_refl | done]].
  destruct (decode_arguments args_json);
    [|split; [apply keeps_refl | done]].
  destruct (call_tool _ _); [|split; [apply keeps_refl | done]].
  simpl. split; [|done].
  eapply keeps_trans; [|apply keeps_tick]. by apply keeps_alter.
Qed.

Lemma _execute_tools_app tcs1 tcs2 sid w :
  _execute_tools (tcs1 ++ tcs2) sid w
  = fold_left (fun acc tc => execute_one sid tc acc) tcs2
      (_execute_tools tcs1 sid w).
Proof. apply fold_left_app. Qed.

Lemma execute_fold_spec sid tcs results w :
  let out := fold_left (fun acc tc => execute_one sid tc acc) tcs (results, w) in
  fst out
  = results ++ imap (fun i => entry_at (tools (self w)) (length results + i)) tcs
  /\ keeps sid w (snd out)
  /\ requests (snd out) = requests w.
Proof.
  cbv zeta.
  revert results w. induction tcs as [|tc tcs IH]; intros results w.
  - cbn [fold_left fst snd imap]. rewrite app_nil_r.
    split_and!; [done | apply keeps_refl | done].
  - cbn [fold_left].
    pose proof (execute_one_fst sid tc results w) as Hfst.
    pose proof (execute_one_frame sid tc results w) as (Hk & Hr).
    destruct (execute_one sid tc (results, w)) as [results' w'].
    cbn [fst snd] in *.
    destruct (IH results' w') as (IH1 & IH2 & IH3).
    rewrite IH1, IH3, Hr. split_and!; [|by eapply keeps_trans|done].
    destruct Hk as (Ht & _). rewrite Ht.
    subst results'. rewrite <- app_assoc. cbn [imap app]. do 2 f_equal.
    + by rewrite Nat.add_0_r.
    + apply imap_ext. intros i x _. cbn. rewrite length_app. cbn.
      f_equal. lia.
Qed.

(** The results of [_execute_tools]: one per tool call, in the order of the
    calls, each determined by the registry, its position and its call. *)
Lemma _execute_tools_results tcs sid w :
  fst (_execute_tools tcs sid w) = imap (entry_at (tools (self w))) tcs.
Proof.
  unfold _execute_tools.
  pose proof (execute_fold_spec sid tcs [] w) as (H & _). by rewrite H.
Qed.

Lemma _execute_tools_frame tcs sid w :
  keeps sid w (snd (_execute_tools tcs sid w))
  /\ requests (snd (_execute_tools tcs sid w)) = requests w.
Proof.
  unfold _execute_tools.
  pose proof (execute_fold_spec sid tcs [] w) as (_ & H). exact H.
Qed.

(** What "Extract tool details" finds in a tool call. *)
Definition request_name (tc : ToolCallObj) : option string :=
  fst (fst (extract tc)).

Definition request_arguments (tc : ToolCallObj) : string :=
  snd (fst (extract tc)).

Definition request_id (tc : ToolCallObj) : option string := snd (extract tc).

(** The registered callable that a tool call resolves to: none when the
    name is missing, empty or not registered. *)
Definition resolve (t : gmap string Callable) (tc : ToolCallObj)
  : option Callable :=
  match request_name tc with
  | Some n => if truthy n then t !! n else None
  | None => None
  end.

Lemma entry_at_unknown t i tc :
  resolve t tc = None ->
  entry_at t i tc
  = {| call_id := id_or (request_id tc) ("error_" +:+ pretty i);
       tool := None; args := None;
       result := error_dict ("Unknown tool: " +:+ fmt (request_name tc));
       success := None |}.
Proof.
  unfold resolve, entry_at, request_name, request_id.
  destruct (extract tc) as [[name args_json] cid]. simpl.
  destruct name as [n|]; [|done].
  destruct (truthy n); simpl; [|done]. by intros ->.
Qed.


Lemma entry_at_raised t i tc func a e :
  resolve t tc = Some func ->
  decode_arguments (request_arguments tc) = Returned a ->
  call_tool func a = Raised e ->
  entry_at t i tc
  = {| call_id := id_or (request_id tc) ("error_" +:+ pretty i);
       tool := request_name tc; args := None;
       result := error_dict e; success := Some false |}.
Proof.
  unfold resolve, entry_at, request_name, request_id, request_arguments.
  destruct (extract tc) as [[name args_json] cid]. simpl.
  destruct name as [n|]; [|done].
  destruct (truthy n); simpl; [|done]. by intros -> -> ->.
Qed.

Lemma entry_at_returned t i tc func a v :
  resolve t tc = Some func ->
  decode_arguments (request_arguments tc) = Returned a ->
  call_tool func a = Returned v ->
  entry_at t i tc
  = {| call_id :=
         id_or (request_id tc)
           ("call_" +:+ fmt (request_name tc) +:+ "_" +:+ pretty i);
       tool := request_name tc; args := Some a;
       result := v; success := Some true |}.
Proof.
  unfold resolve, entry_at, request_name, request_id, request_arguments.
  destruct (extract tc) as [[name args_json] cid]. simpl.
  destruct name as [n|]; [|done].
  destruct (truthy n); simpl; [|done]. by intros -> -> ->.
Qed.



Lemma _execute_tools_lookup tcs sid w i :
  fst (_execute_tools tcs sid w) !! i
  = entry_at (tools (self w)) i <$> tcs !! i.
Proof. rewrite _execute_tools_results. apply list_lookup_imap. Qed.

Lemma _execute_tools_length tcs sid w :
  length (fst (_execute_tools tcs sid w)) = length tcs.
Proof. rewrite _execute_tools_results. apply length_imap. Qed.

Lemma lookup_middle {A} (l1 l2 : list A) (x : A) :
  (l1 ++ x :: l2) !! length l1 = Some x.
Proof. by rewrite list_lookup_middle. Qed.

Lemma lookup_middle_ne {A} (l1 l2 : list A) (x y : A) (j : nat) :
  j <> length l1 -> (l1 ++ x :: l2) !! j = (l1 ++ y :: l2) !! j.
Proof.
  intros Hj. destruct (decide (j < length l1)) as [Hlt|Hge].
  - by rewrite !lookup_app_l.
  - rewrite !lookup_app_r by lia.
    destruct (j - length l1) as [|k] eqn:E; [lia | done].
Qed.

(** The result of one tool call does not depend on the other calls of its
    batch: replacing a call changes no result but its own. *)
Lemma _execute_tools_independent tcs1 tc tc' tcs2 sid w j :
  j <> length tcs1 ->
  fst (_execute_tools (tcs1 ++ tc :: tcs2) sid w) !! j
  = fst (_execute_tools (tcs1 ++ tc' :: tcs2) sid w) !! j.
Proof.
  intros Hj. rewrite !_execute_tools_lookup.
  by rewrite (lookup_middle_ne tcs1 tcs2 tc tc').
Qed.

(** "Parse response": the tool calls and the text of an output list. *)
Definition is_call_type (t : string) : bool :=
  String.eqb t "tool_call" || String.eqb t "function_call".

Definition scan_content (content : list ContentItem)
    (text_content : option string) : option string :=
  fold_left
    (fun acc ci =>
       match ci_type ci, ci_text ci with
       | Some t, Some text => if String.eqb t "output_text" then Some text else acc
       | _, _ => acc
       end)
    content text_content.

Definition scan_item (acc : list ToolCallObj * option string)
    (output_item : OutputItem) : list ToolCallObj * option string :=
  let '(tool_calls, text_content) := acc in
  match tc_type (oi_self output_item) with
  | None => acc
  | Some t =>
      if is_call_type t then (tool_calls ++ [oi_self output_item], text_content)
      else if String.eqb t "message" then
        match oi_tool_calls output_item with
        | Some (tc :: tcs) => (tool_calls ++ tc :: tcs, text_content)
        | _ =>
            match oi_content output_item with
            | Some content => (tool_calls, scan_content content text_content)
            | None => acc
            end
        end
      else acc
  end.

Definition scan (output : list OutputItem)
  : list ToolCallObj * option string :=
  fold_left scan_item output ([], None).

(** "Prepare tool outputs for next iteration". *)
Definition next_input (output : ToolOutput) : FunctionCallOutput :=
  {| fco_call_id := call_id output;
     fco_output := json_dumps (result output) |}.

Section Process.

Variable sid : string.
Variable user_message : string.
Variable model : string.
Variable system_prompt : option string.
Variable max_iterations : Z.

(** "Prepare aresponses kwargs", for the iteration numbered [i]. *)
Definition kwargs_of (st : Loop) (i : Z) : Kwargs :=
  {| k_model := model;
     k_tools :=
       match tool_schemas (self (world st)) with
       | [] => None
       | schemas => Some schemas
       end;
     k_input := current_input st;
     k_previous_response_id := or_else (current_response_id st) None;
     k_system :=
       if (i =? 1)%Z
          && (length (default [] (messages <$> session_of sid (world st)))
              =? 1)%nat
          && truthy_attr system_prompt
       then system_prompt else None |}.

Definition stop (w : World) (rid : option string) (i : Z) (text : string)
    (st : Loop) : bool * Loop :=
  (false,
   {| world := w; current_input := current_input st;
      current_response_id := rid; iteration := i;
      full_response := text; tool_calls_made := tool_calls_made st |}).

(** One pass through the body of the [while] loop: whether the loop goes
    on ([continue]) or is left ([break]), and the variables after it. *)
Definition body (st : Loop) : bool * Loop :=
  let i := (iteration st + 1)%Z in
  let kwargs := kwargs_of st i in
  let w := sent kwargs (world st) in
  match aresponses (requests (world st)) kwargs with
  | Raised e =>
      stop w (current_response_id st) i ("Error processing message: " +:+ e) st
  | Returned response =>
      let rid := r_id response in
      let w := on_sessions (alter (set_last_response_id rid) sid) w in
      match r_output response with
      | Some output =>
          let '(tool_calls, text_content) := scan output in
          match tool_calls with
          | _ :: _ =>
              let '(tool_outputs, w) := _execute_tools tool_calls sid w in
              (true,
               {| world := w;
                  current_input := InputToolOutputs (map next_input tool_outputs);
                  current_response_id := rid; iteration := i;
                  full_response := full_response st;
                  tool_calls_made := tool_calls_made st ++ tool_outputs |})
          | [] =>
              match text_content with
              | Some text =>
                  if truthy text then stop w rid i text st
                  else stop w rid i (full_response st) st
              | None => stop w rid i (full_response st) st
              end
          end
      | None => stop w rid i (full_response st) st
      end
  end.

(** [while iteration < max_iterations], run for at most [fuel] passes;
    [None] when the passes run out before the loop is left. *)
Fixpoint loop (fuel : nat) (st : Loop) : option Loop :=
  if (iteration st <? max_iterations)%Z then
    match fuel with
    | O => None
    | S fuel =>
        let '(continue, st') := body st in
        if continue then loop fuel st' else Some st'
    end
  else Some st.

Definition user_entry (w : World) : Message :=
  {| role := value USER; content := user_message;
     timestamp := now_isoformat (clock w); tool_calls := None |}.

Definition assistant_entry (st : Loop) : Message :=
  {| role := value ASSISTANT; content := full_response st;
     timestamp := now_isoformat (clock (world st));
     tool_calls :=
       match tool_calls_made st with
       | [] => None
       | made => Some made
       end |}.

(** The variables on entry to the loop. *)
Definition enter (w : World) : Loop :=
  let w := get_or_create_session sid w in
  let w := tick (on_sessions (alter (append_message (user_entry w)) sid) w) in
  {| world := w;
     current_input := InputText user_message;
     current_response_id :=
       match session_of sid w with
       | Some session => last_response_id session
       | None => None
       end;
     iteration := 0;
     full_response := "";
     tool_calls_made := [] |}.

(** "Save assistant response to session" and the returned dictionary. *)
Definition leave (st : Loop) : Reply * World :=
  ({| response := full_response st;
      reply_session_id := sid;
      iterations := iteration st;
      reply_tool_calls := length (tool_calls_made st);
      response_id := current_response_id st |},
   tick (on_sessions (alter (append_message (assistant_entry st)) sid)
           (world st))).

(** [process_message]; the loop is given as many passes as
    [max_iterations] allows. *)
Definition process_message (w : World) : option (Reply * World) :=
  leave <$> loop (Z.to_nat max_iterations) (enter w).

(** *** The loop of [process_message] *)

(** The answer of the provider asks for tool calls. *)
Definition requests_tools (answer : Outcome Response) : Prop :=
  exists response output,
    answer = Returned response
    /\ r_output response = Some output
    /\ fst (scan output) <> [].

Lemma body_spec st :
  iteration (snd (body st)) = (iteration st + 1)%Z
  /\ requests (world (snd (body st)))
     = requests (world st) ++ [kwargs_of st (iteration st + 1)]
  /\ keeps sid (world st) (world (snd (body st))).
Proof.
  unfold body.
  assert (Hk : forall rid,
    keeps sid (world st)
      (on_sessions (alter (set_last_response_id rid) sid)
         (sent (kwargs_of st (iteration st + 1)) (world st)))).
  { intros rid. eapply keeps_trans; [apply keeps_sent |].
    by apply keeps_alter. }
  destruct (aresponses _ _) as [response|e]; simpl.
  - destruct (r_output response) as [output|]; simpl;
      [|split_and!; [done | done | apply Hk]].
    destruct (scan output) as [tool_calls text_content].
    destruct tool_calls as [|tc tcs].
    + destruct text_content as [text|];
        [|split_and!; [done | done | apply Hk]].
      destruct (truthy text); split_and!; done || apply Hk.
    + pose proof (_execute_tools_frame (tc :: tcs) sid
        (on_sessions (alter (set_last_response_id (r_id response)) sid)
           (sent (kwargs_of st (iteration st + 1)) (world st))))
        as (Hf & Hr).
      destruct (_execute_tools _ _ _) as [tool_outputs w']. simpl in *.
      split_and!; [done | by rewrite Hr | by eapply keeps_trans].
  - split_and!; [done | done | apply keeps_sent].
Qed.

(** A round that asks for tool calls goes on to the next one and leaves
    the response text alone. *)
Lemma body_tools st :
  requests_tools (aresponses (requests (world st))
                    (kwargs_of st (iteration st + 1))) ->
  fst (body st) = true
  /\ full_response (snd (body st)) = full_response st.
Proof.
  intros (response & output & Ha & Ho & Hs). unfold body.
  rewrite Ha, Ho. destruct (scan output) as [tool_calls text_content].
  simpl in Hs. destruct tool_calls as [|tc tcs]; [done |].
  by destruct (_execute_tools _ _ _).
Qed.

(** The loop is left within the passes that [max_iterations] allows. *)
Lemma loop_spec fuel st :
  (max_iterations - iteration st <= Z.of_nat fuel)%Z ->
  exists st',
    loop fuel st = Some st'
    /\ keeps sid (world st) (world st')
    /\ (iteration st <= iteration st')%Z
    /\ (iteration st' <= Z.max (iteration st) max_iterations)%Z
    /\ length (requests (world st'))
       = (length (requests (world st))
          + Z.to_nat (iteration st' - iteration st))%nat.
Proof.
  revert st. induction fuel as [|fuel IH]; intros st Hfuel.
  - exists st. simpl. destruct (Z.ltb_spec (iteration st) max_iterations);
      [lia |].
    split_and!; [done | apply keeps_refl | lia | lia |].
    rewrite Z.sub_diag. simpl. lia.
  - simpl. destruct (Z.ltb_spec (iteration st) max_iterations) as [Hlt|Hge].
    + pose proof (body_spec st) as (Hi & Hr & Hk).
      destruct (body st) as [continue st1]. simpl in *.
      assert (Hlen : length (requests (world st1))
                     = S (length (requests (world st)))).
      { rewrite Hr, length_app. simpl. lia. }
      destruct continue.
      * destruct (IH st1) as (st' & Hl & Hk' & Hle & Hmax & Hreq); [lia |].
        exists st'. split_and!; [done | by eapply keeps_trans | lia | lia |].
        rewrite Hreq, Hlen. lia.
      * exists st1. split_and!; [done | done | lia | lia |].
        rewrite Hlen, Hi. replace (iteration st + 1 - iteration st)%Z with 1%Z by lia.
        simpl. lia.
    + exists st. split_and!; [done | apply keeps_refl | lia | lia |].
      rewrite Z.sub_diag. simpl. lia.
Qed.

(** With a provider that asks for tool calls on every round, the loop is
    left by its guard, at the bound. *)
Lemma loop_tools fuel st :
  (forall history kwargs, requests_tools (aresponses history kwargs)) ->
  (max_iterations - iteration st <= Z.of_nat fuel)%Z ->
  exists st',
    loop fuel st = Some st'
    /\ iteration st' = Z.max (iteration st) max_iterations
    /\ full_response st' = full_response st.
Proof.
  intros Htools. revert st. induction fuel as [|fuel IH]; intros st Hfuel.
  - exists st. simpl. destruct (Z.ltb_spec (iteration st) max_iterations);
      [lia |]. split_and!; [done | lia | done].
  - simpl. destruct (Z.ltb_spec (iteration st) max_iterations) as [Hlt|Hge].
    + pose proof (body_spec st) as (Hi & _).
      pose proof (body_tools st (Htools _ _)) as (Hc & Hf).
      destruct (body st) as [continue st1]. simpl in *. subst continue.
      destruct (IH st1) as (st' & Hl & Hmax & Hfull); [lia |].
      exists st'. split_and!; [done | lia | congruence].
    + exists st. split_and!; [done | lia | done].
Qed.


(** An answer with a text and no tool call ends the loop with the text as
    the response. *)
Lemma loop_text fuel st response output text :
  (iteration st < max_iterations)%Z ->
  aresponses (requests (world st)) (kwargs_of st (iteration st + 1))
  = Returned response ->
  r_output response = Some output ->
  scan output = ([], Some text) ->
  text <> "" ->
  exists st',
    loop (S fuel) st = Some st'
    /\ full_response st' = text
    /\ iteration st' = (iteration st + 1)%Z.
Proof.
  intros Hlt Ha Ho Hs Ht%truthy_spec. simpl.
  destruct (Z.ltb_spec (iteration st) max_iterations); [|lia].
  unfold body. rewrite Ha, Ho, Hs, Ht. simpl. by eexists.
Qed.

(** *** [process_message] as a whole *)

Lemma get_or_create_session_spec w :
  let w' := get_or_create_session sid w in
  (exists s, session_of sid w' = Some s
             /\ messages s = default [] (messages <$> session_of sid w))
  /\ (forall k, k <> sid -> session_of k w' = session_of k w)
  /\ tools (self w') = tools (self w)
  /\ requests w' = requests w.
Proof.
  cbv zeta. unfold get_or_create_session, session_of.
  destruct (sessions (self w) !! sid) as [s|] eqn:E.
  - rewrite E. split_and!; [by exists s | done..].
  - simpl. split_and!; [|by intros k Hk; rewrite lookup_insert_ne|done..].
    rewrite lookup_insert_eq. by eexists.
Qed.

Lemma append_message_spec m w :
  let w' := tick (on_sessions (alter (append_message m) sid) w) in
  messages <$> session_of sid w'
  = (fun l => l ++ [m]) <$> (messages <$> session_of sid w)
  /\ (forall k, k <> sid -> session_of k w' = session_of k w)
  /\ tools (self w') = tools (self w)
  /\ requests w' = requests w.
Proof.
  cbv zeta. unfold session_of. simpl. split_and!; try done.
  - rewrite lookup_alter_eq. by destruct (sessions (self w) !! sid).
  - intros k Hk. by rewrite lookup_alter_ne.
Qed.

Lemma enter_spec w :
  messages <$> session_of sid (world (enter w))
  = Some (default [] (messages <$> session_of sid w)
          ++ [user_entry (get_or_create_session sid w)])
  /\ (forall k, k <> sid -> session_of k (world (enter w)) = session_of k w)
  /\ tools (self (world (enter w))) = tools (self w)
  /\ requests (world (enter w)) = requests w
  /\ iteration (enter w) = 0%Z
  /\ full_response (enter w) = "".
Proof.
  pose proof (get_or_create_session_spec w) as ((s & Hs & Hm) & Hk & Ht & Hr).
  pose proof (append_message_spec (user_entry (get_or_create_session sid w))
                (get_or_create_session sid w)) as (Am & Ak & At & Ar).
  cbv zeta in *.
  unfold enter. cbn [world iteration full_response].
  rewrite Am, At, Ar, Hs, Ht, Hr. cbn [fmap option_fmap option_map].
  rewrite Hm.
  split_and!; try done. intros k Hne. by rewrite Ak, Hk.
Qed.

(** [process_message] returns, and what it leaves in the session. *)
Lemma process_message_spec w :
  exists st,
    loop (Z.to_nat max_iterations) (enter w) = Some st
    /\ process_message w = Some (leave st)
    /\ messages <$> session_of sid (snd (leave st))
       = Some (default [] (messages <$> session_of sid w)
               ++ [user_entry (get_or_create_session sid w);
                   assistant_entry st])
    /\ (forall k, k <> sid -> session_of k (snd (leave st)) = session_of k w)
    /\ (0 <= iteration st <= Z.max 0 max_iterations)%Z
    /\ length (requests (snd (leave st)))
       = (length (requests w) + Z.to_nat (iteration st))%nat.
Proof.
  pose proof (enter_spec w) as (Em & Ek & Et & Er & Ei & Ef).
  destruct (loop_spec (Z.to_nat max_iterations) (enter w))
    as (st & Hl & (Kt & Ks & Kk & Km) & Hle & Hmax & Hreq); [rewrite Ei; lia |].
  exists st. unfold process_message. rewrite Hl.
  pose proof (append_message_spec (assistant_entry st) (world st))
    as (Am & Ak & At & Ar).
  cbv zeta in *. unfold leave. cbn [fst snd fmap option_fmap option_map].
  split_and!; [done | done | | | lia | lia |].
  - rewrite Am, Km, Em. simpl. by rewrite <- app_assoc.
  - intros k Hne. by rewrite Ak, Kk, Ek.
  - rewrite Ar, Hreq, Er, Ei. f_equal. f_equal. lia.
Qed.

(** *** The session across the rounds of a turn *)

(** What a successful tool call leaves in the audit log of the session, and
    what an entry of the log says apart from its time. *)
Definition audited (out : ToolOutput) : option (string * Json * Json) :=
  match success out, tool out, args out with
  | Some true, Some n, Some a => Some (n, a, result out)
  | _, _, _ => None
  end.

Definition logged (e : HistoryEntry) : string * Json * Json :=
  (h_tool e, h_args e, h_result e).

(** [same_but_log s s' l]: session [s'] is session [s] with the audit log
    extended by entries that say [l]. *)
Definition same_but_log (s s' : ConversationState)
    (l : list (string * Json * Json)) : Prop :=
  session_id s' = session_id s
  /\ created_at s' = created_at s
  /\ last_response_id s' = last_response_id s
  /\ context s' = context s
  /\ messages s' = messages s
  /\ exists entries,
       tool_calls_history s' = tool_calls_history s ++ entries
       /\ logged <$> entries = l.

Lemma same_but_log_refl s : same_but_log s s [].
Proof. split_and!; try done. exists []. by rewrite app_nil_r. Qed.

Lemma same_but_log_trans s1 s2 s3 l1 l2 :
  same_but_log s1 s2 l1 -> same_but_log s2 s3 l2 ->
  same_but_log s1 s3 (l1 ++ l2).
Proof.
  intros (A1 & A2 & A3 & A4 & A5 & e1 & A6 & A7)
         (B1 & B2 & B3 & B4 & B5 & e2 & B6 & B7).
  split_and!; try congruence.
  exists (e1 ++ e2). split.
  - by rewrite B6, A6, app_assoc.
  - by rewrite fmap_app, A7, B7.
Qed.

Lemma execute_one_session tc results w s :
  session_of sid w = Some s ->
  exists s',
    session_of sid (snd (execute_one sid tc (results, w))) = Some s'
    /\ same_but_log s s'
         (omap audited [entry_at (tools (self w)) (length results) tc]).
Proof.
  intros Hs. unfold execute_one, entry_at.
  destruct (extract tc) as [[name args_json] cid].
  destruct name as [nm|]; [|exists s; split; [done | apply same_but_log_refl]].
  destruct (truthy nm); simpl;
    [|exists s; split; [done | apply same_but_log_refl]].
  destruct (tools (self w) !! nm);
    [|exists s; split; [done | apply same_but_log_refl]].
  destruct (decode_arguments args_json) as [a|e];
    [|exists s; split; [done | apply same_but_log_refl]].
  destruct (call_tool _ _) as [r|e];
    [|exists s; split; [done | apply same_but_log_refl]].
  simpl. unfold session_of in *. simpl. rewrite lookup_alter_eq, Hs. simpl.
  eexists. split; [done |].
  split_and!; try done. by eexists.
Qed.

(** A batch of tool calls adds to the audit log of the session one entry
    per successful call, in the order of the calls, and changes nothing
    else of the session. *)
Lemma execute_fold_session tcs results w s :
  session_of sid w = Some s ->
  let out := fold_left (fun acc tc => execute_one sid tc acc) tcs (results, w) in
  exists s',
    session_of sid (snd out) = Some s'
    /\ same_but_log s s'
         (omap audited
            (imap (fun i => entry_at (tools (self w)) (length results + i))
               tcs)).
Proof.
  cbv zeta. revert results w s.
  induction tcs as [|tc tcs IH]; intros results w s Hs.
  - exists s. split; [done | apply same_but_log_refl].
  - cbn [fold_left].
    destruct (execute_one_session tc results w s Hs) as (s1 & Hs1 & Hl1).
    pose proof (execute_one_fst sid tc results w) as Hfst.
    pose proof (execute_one_frame sid tc results w) as ((Ht & _) & _).
    destruct (execute_one sid tc (results, w)) as [results' w'].
    cbn [fst snd] in *.
    destruct (IH results' w' s1 Hs1) as (s' & Hs' & Hl').
    exists s'. split; [done |].
    cbn [imap]. rewrite Nat.add_0_r.
    match goal with
    | |- same_but_log _ _ (omap audited (?x :: ?l)) =>
        change (x :: l) with ([x] ++ l); rewrite (omap_app audited [x] l)
    end.
    eapply same_but_log_trans; [exact Hl1 |].
    rewrite Ht in Hl'. subst results'.
    erewrite imap_ext; [exact Hl' |].
    intros i x _. cbn. rewrite length_app. cbn. f_equal. lia.
Qed.

Lemma _execute_tools_session tcs w s :
  session_of sid w = Some s ->
  exists s',
    session_of sid (snd (_execute_tools tcs sid w)) = Some s'
    /\ same_but_log s s' (omap audited (fst (_execute_tools tcs sid w))).
Proof.
  intros Hs. rewrite _execute_tools_results.
  exact (execute_fold_session tcs [] w s Hs).
Qed.

(** *** The rounds of a turn, one by one *)

(** The world when the answer of a round has been received. *)
Definition received (st : Loop) (answer : Response) : World :=
  on_sessions (alter (set_last_response_id (r_id answer)) sid)
    (sent (kwargs_of st (iteration st + 1)) (world st)).

(** A round whose answer asks for tool calls: they are executed, and their
    outputs are the input of the next round. *)
Lemma body_continues st answer output tc tcs text :
  aresponses (requests (world st)) (kwargs_of st (iteration st + 1))
  = Returned answer ->
  r_output answer = Some output ->
  scan output = (tc :: tcs, text) ->
  let executed := _execute_tools (tc :: tcs) sid (received st answer) in
  body st
  = (true,
     {| world := snd executed;
        current_input := InputToolOutputs (map next_input (fst executed));
        current_response_id := r_id answer;
        iteration := iteration st + 1;
        full_response := full_response st;
        tool_calls_made := tool_calls_made st ++ fst executed |}).
Proof.
  intros Ha Ho Hs. cbv zeta. unfold body, received. rewrite Ha, Ho, Hs.
  by destruct (_execute_tools _ _ _).
Qed.

(** A round whose answer asks for no tool call is the last one; its text,
    when it has one that is not empty, is the response. *)
Lemma body_stops st answer :
  aresponses (requests (world st)) (kwargs_of st (iteration st + 1))
  = Returned answer ->
  match r_output answer with
  | Some output => fst (scan output) = []
  | None => True
  end ->
  body st
  = stop (received st answer) (r_id answer) (iteration st + 1)
      (match r_output answer with
       | Some output =>
           match snd (scan output) with
           | Some text => if truthy text then text else full_response st
           | None => full_response st
           end
       | None => full_response st
       end) st.
Proof.
  intros Ha Hno. unfold body, received. rewrite Ha.
  destruct (r_output answer) as [output|]; [|done].
  destruct (scan output) as [tool_calls text_content]. simpl in *. subst.
  destruct text_content as [text|]; [|done]. by destruct (truthy text).
Qed.

Lemma loop_unfold fuel st :
  (iteration st < max_iterations)%Z ->
  loop (S fuel) st
  = if fst (body st) then loop fuel (snd (body st)) else Some (snd (body st)).
Proof.
  intros Hlt. simpl.
  destruct (Z.ltb_spec (iteration st) max_iterations); [|lia].
  by destruct (body st).
Qed.

(** The session of the turn is there on every round, and
    [current_response_id] is its [last_response_id]. *)
Definition in_step (st : Loop) : Prop :=
  exists s,
    session_of sid (world st) = Some s
    /\ last_response_id s = current_response_id st.

Lemma body_in_step st : in_step st -> in_step (snd (body st)).
Proof.
  intros (s & Hs & Hl). unfold body.
  assert (Hrec : forall rid,
    session_of sid
      (on_sessions (alter (set_last_response_id rid) sid)
         (sent (kwargs_of st (iteration st + 1)) (world st)))
    = Some (set_last_response_id rid s)).
  { intros rid. unfold session_of in *. simpl.
    by rewrite lookup_alter_eq, Hs. }
  destruct (aresponses _ _) as [answer|e]; simpl.
  - destruct (r_output answer) as [output|]; simpl;
      [|by eexists; split; [apply Hrec |]].
    destruct (scan output) as [tool_calls text_content].
    destruct tool_calls as [|tc tcs].
    + destruct text_content as [text|];
        [|by eexists; split; [apply Hrec |]].
      destruct (truthy text); by eexists; split; [apply Hrec |].
    + destruct (_execute_tools_session (tc :: tcs) _ _ (Hrec (r_id answer)))
        as (s' & Hs' & (_ & _ & Hl' & _)).
      destruct (_execute_tools _ _ _) as [tool_outputs w']. simpl in *.
      exists s'. by split.
  - by exists s.
Qed.

Lemma loop_in_step fuel st st' :
  in_step st -> loop fuel st = Some st' -> in_step st'.
Proof.
  revert st. induction fuel as [|fuel IH]; intros st Hin; simpl.
  - destruct (iteration st <? max_iterations)%Z; [done |].
    by intros [= <-].
  - destruct (iteration st <? max_iterations)%Z; [|by intros [= <-]].
    pose proof (body_in_step st Hin) as Hin'.
    destruct (body st) as [continue st1]. simpl in *.
    destruct continue; [by apply IH | by intros [= <-]].
Qed.

(** The session as [process_message] finds it: [None] for a session that
    is created by the call. *)
Lemma enter_session w :
  exists s,
    session_of sid (world (enter w)) = Some s
    /\ last_response_id s = current_response_id (enter w)
    /\ last_response_id s = session_of sid w ≫= last_response_id
    /\ tool_calls_history s
       = default [] (tool_calls_history <$> session_of sid w).
Proof.
  unfold enter, get_or_create_session, session_of.
  destruct (sessions (self w) !! sid) as [s|] eqn:E; simpl.
  - rewrite lookup_alter_eq, E. simpl. eexists. split_and!; done.
  - rewrite lookup_alter_eq, lookup_insert_eq. simpl.
    eexists. split_and!; done.
Qed.

Lemma enter_in_step w : in_step (enter w).
Proof. destruct (enter_session w) as (s & Hs & Hl & _). by exists s. Qed.

(** *** The requests of a turn *)

(** A request that follows a round of tool calls: it carries the outputs of
    the tools, and no system prompt. *)
Definition follow_up (kwargs : Kwargs) : Prop :=
  k_model kwargs = model
  /\ k_system kwargs = None
  /\ exists outputs, k_input kwargs = InputToolOutputs outputs.

Lemma loop_follow_ups fuel st st' :
  (1 <= iteration st)%Z ->
  (exists outputs, current_input st = InputToolOutputs outputs) ->
  loop fuel st = Some st' ->
  exists added,
    requests (world st') = requests (world st) ++ added
    /\ Forall follow_up added.
Proof.
  revert st. induction fuel as [|fuel IH]; intros st Hi Hin; simpl.
  - destruct (iteration st <? max_iterations)%Z; [done |].
    intros [= <-]. exists []. by rewrite app_nil_r.
  - destruct (iteration st <? max_iterations)%Z;
      [|intros [= <-]; exists []; by rewrite app_nil_r].
    pose proof (body_spec st) as (Hi' & Hr & _).
    assert (Hf : follow_up (kwargs_of st (iteration st + 1))).
    { split_and!; [done | | exact Hin]. simpl.
      destruct (Z.eqb_spec (iteration st + 1) 1); [lia | done]. }
    assert (Hnext : fst (body st) = true ->
              exists outputs,
                current_input (snd (body st)) = InputToolOutputs outputs).
    { unfold body. destruct (aresponses _ _) as [answer|e]; [|done].
      destruct (r_output answer) as [output|]; [|done].
      destruct (scan output) as [tool_calls text_content].
      destruct tool_calls as [|tc tcs].
      - destruct text_content as [text|]; [|done]. by destruct (truthy text).
      - destruct (_execute_tools _ _ _). simpl. by eexists. }
    destruct (body st) as [continue st1]. simpl in *.
    destruct continue.
    + intros Hl. destruct (IH st1) as (added & Ha & Hall);
        [lia | by apply Hnext | done |].
      exists (kwargs_of st (iteration st + 1) :: added). split.
      * by rewrite Ha, Hr, <- app_assoc.
      * by constructor.
    + intros [= <-]. exists [kwargs_of st (iteration st + 1)].
      split; [done | by constructor].
Qed.

(** The requests of a call of [process_message] that allows one round at
    least: the first one, made from the user message, and then follow-ups. *)
Lemma process_message_requests w :
  (0 < max_iterations)%Z ->
  exists st rest,
    loop (Z.to_nat max_iterations) (enter w) = Some st
    /\ requests (snd (leave st))
       = requests w ++ kwargs_of (enter w) 1 :: rest
    /\ Forall follow_up rest.
Proof.
  intros Hmax.
  destruct (process_message_spec w) as (st & Hl & _).
  pose proof (enter_spec w) as (_ & _ & _ & Er & Ei & _).
  exists st.
  destruct (Z.to_nat max_iterations) as [|fuel] eqn:Efuel; [lia |].
  pose proof Hl as Hloop.
  rewrite loop_unfold in Hl by (rewrite Ei; lia).
  pose proof (body_spec (enter w)) as (Hi & Hr & _).
  rewrite Ei, Er in Hr. simpl in Hr. rewrite Ei in Hi.
  assert (Hnext : fst (body (enter w)) = true ->
            exists outputs,
              current_input (snd (body (enter w))) = InputToolOutputs outputs).
  { unfold body. destruct (aresponses _ _) as [answer|e]; [|done].
    destruct (r_output answer) as [output|]; [|done].
    destruct (scan output) as [tool_calls text_content].
    destruct tool_calls as [|tc tcs].
    - destruct text_content as [text|]; [|done]. by destruct (truthy text).
    - destruct (_execute_tools _ _ _). simpl. by eexists. }
  destruct (fst (body (enter w))) eqn:Ec.
  - destruct (loop_follow_ups fuel (snd (body (enter w))) st)
      as (added & Ha & Hall); [lia | by apply Hnext | done |].
    exists added. split_and!; [done | | done].
    unfold leave. simpl. by rewrite Ha, Hr, <- app_assoc.
  - injection Hl as <-. exists []. split_and!; [done | | done].
    unfold leave. simpl. by rewrite Hr.
Qed.

(** The first request of a turn: the user message, the response identifier
    that the session holds, and the system prompt when the session has no
    message yet. *)
Lemma first_request_spec w :
  let first := kwargs_of (enter w) 1 in
  k_model first = model
  /\ k_input first = InputText user_message
  /\ k_previous_response_id first
     = or_else (session_of sid w ≫= last_response_id) None
  /\ k_system first
     = match default [] (messages <$> session_of sid w) with
       | [] => if truthy_attr system_prompt then system_prompt else None
       | _ :: _ => None
       end.
Proof.
  cbv zeta. destruct (enter_session w) as (s & Hs & Hc & Hl & _).
  pose proof (enter_spec w) as (Em & _).
  split_and!; [done | done | |].
  - cbn [kwargs_of k_previous_response_id]. by rewrite <- Hc, Hl.
  - cbn [kwargs_of k_system]. rewrite Em. cbn [fmap option_fmap option_map default].
    match goal with
    | |- context [length (id ?l)] => change (length (id l)) with (length l)
    end.
    destruct (default [] (messages <$> session_of sid w)) as [|m l];
      cbn [app length]; [reflexivity |].
    rewrite length_app. cbn [length].
    replace (S (length l + 1) =? 1)%nat with false; [done |].
    symmetry. apply Nat.eqb_neq. lia.
Qed.

(** *** One round of tool calls *)

Lemma kwargs_of_tools st st' i j :
  tool_schemas (self (world st')) = tool_schemas (self (world st)) ->
  k_tools (kwargs_of st' i) = k_tools (kwargs_of st j).
Proof. intros H. unfold kwargs_of. simpl. by rewrite H. Qed.

(** The results of a batch depend on the world through the registry only. *)
Lemma _execute_tools_registry tcs w w' :
  tools (self w') = tools (self w) ->
  fst (_execute_tools tcs sid w') = fst (_execute_tools tcs sid w).
Proof. intros H. by rewrite !_execute_tools_results, H. Qed.

(** A turn of two rounds: the first answer asks for tool calls, the second
    one is a text. *)
Lemma loop_tool_round w answer1 output1 tc tcs text1 answer2 output2 text :
  (1 < max_iterations)%Z ->
  let first := kwargs_of (enter w) 1 in
  let outputs := fst (_execute_tools (tc :: tcs) sid w) in
  let second :=
    {| k_model := model;
       k_tools := k_tools first;
       k_input := InputToolOutputs (map next_input outputs);
       k_previous_response_id := or_else (r_id answer1) None;
       k_system := None |} in
  aresponses (requests w) first = Returned answer1 ->
  r_output answer1 = Some output1 ->
  scan output1 = (tc :: tcs, text1) ->
  aresponses (requests w ++ [first]) second = Returned answer2 ->
  r_output answer2 = Some output2 ->
  scan output2 = ([], Some text) ->
  text <> "" ->
  exists st,
    loop (Z.to_nat max_iterations) (enter w) = Some st
    /\ full_response st = text
    /\ iteration st = 2%Z
    /\ tool_calls_made st = outputs
    /\ current_response_id st = r_id answer2
    /\ requests (world st) = requests w ++ [first; second].
Proof.
  intros Hmax. cbv zeta. intros Ha1 Ho1 Hs1 Ha2 Ho2 Hs2 Ht.
  pose proof (enter_spec w) as (_ & _ & Et & Er & Ei & Ef).
  destruct (Z.to_nat max_iterations) as [|[|fuel]] eqn:Efuel; [lia | lia |].
  rewrite loop_unfold by (rewrite Ei; lia).
  assert (Ha1' : aresponses (requests (world (enter w)))
                   (kwargs_of (enter w) (iteration (enter w) + 1))
                 = Returned answer1).
  { rewrite Er, Ei. exact Ha1. }
  pose proof (body_continues (enter w) answer1 output1 tc tcs text1
                Ha1' Ho1 Hs1) as Hb.
  cbv zeta in Hb.
  pose proof (_execute_tools_frame (tc :: tcs) sid (received (enter w) answer1))
    as ((Kt & Ks & _) & Kr).
  assert (Hreg : fst (_execute_tools (tc :: tcs) sid (received (enter w) answer1))
                 = fst (_execute_tools (tc :: tcs) sid w)).
  { apply _execute_tools_registry. exact Et. }
  rewrite Hb. cbn [fst snd].
  set (st1 := {| world := _; current_input := _; current_response_id := _;
                 iteration := _; full_response := _; tool_calls_made := _ |}).
  assert (Hi1 : iteration st1 = 1%Z) by (subst st1; simpl; lia).
  assert (Hr1 : requests (world st1) = requests w ++ [kwargs_of (enter w) 1]).
  { subst st1. cbn [world]. rewrite Kr. unfold received.
    cbn [requests on_sessions sent]. by rewrite Er, Ei. }
  assert (Hk : kwargs_of st1 (iteration st1 + 1)
               = {| k_model := model;
                    k_tools := k_tools (kwargs_of (enter w) 1);
                    k_input :=
                      InputToolOutputs
                        (map next_input (fst (_execute_tools (tc :: tcs) sid w)));
                    k_previous_response_id := or_else (r_id answer1) None;
                    k_system := None |}).
  { rewrite Hi1. unfold kwargs_of at 1. f_equal.
    - change (k_tools (kwargs_of st1 0) = k_tools (kwargs_of (enter w) 1)).
      apply kwargs_of_tools. subst st1. cbn [world]. by rewrite Ks.
    - subst st1. cbn [current_input]. by rewrite Hreg. }
  rewrite loop_unfold by lia.
  assert (Ha2' : aresponses (requests (world st1))
                   (kwargs_of st1 (iteration st1 + 1)) = Returned answer2).
  { rewrite Hr1, Hk. exact Ha2. }
  assert (Hno : match r_output answer2 with
                | Some output => fst (scan output) = []
                | None => True
                end) by (by rewrite Ho2, Hs2).
  pose proof (body_stops st1 answer2 Ha2' Hno) as Hb2.
  rewrite Ho2, Hs2 in Hb2. cbn [snd] in Hb2.
  apply truthy_spec in Ht. rewrite Ht in Hb2.
  rewrite Hb2. cbn [fst snd stop].
  eexists. split; [reflexivity |].
  cbn [full_response iteration tool_calls_made current_response_id world].
  split_and!; [done | lia | | done |].
  - subst st1. cbn [tool_calls_made]. by rewrite Hreg.
  - unfold received. cbn [requests on_sessions sent].
    rewrite Hr1, Hk. by rewrite <- app_assoc.
Qed.

(** An answer that asks for no tool call and has no text that is not empty:
    "no further actions". *)
Lemma loop_no_content fuel st answer :
  (iteration st < max_iterations)%Z ->
  aresponses (requests (world st)) (kwargs_of st (iteration st + 1))
  = Returned answer ->
  match r_output answer with
  | Some output =>
      fst (scan output) = [] /\ truthy_attr (snd (scan output)) = false
  | None => True
  end ->
  exists st',
    loop (S fuel) st = Some st'
    /\ full_response st' = full_response st
    /\ iteration st' = (iteration st + 1)%Z
    /\ current_response_id st' = r_id answer.
Proof.
  intros Hlt Ha Hno. rewrite loop_unfold by done.
  assert (Hno' : match r_output answer with
                 | Some output => fst (scan output) = []
                 | None => True
                 end).
  { destruct (r_output answer); [by destruct Hno | done]. }
  rewrite (body_stops st answer Ha Hno'). cbn [fst snd stop].
  eexists. split; [reflexivity |]. cbn. split_and!; [|done..].
  destruct (r_output answer) as [output|]; [|done].
  destruct Hno as [_ Hn].
  destruct (snd (scan output)) as [text|]; [|done].
  simpl in Hn. by rewrite Hn.
Qed.

(** *** The audit log across the rounds of a turn *)

(** On every round the audit log of the session is the one that the turn
    found, [base], followed by what the successful tool calls made so far
    left. *)
Definition logs (base : list HistoryEntry) (st : Loop) : Prop :=
  exists s entries,
    session_of sid (world st) = Some s
    /\ tool_calls_history s = base ++ entries
    /\ logged <$> entries = omap audited (tool_calls_made st).

Lemma body_logs base st : logs base st -> logs base (snd (body st)).
Proof.
  intros (s & entries & Hs & Hh & Hl). unfold body.
  assert (Hrec : forall rid,
    session_of sid
      (on_sessions (alter (set_last_response_id rid) sid)
         (sent (kwargs_of st (iteration st + 1)) (world st)))
    = Some (set_last_response_id rid s)).
  { intros rid. unfold session_of in *. simpl.
    by rewrite lookup_alter_eq, Hs. }
  destruct (aresponses _ _) as [answer|e]; simpl.
  - destruct (r_output answer) as [output|]; simpl;
      [|by eexists _, entries; split_and!; [apply Hrec | |]].
    destruct (scan output) as [tool_calls text_content].
    destruct tool_calls as [|tc tcs].
    + destruct text_content as [text|];
        [|by eexists _, entries; split_and!; [apply Hrec | |]].
      destruct (truthy text);
        by eexists _, entries; split_and!; [apply Hrec | |].
    + destruct (_execute_tools_session (tc :: tcs) _ _ (Hrec (r_id answer)))
        as (s' & Hs' & (_ & _ & _ & _ & _ & added & Hh' & Hl')).
      destruct (_execute_tools _ _ _) as [tool_outputs w'].
      cbn [fst snd world tool_calls_made] in *.
      exists s', (entries ++ added). split_and!; [done | |].
      * rewrite Hh'. unfold set_last_response_id. cbn [tool_calls_history].
        by rewrite Hh, app_assoc.
      * cbn [tool_calls_made]. by rewrite fmap_app, omap_app, Hl, Hl'.
  - by exists s, entries.
Qed.

Lemma loop_logs base fuel st st' :
  logs base st -> loop fuel st = Some st' -> logs base st'.
Proof.
  revert st. induction fuel as [|fuel IH]; intros st Hin; simpl.
  - destruct (iteration st <? max_iterations)%Z; [done |].
    by intros [= <-].
  - destruct (iteration st <? max_iterations)%Z; [|by intros [= <-]].
    pose proof (body_logs base st Hin) as Hin'.
    destruct (body st) as [continue st1]. simpl in *.
    destruct continue; [by apply IH | by intros [= <-]].
Qed.

Lemma enter_logs w :
  logs (default [] (tool_calls_history <$> session_of sid w)) (enter w).
Proof.
  destruct (enter_session w) as (s & Hs & _ & _ & Hh).
  exists s, []. split_and!; [done | by rewrite app_nil_r | done].
Qed.

(** What a turn leaves in the session besides the two messages: the
    identifier of the last response, and one entry of the audit log per
    successful tool call. *)
Lemma process_message_session w :
  exists st s entries,
    loop (Z.to_nat max_iterations) (enter w) = Some st
    /\ session_of sid (snd (leave st)) = Some s
    /\ last_response_id s = current_response_id st
    /\ tool_calls_history s
       = default [] (tool_calls_history <$> session_of sid w) ++ entries
    /\ logged <$> entries = omap audited (tool_calls_made st).
Proof.
  destruct (process_message_spec w) as (st & Hl & _).
  pose proof (loop_in_step _ _ _ (enter_in_step w) Hl) as (s & Hs & Hid).
  pose proof (loop_logs _ _ _ _ (enter_logs w) Hl)
    as (s' & entries & Hs' & Hh & Hlog).
  rewrite Hs in Hs'. injection Hs' as <-.
  exists st, (append_message (assistant_entry st) s), entries.
  split_and!; try done.
  unfold leave, session_of in *. simpl. by rewrite lookup_alter_eq, Hs.
Qed.

(** A whole turn that allows one round at least: the reply, the two
    messages, and the requests. *)
Lemma process_message_turn w :
  (0 < max_iterations)%Z ->
  exists st first rest,
    process_message w = Some (leave st)
    /\ messages <$> session_of sid (snd (leave st))
       = Some (default [] (messages <$> session_of sid w)
               ++ [user_entry (get_or_create_session sid w);
                   assistant_entry st])
    /\ (forall k, k <> sid -> session_of k (snd (leave st)) = session_of k w)
    /\ requests (snd (leave st)) = requests w ++ first :: rest
    /\ first = kwargs_of (enter w) 1
    /\ Forall follow_up rest.
Proof.
  intros Hmax.
  destruct (process_message_spec w) as (st & Hl & Hp & Hm & Hk & _).
  destruct (process_message_requests w Hmax) as (st' & rest & Hl' & Hr & Hf).
  rewrite Hl in Hl'. injection Hl' as <-.
  by exists st, (kwargs_of (enter w) 1), rest.
Qed.

End Process.

End Handler.

(** *** [get_session_history] and [clear_session] *)

(** [session.messages if session else None]; a [ConversationState] is
    true. *)
Definition get_session_history (session_id : string)
    (h : StatefulConversationHandler) : option (list Message) :=
  match sessions h !! session_id with
  | Some session => Some (messages session)
  | None => None
  end.

Definition clear_session (session_id : string)
    (h : StatefulConversationHandler) : StatefulConversationHandler :=
  match sessions h !! session_id with
  | Some _ =>
      {| sessions := delete session_id (sessions h);
         tools := tools h;
         tool_schemas := tool_schemas h |}
  | None => h
  end.

Definition on_self
    (f : StatefulConversationHandler -> StatefulConversationHandler)
    (w : World) : World :=
  {| self := f (self w); clock := clock w; requests := requests w |}.

Lemma get_session_history_spec session_id w :
  get_session_history session_id (self w)
  = messages <$> session_of session_id w.
Proof.
  unfold get_session_history, session_of.
  by destruct (sessions (self w) !! session_id).
Qed.

Lemma clear_session_spec session_id w :
  session_of session_id (on_self (clear_session session_id) w) = None
  /\ (forall k, k <> session_id ->
        session_of k (on_self (clear_session session_id) w) = session_of k w)
  /\ tools (self (on_self (clear_session session_id) w)) = tools (self w)
  /\ tool_schemas (self (on_self (clear_session session_id) w))
     = tool_schemas (self w).
Proof.
  unfold session_of, on_self, clear_session. simpl.
  destruct (sessions (self w) !! session_id) eqn:E; simpl.
  - split_and!; [apply lookup_delete_eq | | done..].
    intros k Hk. by apply lookup_delete_ne.
  - by split_and!.
Qed.

(** *** Conversations of several turns *)

Section Turns.

Variable json_loads : string -> Outcome Json.
Variable json_dumps : Json -> string.
Variable now_isoformat : nat -> string.
Variable aresponses : list Kwargs -> Kwargs -> Outcome Response.

(** The loop over the user messages of [demo_stateful_conversation] and of
    [demo_context_preservation]: one turn per message, with the default
    model and the default bound on the rounds, and the replies in order. *)
Fixpoint turns (session_id : string) (system_prompt : option string)
    (conversations : list string) (w : World) : option (list Reply * World) :=
  match conversations with
  | [] => Some ([], w)
  | message :: rest =>
      match
        process_message json_loads json_dumps now_isoformat aresponses
          session_id message "gpt-4o-mini" system_prompt 10 w
      with
      | Some (result, w) =>
          match turns session_id system_prompt rest w with
          | Some (results, w) => Some (result :: results, w)
          | None => None
          end
      | None => None
      end
  end.

(** The role and the content of a message. *)
Definition said (m : Message) : string * string := (role m, content m).

(** The two messages of a turn, as they are said. *)
Definition exchange (message : string) (result : Reply)
  : list (string * string) :=
  [(value USER, message); (value ASSISTANT, response result)].

Lemma turns_spec session_id system_prompt conversations w :
  exists results w' added,
    turns session_id system_prompt conversations w = Some (results, w')
    /\ length results = length conversations
    /\ said <$> default [] (messages <$> session_of session_id w')
       = (said <$> default [] (messages <$> session_of session_id w))
         ++ mjoin (zip_with exchange conversations results)
    /\ (forall k, k <> session_id -> session_of k w' = session_of k w)
    /\ requests w' = requests w ++ added
    /\ Forall (fun kwargs => k_system kwargs = None) (tail added)
    /\ (default [] (messages <$> session_of session_id w) <> [] ->
        Forall (fun kwargs => k_system kwargs = None) added).
Proof.
  revert w. induction conversations as [|message rest IH]; intros w.
  - exists [], w, []. simpl.
    split_and!; try done; try (by constructor); by rewrite app_nil_r.
  - cbn [turns].
    destruct (process_message_turn json_loads json_dumps now_isoformat
                aresponses session_id message "gpt-4o-mini" system_prompt 10 w)
      as (st & first & more & Hp & Hm & Hk & Hr & Hfirst & Hmore); [lia |].
    rewrite Hp.
    destruct (leave now_isoformat session_id st) as [result w1] eqn:El.
    assert (Hres : response result = full_response st).
    { unfold leave in El. by injection El as <- _. }
    cbn [fst snd] in *.
    destruct (IH w1) as (results & w' & added & Ht & Hlen & Hsaid & Hk' & Hr'
                         & _ & Hnone).
    rewrite Ht. exists (result :: results), w', (first :: more ++ added).
    assert (Hm1 : default [] (messages <$> session_of session_id w1)
                  = default [] (messages <$> session_of session_id w)
                    ++ [user_entry now_isoformat message
                          (get_or_create_session now_isoformat session_id w);
                        assistant_entry now_isoformat st]).
    { by rewrite Hm. }
    assert (Hall : Forall (fun kwargs => k_system kwargs = None) (more ++ added)).
    { apply Forall_app. split.
      - eapply Forall_impl; [exact Hmore |]. by intros kw (_ & ? & _).
      - apply Hnone. rewrite Hm1. by destruct (default [] _). }
    split_and!; [done | simpl; lia | | | | done |].
    + cbn [zip_with mjoin list_join].
      rewrite Hsaid, Hm1, fmap_app, <- app_assoc. f_equal.
      unfold exchange at 2. cbn [fmap list_fmap]. unfold said.
      cbn [role content user_entry assistant_entry]. by rewrite Hres.
    + intros k Hne. by rewrite Hk', Hk.
    + rewrite Hr', Hr. by rewrite <- app_assoc.
    + intros Hold. constructor; [|done].
      rewrite Hfirst.
      pose proof (first_request_spec now_isoformat session_id message
                    "gpt-4o-mini" system_prompt w) as (_ & _ & _ & Hsys).
      cbv zeta in Hsys. rewrite Hsys.
      by destruct (default [] (messages <$> session_of session_id w)).
Qed.

End Turns.

End Stateful.

(** ** A reference JSON codec

    [json.loads] and [json.dumps] are variables of the handlers. This module
    gives one instance of them, to run the handlers on concrete inputs: a
    decoder for the JSON grammar as the standard decoder reads it, and an
    encoder with the standard separators. Strings are byte strings (the
    UTF-8 encoding of the text); an error text has the standard form
    [msg: line L column C (char P)]. *)

Module Codec.
Import Py.

Local Open Scope N_scope.

Definition quote : ascii := ascii_of_N 34.
Definition backslash : ascii := ascii_of_N 92.

Definition is_whitespace (c : ascii) : bool :=
  let n := N_of_ascii c in
  (n =? 32) || (n =? 9) || (n =? 10) || (n =? 13).

Definition is_digit (c : ascii) : bool :=
  let n := N_of_ascii c in (48 <=? n) && (n <=? 57).

Fixpoint skip_whitespace (s : list ascii) : list ascii :=
  match s with
  | c :: r => if is_whitespace c then skip_whitespace r else s
  | [] => []
  end.

(** The longest prefix of digits, and what follows it. *)
Fixpoint digits (s : list ascii) : list ascii * list ascii :=
  match s with
  | c :: r =>
      if is_digit c then let '(ds, rest) := digits r in (c :: ds, rest)
      else ([], s)
  | [] => ([], [])
  end.

Definition text (l : list ascii) : string := string_of_list_ascii l.

Definition decimal (ds : list ascii) : Z :=
  fold_left (fun acc c => (10 * acc + Z.of_N (N_of_ascii c - 48))%Z) ds 0%Z.

(** A number at the head of [s], read as the standard decoder's pattern
    does: integer part, then fraction and exponent when they are complete. *)
Definition scan_number (s : list ascii) : option (Json * list ascii) :=
  let '(sign, s1) :=
    match s with
    | c :: r => if Ascii.eqb c "-" then ([c], r) else ([], s)
    | [] => ([], s)
    end in
  let integer :=
    match s1 with
    | c :: r =>
        if Ascii.eqb c "0" then Some ([c], r)
        else if is_digit c then Some (digits s1)
        else None
    | [] => None
    end in
  match integer with
  | None => None
  | Some (int, s2) =>
      let '(frac, s3) :=
        match s2 with
        | c :: r =>
            if Ascii.eqb c "." then
              match digits r with
              | ([], _) => ([], s2)
              | (ds, rest) => (c :: ds, rest)
              end
            else ([], s2)
        | [] => ([], s2)
        end in
      let '(exp, s4) :=
        match s3 with
        | c :: r =>
            if Ascii.eqb c "e" || Ascii.eqb c "E" then
              let '(sg, r') :=
                match r with
                | d :: r' =>
                    if Ascii.eqb d "+" || Ascii.eqb d "-" then ([d], r')
                    else ([], r)
                | [] => ([], r)
                end in
              match digits r' with
              | ([], _) => ([], s3)
              | (ds, rest) => (c :: sg ++ ds, rest)
              end
            else ([], s3)
        | [] => ([], s3)
        end in
      match frac, exp with
      | [], [] =>
          Some (JInt (match sign with
                      | [] => decimal int
                      | _ => - decimal int
                      end), s4)
      | _, _ => Some (JFloat (text (sign ++ int ++ frac ++ exp)), s4)
      end
  end.

Definition hex_value (c : ascii) : option N :=
  let n := N_of_ascii c in
  if (48 <=? n) && (n <=? 57) then Some (n - 48)
  else if (97 <=? n) && (n <=? 102) then Some (n - 87)
  else if (65 <=? n) && (n <=? 70) then Some (n - 55)
  else None.

Definition hex4 (a b c d : ascii) : option N :=
  match hex_value a, hex_value b, hex_value c, hex_value d with
  | Some x, Some y, Some z, Some w => Some (((x * 16 + y) * 16 + z) * 16 + w)
  | _, _, _, _ => None
  end.

(** The UTF-8 encoding of a code point. *)
Definition utf8 (n : N) : string :=
  let byte k := ascii_of_N k in
  if n <? 128 then text [byte n]
  else if n <? 2048 then text [byte (192 + n / 64); byte (128 + n mod 64)]
  else if n <? 65536 then
    text [byte (224 + n / 4096); byte (128 + (n / 64) mod 64);
          byte (128 + n mod 64)]
  else
    text [byte (240 + n / 262144); byte (128 + (n / 4096) mod 64);
          byte (128 + (n / 64) mod 64); byte (128 + n mod 64)].

Definition simple_escape (c : ascii) : option ascii :=
  let n := N_of_ascii c in
  if n =? 34 then Some quote
  else if n =? 92 then Some backslash
  else if n =? 47 then Some "/"%char
  else if n =? 98 then Some (ascii_of_N 8)
  else if n =? 102 then Some (ascii_of_N 12)
  else if n =? 110 then Some (ascii_of_N 10)
  else if n =? 114 then Some (ascii_of_N 13)
  else if n =? 116 then Some (ascii_of_N 9)
  else None.

(** The outcome of a scan: a value and the text after it, or an error and
    the text at which it is reported. *)
Inductive Scan (A : Type) : Type :=
| Scanned (a : A) (rest : list ascii)
| Failed (msg : string) (at_text : list ascii).
Arguments Scanned {A} a rest.
Arguments Failed {A} msg at_text.

(** A string whose opening quote has been read; [whole] is the text from
    that quote on. *)
Fixpoint scan_string (whole : list ascii) (s : list ascii) (acc : string)
  : Scan string :=
  match s with
  | [] => Failed "Unterminated string starting at" whole
  | c :: r =>
      if Ascii.eqb c quote then Scanned acc r
      else if Ascii.eqb c backslash then
        match r with
        | [] => Failed "Unterminated string starting at" whole
        | e :: r1 =>
            match simple_escape e with
            | Some x => scan_string whole r1 (acc +:+ text [x])
            | None =>
                if Ascii.eqb e "u" then
                  match r1 with
                  | h1 :: h2 :: h3 :: h4 :: r2 =>
                      match hex4 h1 h2 h3 h4 with
                      | Some hi =>
                          let single := scan_string whole r2 (acc +:+ utf8 hi) in
                          if (55296 <=? hi) && (hi <=? 56319) then
                            match r2 with
                            | b :: u :: l1 :: l2 :: l3 :: l4 :: r3 =>
                                match hex4 l1 l2 l3 l4 with
                                | Some lo =>
                                    if Ascii.eqb b backslash && Ascii.eqb u "u"
                                       && (56320 <=? lo) && (lo <=? 57343)
                                    then
                                      scan_string whole r3
                                        (acc +:+
                                         utf8 (65536 + (hi - 55296) * 1024
                                               + (lo - 56320)))
                                    else single
                                | None => single
                                end
                            | _ => single
                            end
                          else single
                      | None => Failed "Invalid \uXXXX escape" r
                      end
                  | _ => Failed "Invalid \uXXXX escape" r
                  end
                else Failed "Invalid \escape" s
            end
        end
      else if N_of_ascii c <? 32 then Failed "Invalid control character at" s
      else scan_string whole r (acc +:+ text [c])
  end.

Definition starts_with (p : string) (s : list ascii) : option (list ascii) :=
  let l := list_ascii_of_string p in
  if bool_decide (take (length l) s = l) then Some (drop (length l) s)
  else None.

(** The scanner, run for at most [fuel] nested or chained steps.
    [scan_once] reads a value; [scan_elements] reads the elements of an
    array from the start of one of them on; [scan_members] reads the members
    of an object from the text after the opening quote of a key on. *)
Fixpoint scan_once (fuel : nat) (s : list ascii) : Scan Json :=
  match fuel with
  | O%nat => Failed "maximum recursion depth exceeded" s
  | S fuel =>
      match s with
      | [] => Failed "Expecting value" s
      | c :: r =>
          if Ascii.eqb c quote then
            match scan_string s r "" with
            | Scanned x rest => Scanned (JStr x) rest
            | Failed msg at_text => Failed msg at_text
            end
          else if Ascii.eqb c "{" then
            match skip_whitespace r with
            | d :: r' =>
                if Ascii.eqb d "}" then Scanned (JObj []) r'
                else if Ascii.eqb d quote
                then scan_members fuel (d :: r') r' []
                else
                  Failed "Expecting property name enclosed in double quotes"
                    (d :: r')
            | [] =>
                Failed "Expecting property name enclosed in double quotes" []
            end
          else if Ascii.eqb c "[" then
            match skip_whitespace r with
            | d :: r' =>
                if Ascii.eqb d "]" then Scanned (JArr []) r'
                else scan_elements fuel (d :: r') []
            | [] => Failed "Expecting value" []
            end
          else
            match starts_with "null" s, starts_with "true" s,
                  starts_with "false" s with
            | Some rest, _, _ => Scanned JNull rest
            | _, Some rest, _ => Scanned (JBool true) rest
            | _, _, Some rest => Scanned (JBool false) rest
            | None, None, None =>
                match scan_number s with
                | Some (v, rest) => Scanned v rest
                | None =>
                    match starts_with "NaN" s, starts_with "Infinity" s,
                          starts_with "-Infinity" s with
                    | Some rest, _, _ => Scanned (JFloat "NaN") rest
                    | _, Some rest, _ => Scanned (JFloat "Infinity") rest
                    | _, _, Some rest => Scanned (JFloat "-Infinity") rest
                    | None, None, None => Failed "Expecting value" s
                    end
                end
            end
      end
  end
with scan_elements (fuel : nat) (s : list ascii) (acc : list Json)
  : Scan Json :=
  match fuel with
  | O%nat => Failed "maximum recursion depth exceeded" s
  | S fuel =>
      match scan_once fuel s with
      | Failed msg at_text => Failed msg at_text
      | Scanned v rest =>
          match skip_whitespace rest with
          | c :: r =>
              if Ascii.eqb c "]" then Scanned (JArr (acc ++ [v])) r
              else if Ascii.eqb c ","
              then scan_elements fuel (skip_whitespace r) (acc ++ [v])
              else Failed "Expecting ',' delimiter" (c :: r)
          | [] => Failed "Expecting ',' delimiter" []
          end
      end
  end
with scan_members (fuel : nat) (whole s : list ascii) (acc : Dict Json)
  : Scan Json :=
  match fuel with
  | O%nat => Failed "maximum recursion depth exceeded" s
  | S fuel =>
      match scan_string whole s "" with
      | Failed msg at_text => Failed msg at_text
      | Scanned key rest =>
          match skip_whitespace rest with
          | c :: r =>
              if Ascii.eqb c ":" then
                match scan_once fuel (skip_whitespace r) with
                | Failed msg at_text => Failed msg at_text
                | Scanned v rest' =>
                    let acc := dict_set key v acc in
                    match skip_whitespace rest' with
                    | d :: r' =>
                        if Ascii.eqb d "}" then Scanned (JObj acc) r'
                        else if Ascii.eqb d "," then
                          match skip_whitespace r' with
                          | q :: r'' =>
                              if Ascii.eqb q quote
                              then scan_members fuel (q :: r'') r'' acc
                              else
                                Failed
                                  "Expecting property name enclosed in double quotes"
                                  (q :: r'')
                          | [] =>
                              Failed
                                "Expecting property name enclosed in double quotes"
                                []
                          end
                        else Failed "Expecting ',' delimiter" (d :: r')
                    | [] => Failed "Expecting ',' delimiter" []
                    end
                end
              else Failed "Expecting ':' delimiter" (c :: r)
          | [] => Failed "Expecting ':' delimiter" []
          end
      end
  end.

(** Line and column (both from 1) of the position after the text [before]. *)
Definition line_column (before : list ascii) : nat * nat :=
  fold_left
    (fun lc c =>
       if Ascii.eqb c (ascii_of_N 10) then (S (fst lc), 1%nat)
       else (fst lc, S (snd lc)))
    before (1%nat, 1%nat).

(** [msg: line L column C (char P)] for an error at position [pos]. *)
Definition located (msg : string) (doc : list ascii) (pos : nat) : string :=
  let '(line, column) := line_column (take pos doc) in
  msg +:+ ": line " +:+ pretty line +:+ " column " +:+ pretty column
  +:+ " (char " +:+ pretty pos +:+ ")".

(** [json.loads]. *)
Definition loads (doc : string) : Outcome Json :=
  let l := list_ascii_of_string doc in
  let position (at_text : list ascii) := (length l - length at_text)%nat in
  match scan_once (2 * length l + 2)%nat (skip_whitespace l) with
  | Failed msg at_text => Raised (located msg l (position at_text))
  | Scanned v rest =>
      match skip_whitespace rest with
      | [] => Returned v
      | extra => Raised (located "Extra data" l (position extra))
      end
  end.

(** [json.dumps(v, ensure_ascii=False)]. *)
Definition hex_digit (n : N) : ascii :=
  if n <? 10 then ascii_of_N (48 + n) else ascii_of_N (87 + n).

Definition escape_char (c : ascii) : string :=
  let n := N_of_ascii c in
  if n =? 34 then text [backslash; quote]
  else if n =? 92 then text [backslash; backslash]
  else if n =? 10 then text [backslash; "n"%char]
  else if n =? 13 then text [backslash; "r"%char]
  else if n =? 9 then text [backslash; "t"%char]
  else if n =? 8 then text [backslash; "b"%char]
  else if n =? 12 then text [backslash; "f"%char]
  else if n <? 32 then
    text [backslash; "u"%char; "0"%char; "0"%char;
          hex_digit (n / 16); hex_digit (n mod 16)]
  else text [c].

Fixpoint escape (s : string) : string :=
  match s with
  | EmptyString => EmptyString
  | String c r => escape_char c +:+ escape r
  end.

Definition quoted (s : string) : string :=
  text [quote] +:+ escape s +:+ text [quote].

Fixpoint join (sep : string) (l : list string) : string :=
  match l with
  | [] => EmptyString
  | [x] => x
  | x :: r => x +:+ sep +:+ join sep r
  end.

Fixpoint dumps (v : Json) : string :=
  match v with
  | JNull => "null"
  | JBool true => "true"
  | JBool false => "false"
  | JInt z => pretty z
  | JFloat lit => lit
  | JStr s => quoted s
  | JArr items => "[" +:+ join ", " (map dumps items) +:+ "]"
  | JObj members =>
      "{" +:+
      join ", " (map (fun kv => quoted (fst kv) +:+ ": " +:+ dumps (snd kv))
                   members)
      +:+ "}"
  end.

End Codec.

(** ** Properties of the handlers *)

Module Claims.
Import Py.

Section Handlers.

Variable json_loads : string -> Outcome Json.
Variable json_dumps : Json -> string.
Variable time_time : nat -> Z.
Variable now_isoformat : nat -> string.
Variable acompletion : Streaming.Request -> Streaming.Stream.
Variable aresponses :
  list Stateful.Kwargs -> Stateful.Kwargs -> Outcome Stateful.Response.

(** C1. Fragments that carry one call identifier, accumulated in arrival
    order into a buffer where the identifier is not pending yet: the first
    fragment creates the entry with empty name and empty argument text; at
    the end the name is the last non-empty name token (the empty name when
    there was none) and the argument text is the concatenation of the chunks
    in arrival order, so decoding it gives what decoding the argument text
    of a single fragment that delivers the whole string gives. *)
Theorem fragments_of_one_call_reassembled
    (tool_id : string) (d : Streaming.ToolCallDelta)
    (ds : list Streaming.ToolCallDelta) (h : Streaming.StreamingToolHandler) :
  tool_id <> "" ->
  dict_get tool_id (Streaming.current_tool_calls h) = None ->
  Forall (fun x => Streaming.delta_id x = Some tool_id) (d :: ds) ->
  let pending h' := dict_get tool_id (Streaming.current_tool_calls h') in
  let whole :=
    Streaming.whole_fragment tool_id (Streaming.argument_text (d :: ds)) in
  dict_get tool_id (Streaming.track tool_id (Streaming.current_tool_calls h))
  = Some {| Streaming.pc_id := tool_id; Streaming.pc_name := "";
            Streaming.pc_arguments := "" |}
  /\ pending (Streaming.accumulate (d :: ds) h)
     = Some {| Streaming.pc_id := tool_id;
               Streaming.pc_name :=
                 default "" (last (Streaming.name_tokens (d :: ds)));
               Streaming.pc_arguments := Streaming.argument_text (d :: ds) |}
  /\ (json_loads ∘ Streaming.pc_arguments)
       <$> pending (Streaming.accumulate (d :: ds) h)
     = (json_loads ∘ Streaming.pc_arguments)
         <$> pending (Streaming.accumulate [whole] h).
Proof.
  intros Hid Hnew Hall. cbv zeta.
  assert (Hfirst :
    dict_get tool_id (Streaming.track tool_id (Streaming.current_tool_calls h))
    = Some (Streaming.empty_entry tool_id)).
  { by rewrite Streaming.track_lookup, Hnew. }
  assert (Hacc : forall fs,
    Forall (fun x => Streaming.delta_id x = Some tool_id) fs -> fs <> [] ->
    dict_get tool_id (Streaming.current_tool_calls (Streaming.accumulate fs h))
    = Some {| Streaming.pc_id := tool_id;
              Streaming.pc_name :=
                default "" (last (Streaming.name_tokens fs));
              Streaming.pc_arguments := Streaming.argument_text fs |}).
  { intros [|f fs] Hfs Hne; [done |].
    inversion Hfs as [|? ? Hf Hfs']; subst.
    change (Streaming.accumulate (f :: fs) h)
      with (Streaming.accumulate fs (Streaming._process_tool_call_delta f h)).
    erewrite Streaming.accumulate_own_entry; [|done|exact Hfs'|].
    2:{ rewrite Streaming.fragment_own_entry by done. by rewrite Hnew. }
    f_equal.
    exact (Streaming.apply_fragments_fold (f :: fs)
             (Streaming.empty_entry tool_id)). }
  split_and!; [exact Hfirst | by apply Hacc |].
  rewrite !Hacc; [| by repeat constructor | done | done | done].
  simpl. do 2 f_equal. unfold Streaming.whole_fragment.
  unfold Streaming.argument_text at 2. simpl.
  by rewrite append_empty_r.
Qed.

(** In a streamed turn every call identifier is finalized at most once,
    and [_execute_pending_tools] finalizes exactly the pending identifiers,
    each once, and leaves the buffer empty: after a turn whose stream was
    read to its end nothing is pending. *)
Theorem finalized_once_then_buffer_cleared
    (model : string) (messages : list Json) (kwargs : Dict Json)
    (h : Streaming.StreamingToolHandler) (now : nat) (r0 : Streaming.Run) :
  NoDup (dict_keys (Streaming.current_tool_calls h)) ->
  let turn :=
    Streaming.stream_with_tools json_loads time_time acompletion
      model messages kwargs h now in
  let executed := Streaming._execute_pending_tools json_loads time_time r0 in
  NoDup (Streaming.finalized (Streaming.events turn))
  /\ (Streaming.failure
        (acompletion (Streaming.request_of model messages kwargs h)) = None ->
      Streaming.current_tool_calls (Streaming.handler turn) = [])
  /\ Streaming.finalized (Streaming.events executed)
     = Streaming.finalized (Streaming.events r0)
       ++ dict_keys (Streaming.current_tool_calls (Streaming.handler r0))
  /\ Streaming.current_tool_calls (Streaming.handler executed) = [].
Proof.
  intros Hnd. cbv zeta.
  pose proof (Streaming._execute_pending_tools_spec json_loads time_time r0)
    as (He1 & He2 & _).
  split_and!; [| | exact He1 | exact He2].
  - unfold Streaming.stream_with_tools.
    set (stream := acompletion (Streaming.request_of model messages kwargs h)).
    pose proof (Streaming.process_chunks_spec time_time
      (Streaming.delivered stream)
      {| Streaming.events := []; Streaming.handler := h;
         Streaming.clock := now |} Hnd) as (Hf & Hn & _).
    cbv zeta in Hf, Hn.
    set (r := fold_left _ (Streaming.delivered stream) _) in *.
    cbn in Hf.
    destruct (Streaming.failure stream).
    + rewrite Streaming.finalized_yield by done. rewrite Hf. constructor.
    + rewrite Streaming.finalized_yield by done.
      destruct (Streaming.current_tool_calls (Streaming.handler r)) eqn:E.
      * rewrite Hf. constructor.
      * pose proof (Streaming._execute_pending_tools_spec json_loads
                      time_time r) as (H1 & _).
        rewrite H1, Hf, E. exact Hn.
  - intros Hok. unfold Streaming.stream_with_tools. rewrite Hok.
    set (r := fold_left _ _ _).
    destruct (Streaming.current_tool_calls (Streaming.handler r)) eqn:E;
      [exact E |].
    pose proof (Streaming._execute_pending_tools_spec json_loads time_time r)
      as (_ & H2 & _).
    exact H2.
Qed.

(** C5. A registered tool whose callable raises: the exception is caught
    and becomes the failure result of that call, with the message of the
    exception in it ([execute_tool] puts "Tool execution failed: " before
    it), and the other calls of the batch get the results they get without
    it. *)
Theorem raising_tool_gives_failure_result :
  (forall (h : ToolCalling.ToolHandler) tool_name func arguments e,
      ToolCalling.tools h !! tool_name = Some func ->
      call_tool func arguments = Raised e ->
      ToolCalling.execute_tool tool_name arguments h
      = JObj [("error", JStr ("Tool execution failed: " +:+ e))])
  /\ (forall (r : Streaming.Run) calls1 tool_id tool_info calls2 func a e,
        Streaming.tools (Streaming.handler r)
          !! Streaming.pc_name tool_info = Some func ->
        json_loads (Streaming.pc_arguments tool_info) = Returned a ->
        call_tool func a = Raised e ->
        let alone item :=
          Streaming.alone json_loads time_time (Streaming.handler r)
            (fst item) (snd item) in
        map Streaming.payload
          (Streaming.events
             (Streaming.execute_each json_loads time_time
                (calls1 ++ (tool_id, tool_info) :: calls2) r))
        = map Streaming.payload (Streaming.events r)
          ++ flat_map alone calls1
          ++ [(Streaming.TOOL_CALL_END,
               Streaming.CallEnd tool_id (Streaming.pc_name tool_info)
                 (Streaming.pc_arguments tool_info));
              (Streaming.TOOL_RESULT,
               Streaming.ResultFailed tool_id (Streaming.pc_name tool_info) e)]
          ++ flat_map alone calls2)
  /\ (forall (w : Stateful.World) sid tcs1 tc tcs2 func a e,
        Stateful.resolve (Stateful.tools (Stateful.self w)) tc = Some func ->
        Stateful.decode_arguments json_loads (Stateful.request_arguments tc)
        = Returned a ->
        call_tool func a = Raised e ->
        let results batch :=
          fst (Stateful._execute_tools json_loads now_isoformat batch sid w) in
        length (results (tcs1 ++ tc :: tcs2)) = length (tcs1 ++ tc :: tcs2)
        /\ results (tcs1 ++ tc :: tcs2) !! length tcs1
           = Some {| Stateful.call_id :=
                       Stateful.id_or (Stateful.request_id tc)
                         ("error_" +:+ pretty (length tcs1));
                     Stateful.tool := Stateful.request_name tc;
                     Stateful.args := None;
                     Stateful.result := JObj [("error", JStr e)];
                     Stateful.success := Some false |}
        /\ forall tc' j,
             j <> length tcs1 ->
             results (tcs1 ++ tc :: tcs2) !! j
             = results (tcs1 ++ tc' :: tcs2) !! j).
Proof.
  split_and!.
  - intros h tool_name func arguments e Hf He.
    unfold ToolCalling.execute_tool. by rewrite Hf, He.
  - intros r calls1 tool_id tool_info calls2 func a e Hf Ha He. cbv zeta.
    rewrite Streaming.execute_each_middle.
    by rewrite (Streaming.alone_raised json_loads time_time _ _ _ func a e).
  - intros w sid tcs1 tc tcs2 func a e Hf Ha He. cbv zeta. split_and!.
    + apply Stateful._execute_tools_length.
    + rewrite Stateful._execute_tools_lookup, Stateful.lookup_middle. simpl.
      by rewrite (Stateful.entry_at_raised json_loads _ _ _ func a e).
    + intros tc' j Hj. by apply Stateful._execute_tools_independent.
Qed.

(** C8. Registering a callable under a name that is present raises nothing
    and replaces the callable: the name resolves to the new callable, which
    is the one that an execution of the name invokes, and every other name
    resolves as before. *)
Theorem registration_overwrites :
  (forall (h : ToolCalling.ToolHandler) name old func schema,
      ToolCalling.tools h !! name = Some old ->
      ToolCalling.names schema name ->
      exists h',
        ToolCalling.register_tool func schema h = Returned h'
        /\ ToolCalling.tools h' !! name = Some func
        /\ (forall other, other <> name ->
              ToolCalling.tools h' !! other = ToolCalling.tools h !! other)
        /\ forall arguments,
             ToolCalling.execute_tool name arguments h'
             = match call_tool func arguments with
               | Returned v => JObj [("result", v)]
               | Raised e =>
                   JObj [("error", JStr ("Tool execution failed: " +:+ e))]
               end)
  /\ (forall (h : Streaming.StreamingToolHandler) name old func schema,
        Streaming.tools h !! name = Some old ->
        let h' := Streaming.register_tool name func schema h in
        Streaming.tools h' !! name = Some func
        /\ (forall other, other <> name ->
              Streaming.tools h' !! other = Streaming.tools h !! other)
        /\ forall tool_id arguments a,
             json_loads arguments = Returned a ->
             Streaming.alone json_loads time_time h' tool_id
               {| Streaming.pc_id := tool_id; Streaming.pc_name := name;
                  Streaming.pc_arguments := arguments |}
             = [(Streaming.TOOL_CALL_END,
                 Streaming.CallEnd tool_id name arguments);
                (Streaming.TOOL_RESULT,
                 match call_tool func a with
                 | Returned v => Streaming.ResultOk tool_id name v
                 | Raised e => Streaming.ResultFailed tool_id name e
                 end)])
  /\ (forall (h : Stateful.StatefulConversationHandler) name old func schema,
        Stateful.tools h !! name = Some old ->
        let h' := fst (Stateful.register_tool name func schema h) in
        Stateful.tools h' !! name = Some func
        /\ forall other, other <> name ->
             Stateful.tools h' !! other = Stateful.tools h !! other).
Proof.
  split_and!.
  - intros h name old func schema _ Hn.
    eexists. split; [by apply ToolCalling.register_tool_named |]. simpl.
    split_and!.
    + apply lookup_insert_eq.
    + intros other Ho. by apply lookup_insert_ne.
    + intros arguments. unfold ToolCalling.execute_tool. simpl.
      by rewrite lookup_insert_eq.
  - intros h name old func schema _. cbv zeta. simpl. split_and!.
    + apply lookup_insert_eq.
    + intros other Ho. by apply lookup_insert_ne.
    + intros tool_id arguments a Ha.
      unfold Streaming.alone, Streaming.execute_pending. simpl.
      rewrite lookup_insert_eq, Ha. by destruct (call_tool func a).
  - intros h name old func schema _. cbv zeta.
    assert (Ht : Stateful.tools (fst (Stateful.register_tool name func schema h))
                 = <[name := func]> (Stateful.tools h)).
    { unfold Stateful.register_tool.
      destruct (dict_get "function" schema) as [[]|]; done. }
    rewrite Ht. split.
    + apply lookup_insert_eq.
    + intros other Ho. by apply lookup_insert_ne.
Qed.


(** C6, as the code has it. With a maximum of [max_iterations] rounds and a
    provider that asks for tool calls on every round, [process_message]
    calls the provider exactly [max_iterations] times and then returns: a
    reply with the number of rounds and an empty response, no exception.
    The loop of [multi_step_tool_calling] never sends more requests than it
    has passes (five in the example); with a provider that asks on every
    round for tool calls whose argument texts decode, it sends exactly that
    many and returns; and a tool call whose argument text does not decode
    ends the loop in that round with the exception of the decoder. *)
Theorem tool_rounds_stop_at_the_bound :
  (forall (sid user_message model : string) (system_prompt : option string)
          (max_iterations : Z) (w : Stateful.World),
      (0 <= max_iterations)%Z ->
      (forall history kwargs,
         Stateful.requests_tools (aresponses history kwargs)) ->
      exists reply w',
        Stateful.process_message json_loads json_dumps now_isoformat aresponses
          sid user_message model system_prompt max_iterations w
        = Some (reply, w')
        /\ Stateful.iterations reply = max_iterations
        /\ length (Stateful.requests w')
           = (length (Stateful.requests w) + Z.to_nat max_iterations)%nat
        /\ Stateful.response reply = "")
  /\ (forall completion (handler : ToolCalling.ToolHandler) passes messages
             sent,
        exists more,
          snd (ToolCalling.rounds json_loads json_dumps completion
                 handler passes messages sent)
          = sent ++ more
          /\ length more <= passes)
  /\ (forall completion (handler : ToolCalling.ToolHandler) passes messages
             sent,
        (forall history request,
           ToolCalling.asks_for_tools json_loads (completion history request)) ->
        exists messages' more,
          ToolCalling.rounds json_loads json_dumps completion
            handler passes messages sent
          = (Returned messages', sent ++ more)
          /\ length more = passes)
  /\ (forall completion (handler : ToolCalling.ToolHandler) passes messages
             sent message rest tcs1 arguments tool_call tcs2 e,
        let request :=
          {| ToolCalling.rq_model := "gpt-4o-mini";
             ToolCalling.rq_messages := messages;
             ToolCalling.rq_tools := Some (ToolCalling.tool_schemas handler);
             ToolCalling.rq_tool_choice := Some "auto" |} in
        completion sent request
        = Returned {| ToolCalling.choices := message :: rest |} ->
        ToolCalling.wanted message = tcs1 ++ tool_call :: tcs2 ->
        ToolCalling.decode_to json_loads tcs1 arguments ->
        json_loads (ToolCalling.function_arguments tool_call) = Raised e ->
        ToolCalling.rounds json_loads json_dumps completion
          handler (S passes) messages sent
        = (Raised e, sent ++ [request])).
Proof.
  split_and!.
  - intros sid user_message model system_prompt max_iterations w Hmax Htools.
    destruct (Stateful.process_message_spec json_loads json_dumps
                now_isoformat aresponses sid user_message model system_prompt
                max_iterations w)
      as (st & Hl & Hp & _ & _ & _ & Hreq).
    pose proof (Stateful.enter_spec now_isoformat sid user_message w)
      as (_ & _ & _ & _ & Ei & Ef).
    destruct (Stateful.loop_tools json_loads json_dumps now_isoformat
                aresponses sid model system_prompt max_iterations
                (Z.to_nat max_iterations)
                (Stateful.enter now_isoformat sid user_message w) Htools)
      as (st' & Hl' & Hi & Hf); [rewrite Ei; lia |].
    rewrite Hl in Hl'. injection Hl' as <-.
    exists (fst (Stateful.leave now_isoformat sid st)),
           (snd (Stateful.leave now_isoformat sid st)).
    split_and!.
    + rewrite Hp. by destruct (Stateful.leave now_isoformat sid st).
    + simpl. rewrite Hi, Ei. lia.
    + rewrite Hreq, Hi, Ei. f_equal. lia.
    + simpl. by rewrite Hf.
  - intros completion handler passes messages sent.
    apply ToolCalling.rounds_requests.
  - intros completion handler passes messages sent Hasks.
    by apply ToolCalling.rounds_bounded.
  - intros completion handler passes messages sent message rest tcs1
      arguments tool_call tcs2 e request Hanswer Hwanted Hd He.
    cbn [ToolCalling.rounds].
    unfold ToolCalling.bind at 1. unfold ToolCalling.complete at 1.
    fold request. rewrite Hanswer.
    unfold ToolCalling.bind at 1. unfold ToolCalling.lift at 1.
    cbn [ToolCalling.first_message ToolCalling.choices].
    rewrite Hwanted.
    rewrite (ToolCalling.answer_tool_calls_raises json_loads json_dumps
               handler tcs1 arguments tool_call tcs2 _ e Hd He).
    by destruct tcs1.
Qed.



(** C9, as the code has it. Registering a schema appends to the list of
    schemas of the handler: the schema itself in [ToolHandler] and
    [StreamingToolHandler]; in [StatefulConversationHandler] the dictionary
    with the keys type, name, description and parameters made from the
    function entry of the schema, and nothing when the schema has no
    function entry. *)
Theorem registered_schema_is_appended :
  (forall (h : ToolCalling.ToolHandler) func schema name,
      ToolCalling.names schema name ->
      exists h',
        ToolCalling.register_tool func schema h = Returned h'
        /\ ToolCalling.tool_schemas h' = ToolCalling.tool_schemas h ++ [schema])
  /\ (forall (h : Streaming.StreamingToolHandler) name func schema,
        Streaming.tool_schemas (Streaming.register_tool name func schema h)
        = Streaming.tool_schemas h ++ [schema])
  /\ (forall (h : Stateful.StatefulConversationHandler) name func schema
             func_def,
        dict_get "function" schema = Some (JObj func_def) ->
        Stateful.register_tool name func schema h
        = ({| Stateful.sessions := Stateful.sessions h;
              Stateful.tools := <[name := func]> (Stateful.tools h);
              Stateful.tool_schemas :=
                Stateful.tool_schemas h
                ++ [JObj [("type", JStr "function");
                          ("name", default JNull (dict_get "name" func_def));
                          ("description",
                           default JNull (dict_get "description" func_def));
                          ("parameters",
                           default (JObj [])
                             (dict_get "parameters" func_def))]] |},
           None))
  /\ (forall (h : Stateful.StatefulConversationHandler) name func schema,
        dict_get "function" schema = None ->
        Stateful.tool_schemas (fst (Stateful.register_tool name func schema h))
        = Stateful.tool_schemas h).
Proof.
  split_and!.
  - intros h func schema name Hn. eexists.
    split; [by apply ToolCalling.register_tool_named | done].
  - done.
  - intros h name func schema func_def Hf.
    unfold Stateful.register_tool. by rewrite Hf.
  - intros h name func schema Hf.
    unfold Stateful.register_tool. by rewrite Hf.
Qed.

(** A tool call whose name does not resolve (no name, an empty name or a
    name that is not registered) is reported as an unknown tool by
    [execute_tool] and by [_execute_tools]: the failure result of that call,
    and the results of the other calls of the batch as they are without
    it. *)
Theorem unknown_tool_is_reported :
  (forall (h : ToolCalling.ToolHandler) tool_name arguments,
      ToolCalling.tools h !! tool_name = None ->
      ToolCalling.execute_tool tool_name arguments h
      = JObj [("error", JStr ("Unknown tool: " +:+ tool_name))])
  /\ (forall (w : Stateful.World) sid tcs1 tc tcs2,
        Stateful.resolve (Stateful.tools (Stateful.self w)) tc = None ->
        let results batch :=
          fst (Stateful._execute_tools json_loads now_isoformat batch sid w) in
        length (results (tcs1 ++ tc :: tcs2)) = length (tcs1 ++ tc :: tcs2)
        /\ results (tcs1 ++ tc :: tcs2) !! length tcs1
           = Some {| Stateful.call_id :=
                       Stateful.id_or (Stateful.request_id tc)
                         ("error_" +:+ pretty (length tcs1));
                     Stateful.tool := None;
                     Stateful.args := None;
                     Stateful.result :=
                       JObj [("error",
                              JStr ("Unknown tool: "
                                    +:+ fmt (Stateful.request_name tc)))];
                     Stateful.success := None |}
        /\ forall tc' j,
             j <> length tcs1 ->
             results (tcs1 ++ tc :: tcs2) !! j
             = results (tcs1 ++ tc' :: tcs2) !! j).
Proof.
  split.
  - intros h tool_name arguments Hf.
    unfold ToolCalling.execute_tool. by rewrite Hf.
  - intros w sid tcs1 tc tcs2 Hr. cbv zeta. split_and!.
    + apply Stateful._execute_tools_length.
    + rewrite Stateful._execute_tools_lookup, Stateful.lookup_middle. simpl.
      by rewrite Stateful.entry_at_unknown.
    + intros tc' j Hj. by apply Stateful._execute_tools_independent.
Qed.


(** A first answer of the provider that has a text and no tool call ends
    [process_message] after this one round, with the text as the response. *)
Theorem text_answer_ends_after_one_round
    (sid user_message model : string) (system_prompt : option string)
    (max_iterations : Z) (w : Stateful.World)
    (answer : Stateful.Response) (output : list Stateful.OutputItem)
    (text : string) :
  (0 < max_iterations)%Z ->
  aresponses (Stateful.requests w)
    (Stateful.kwargs_of sid model system_prompt
       (Stateful.enter now_isoformat sid user_message w) 1)
  = Returned answer ->
  Stateful.r_output answer = Some output ->
  Stateful.scan output = ([], Some text) ->
  text <> "" ->
  exists reply w',
    Stateful.process_message json_loads json_dumps now_isoformat aresponses
      sid user_message model system_prompt max_iterations w
    = Some (reply, w')
    /\ Stateful.response reply = text
    /\ Stateful.iterations reply = 1%Z
    /\ length (Stateful.requests w') = S (length (Stateful.requests w)).
Proof.
  intros Hmax Ha Ho Hs Ht.
  destruct (Stateful.process_message_spec json_loads json_dumps now_isoformat
              aresponses sid user_message model system_prompt max_iterations w)
    as (st & Hl & Hp & _ & _ & _ & Hreq).
  pose proof (Stateful.enter_spec now_isoformat sid user_message w)
    as (_ & _ & _ & Er & Ei & _).
  destruct (Z.to_nat max_iterations) as [|fuel] eqn:Efuel; [lia |].
  destruct (Stateful.loop_text json_loads json_dumps now_isoformat aresponses
              sid model system_prompt max_iterations fuel
              (Stateful.enter now_isoformat sid user_message w)
              answer output text)
    as (st' & Hl' & Hf & Hi); [rewrite Ei; lia | by rewrite Er, Ei | done..|].
  rewrite Hl in Hl'. injection Hl' as <-.
  exists (fst (Stateful.leave now_isoformat sid st)),
         (snd (Stateful.leave now_isoformat sid st)).
  split_and!.
  - rewrite Hp. by destruct (Stateful.leave now_isoformat sid st).
  - exact Hf.
  - simpl. rewrite Hi, Ei. done.
  - rewrite Hreq, Hi, Ei. simpl. lia.
Qed.

End Handlers.

End Claims.

(** ** Further properties of the handlers and of their callers *)

Module Properties.
Import Py.

Section Conversations.

Variable json_loads : string -> Outcome Json.
Variable json_dumps : Json -> string.
Variable now_isoformat : nat -> string.
Variable aresponses :
  list Stateful.Kwargs -> Stateful.Kwargs -> Outcome Stateful.Response.

(** A session that [clear_session] removed has no history, and the other
    sessions keep theirs. The next [process_message] with its identifier
    starts the session afresh: its history is the two messages of that turn,
    and the first request carries no identifier of an earlier response, and
    the system prompt when one is given. *)
Theorem cleared_session_starts_afresh
    (sid user_message model : string) (system_prompt : option string)
    (max_iterations : Z) (w : Stateful.World) :
  let cleared := Stateful.on_self (Stateful.clear_session sid) w in
  Stateful.get_session_history sid (Stateful.self cleared) = None
  /\ (forall k, k <> sid ->
        Stateful.get_session_history k (Stateful.self cleared)
        = Stateful.get_session_history k (Stateful.self w))
  /\ exists reply w' user assistant,
       Stateful.process_message json_loads json_dumps now_isoformat aresponses
         sid user_message model system_prompt max_iterations cleared
       = Some (reply, w')
       /\ Stateful.get_session_history sid (Stateful.self w')
          = Some [user; assistant]
       /\ Stateful.content user = user_message
       /\ Stateful.content assistant = Stateful.response reply
       /\ ((0 < max_iterations)%Z ->
           exists first,
             Stateful.requests w' !! length (Stateful.requests w) = Some first
             /\ Stateful.k_input first = Stateful.InputText user_message
             /\ Stateful.k_previous_response_id first = None
             /\ Stateful.k_system first
                = if truthy_attr system_prompt then system_prompt else None).
Proof.
  cbv zeta.
  pose proof (Stateful.clear_session_spec sid w) as (Hgone & Hkept & _).
  set (cleared := Stateful.on_self (Stateful.clear_session sid) w) in *.
  rewrite !Stateful.get_session_history_spec, Hgone.
  split_and!; [done | |].
  { intros k Hk. rewrite !Stateful.get_session_history_spec. f_equal.
    by apply Hkept. }
  destruct (Stateful.process_message_spec json_loads json_dumps now_isoformat
              aresponses sid user_message model system_prompt max_iterations
              cleared)
    as (st & Hl & Hp & Hm & _).
  rewrite Hgone in Hm. cbn [fmap option_fmap option_map default app] in Hm.
  exists (fst (Stateful.leave now_isoformat sid st)),
         (snd (Stateful.leave now_isoformat sid st)),
         (Stateful.user_entry now_isoformat user_message
            (Stateful.get_or_create_session now_isoformat sid cleared)),
         (Stateful.assistant_entry now_isoformat st).
  split_and!.
  - rewrite Hp. by destruct (Stateful.leave now_isoformat sid st).
  - rewrite Stateful.get_session_history_spec. exact Hm.
  - done.
  - done.
  - intros Hmax.
    destruct (Stateful.process_message_turn json_loads json_dumps
                now_isoformat aresponses sid user_message model system_prompt
                max_iterations cleared Hmax)
      as (st' & first & rest & Hp' & _ & _ & Hr & Hfirst & _).
    assert (Heq : Stateful.leave now_isoformat sid st
                  = Stateful.leave now_isoformat sid st') by congruence.
    pose proof (Stateful.first_request_spec now_isoformat sid user_message
                  model system_prompt cleared) as (_ & Hin & Hprev & Hsys).
    cbv zeta in Hin, Hprev, Hsys. rewrite <- Hfirst in Hin, Hprev, Hsys.
    rewrite Hgone in Hprev, Hsys.
    exists first. split_and!; [| exact Hin | exact Hprev | exact Hsys].
    rewrite Heq, Hr.
    change (Stateful.requests cleared) with (Stateful.requests w).
    by rewrite list_lookup_middle.
Qed.

(** After a turn the session holds the response identifier that the reply
    gives, and the first request of the next turn of that session carries
    it as the identifier of the previous response (none when it is
    empty). *)
Theorem turns_are_chained_by_the_response_identifier
    (sid : string) (w : Stateful.World)
    (message1 model1 : string) (system_prompt1 : option string)
    (max_iterations1 : Z)
    (message2 model2 : string) (system_prompt2 : option string)
    (max_iterations2 : Z) :
  exists reply1 w1,
    Stateful.process_message json_loads json_dumps now_isoformat aresponses
      sid message1 model1 system_prompt1 max_iterations1 w
    = Some (reply1, w1)
    /\ Stateful.last_response_id <$> Stateful.session_of sid w1
       = Some (Stateful.response_id reply1)
    /\ ((0 < max_iterations2)%Z ->
        exists reply2 w2 first rest,
          Stateful.process_message json_loads json_dumps now_isoformat
            aresponses sid message2 model2 system_prompt2 max_iterations2 w1
          = Some (reply2, w2)
          /\ Stateful.requests w2 = Stateful.requests w1 ++ first :: rest
          /\ Stateful.k_input first = Stateful.InputText message2
          /\ Stateful.k_previous_response_id first
             = or_else (Stateful.response_id reply1) None).
Proof.
  destruct (Stateful.process_message_session json_loads json_dumps
              now_isoformat aresponses sid message1 model1 system_prompt1
              max_iterations1 w)
    as (st & s & entries & Hl & Hs & Hid & _).
  exists (fst (Stateful.leave now_isoformat sid st)),
         (snd (Stateful.leave now_isoformat sid st)).
  split_and!.
  - unfold Stateful.process_message. rewrite Hl.
    cbn [fmap option_fmap option_map].
    by destruct (Stateful.leave now_isoformat sid st).
  - rewrite Hs. simpl. by rewrite Hid.
  - intros Hmax.
    destruct (Stateful.process_message_turn json_loads json_dumps
                now_isoformat aresponses sid message2 model2 system_prompt2
                max_iterations2 (snd (Stateful.leave now_isoformat sid st))
                Hmax)
      as (st2 & first & rest & Hp2 & _ & _ & Hr & Hfirst & _).
    pose proof (Stateful.first_request_spec now_isoformat sid message2
                  model2 system_prompt2
                  (snd (Stateful.leave now_isoformat sid st)))
      as (_ & Hin & Hprev & _).
    cbv zeta in Hin, Hprev. rewrite <- Hfirst in Hin, Hprev.
    exists (fst (Stateful.leave now_isoformat sid st2)),
           (snd (Stateful.leave now_isoformat sid st2)), first, rest.
    split_and!; [| exact Hr | exact Hin |].
    + rewrite Hp2. by destruct (Stateful.leave now_isoformat sid st2).
    + rewrite Hprev, Hs. simpl. by rewrite Hid.
Qed.

(** The requests of a turn that allows one round at least: the first one
    carries the user message, and the system prompt when one is given and
    the session had no message before the turn; every later one carries
    the outputs of the tool calls of the round before it, and no system
    prompt. All of them name the model of the turn. *)
Theorem system_prompt_goes_with_the_first_request
    (sid user_message model : string) (system_prompt : option string)
    (max_iterations : Z) (w : Stateful.World) :
  (0 < max_iterations)%Z ->
  exists reply w' first rest,
    Stateful.process_message json_loads json_dumps now_isoformat aresponses
      sid user_message model system_prompt max_iterations w
    = Some (reply, w')
    /\ Stateful.requests w' = Stateful.requests w ++ first :: rest
    /\ Stateful.k_input first = Stateful.InputText user_message
    /\ Stateful.k_system first
       = match
           default [] (Stateful.messages <$> Stateful.session_of sid w)
         with
         | [] => if truthy_attr system_prompt then system_prompt else None
         | _ :: _ => None
         end
    /\ Forall
         (fun kwargs =>
            Stateful.k_system kwargs = None
            /\ exists outputs,
                 Stateful.k_input kwargs = Stateful.InputToolOutputs outputs)
         rest
    /\ Forall (fun kwargs => Stateful.k_model kwargs = model) (first :: rest).
Proof.
  intros Hmax.
  destruct (Stateful.process_message_turn json_loads json_dumps now_isoformat
              aresponses sid user_message model system_prompt max_iterations
              w Hmax)
    as (st & first & rest & Hp & _ & _ & Hr & Hfirst & Hrest).
  pose proof (Stateful.first_request_spec now_isoformat sid user_message
                model system_prompt w) as (Hmodel & Hin & _ & Hsys).
  cbv zeta in Hmodel, Hin, Hsys. rewrite <- Hfirst in Hmodel, Hin, Hsys.
  exists (fst (Stateful.leave now_isoformat sid st)),
         (snd (Stateful.leave now_isoformat sid st)), first, rest.
  split_and!; [| exact Hr | exact Hin | exact Hsys | |].
  - rewrite Hp. by destruct (Stateful.leave now_isoformat sid st).
  - eapply Forall_impl; [exact Hrest |]. by intros kwargs (_ & ? & ?).
  - constructor; [exact Hmodel |].
    eapply Forall_impl; [exact Hrest |]. by intros kwargs (? & _).
Qed.


(** A turn of two rounds. When the first answer asks for tool calls and the
    second one is a text, the second request carries the outputs of the
    tools, one per call and in the order of the calls, each with the
    identifier of its result and the JSON text of its result, and names the
    first response as the previous one; the reply is the text of the second
    answer, a text that came with the tool calls of the first answer is
    dropped, and the assistant message lists the results of the calls. *)
Theorem tool_outputs_are_the_next_input
    (sid user_message model : string) (system_prompt : option string)
    (max_iterations : Z) (w : Stateful.World)
    (answer1 answer2 : Stateful.Response)
    (output1 output2 : list Stateful.OutputItem)
    (tc : Stateful.ToolCallObj) (tcs : list Stateful.ToolCallObj)
    (text1 : option string) (text : string) :
  let first :=
    Stateful.kwargs_of sid model system_prompt
      (Stateful.enter now_isoformat sid user_message w) 1 in
  let outputs :=
    fst (Stateful._execute_tools json_loads now_isoformat (tc :: tcs) sid w) in
  let second :=
    {| Stateful.k_model := model;
       Stateful.k_tools := Stateful.k_tools first;
       Stateful.k_input :=
         Stateful.InputToolOutputs
           (map (Stateful.next_input json_dumps) outputs);
       Stateful.k_previous_response_id := or_else (Stateful.r_id answer1) None;
       Stateful.k_system := None |} in
  (1 < max_iterations)%Z ->
  aresponses (Stateful.requests w) first = Returned answer1 ->
  Stateful.r_output answer1 = Some output1 ->
  Stateful.scan output1 = (tc :: tcs, text1) ->
  aresponses (Stateful.requests w ++ [first]) second = Returned answer2 ->
  Stateful.r_output answer2 = Some output2 ->
  Stateful.scan output2 = ([], Some text) ->
  text <> "" ->
  exists reply w' assistant,
    Stateful.process_message json_loads json_dumps now_isoformat aresponses
      sid user_message model system_prompt max_iterations w
    = Some (reply, w')
    /\ Stateful.response reply = text
    /\ Stateful.iterations reply = 2%Z
    /\ Stateful.reply_tool_calls reply = length (tc :: tcs)
    /\ Stateful.response_id reply = Stateful.r_id answer2
    /\ Stateful.requests w' = Stateful.requests w ++ [first; second]
    /\ (Stateful.messages <$> Stateful.session_of sid w') ≫= last
       = Some assistant
    /\ Stateful.content assistant = text
    /\ Stateful.tool_calls assistant = Some outputs.
Proof.
  cbv zeta. intros Hmax Ha1 Ho1 Hs1 Ha2 Ho2 Hs2 Ht.
  destruct (Stateful.loop_tool_round json_loads json_dumps now_isoformat
              aresponses sid user_message model system_prompt max_iterations
              w answer1 output1 tc tcs text1 answer2 output2 text
              Hmax Ha1 Ho1 Hs1 Ha2 Ho2 Hs2 Ht)
    as (st & Hl & Hf & Hi & Hmade & Hid & Hr).
  destruct (Stateful.process_message_spec json_loads json_dumps now_isoformat
              aresponses sid user_message model system_prompt max_iterations w)
    as (st' & Hl' & Hp & Hm & _).
  rewrite Hl in Hl'. injection Hl' as <-.
  pose proof (Stateful._execute_tools_length json_loads now_isoformat
                (tc :: tcs) sid w) as Hlen.
  exists (fst (Stateful.leave now_isoformat sid st)),
         (snd (Stateful.leave now_isoformat sid st)),
         (Stateful.assistant_entry now_isoformat st).
  split_and!.
  - rewrite Hp. by destruct (Stateful.leave now_isoformat sid st).
  - exact Hf.
  - exact Hi.
  - simpl. by rewrite Hmade.
  - exact Hid.
  - exact Hr.
  - rewrite Hm. cbn [mbind option_bind]. apply last_app_two.
  - exact Hf.
  - unfold Stateful.assistant_entry. simpl. rewrite Hmade.
    destruct (fst (Stateful._execute_tools _ _ _ _ _)); [done | done].
Qed.

(** An answer that asks for no tool call and has no text, or an empty one,
    or no output list at all, ends the turn after this one round, with an
    empty response. *)
Theorem answer_without_content_ends_the_turn
    (sid user_message model : string) (system_prompt : option string)
    (max_iterations : Z) (w : Stateful.World) (answer : Stateful.Response) :
  (0 < max_iterations)%Z ->
  aresponses (Stateful.requests w)
    (Stateful.kwargs_of sid model system_prompt
       (Stateful.enter now_isoformat sid user_message w) 1)
  = Returned answer ->
  match Stateful.r_output answer with
  | Some output =>
      fst (Stateful.scan output) = []
      /\ truthy_attr (snd (Stateful.scan output)) = false
  | None => True
  end ->
  exists reply w',
    Stateful.process_message json_loads json_dumps now_isoformat aresponses
      sid user_message model system_prompt max_iterations w
    = Some (reply, w')
    /\ Stateful.response reply = ""
    /\ Stateful.iterations reply = 1%Z
    /\ Stateful.reply_tool_calls reply = 0
    /\ Stateful.response_id reply = Stateful.r_id answer
    /\ length (Stateful.requests w') = S (length (Stateful.requests w)).
Proof.
  intros Hmax Ha Hno.
  destruct (Stateful.process_message_spec json_loads json_dumps now_isoformat
              aresponses sid user_message model system_prompt max_iterations w)
    as (st & Hl & Hp & _ & _ & _ & Hreq).
  pose proof (Stateful.enter_spec now_isoformat sid user_message w)
    as (_ & _ & _ & Er & Ei & Ef).
  destruct (Z.to_nat max_iterations) as [|fuel] eqn:Efuel; [lia |].
  destruct (Stateful.loop_no_content json_loads json_dumps now_isoformat
              aresponses sid model system_prompt max_iterations fuel
              (Stateful.enter now_isoformat sid user_message w) answer)
    as (st' & Hl' & Hf & Hi & Hid); [rewrite Ei; lia | by rewrite Er, Ei | done |].
  assert (Hmade : Stateful.tool_calls_made st = []).
  { rewrite Stateful.loop_unfold in Hl by (rewrite Ei; lia).
    assert (Hno' : match Stateful.r_output answer with
                   | Some output => fst (Stateful.scan output) = []
                   | None => True
                   end).
    { destruct (Stateful.r_output answer); [by destruct Hno | done]. }
    rewrite (Stateful.body_stops json_loads json_dumps now_isoformat
               aresponses sid model system_prompt _ answer) in Hl;
      [| by rewrite Er, Ei | done].
    cbn [fst snd Stateful.stop] in Hl. by injection Hl as <-. }
  rewrite Hl in Hl'. injection Hl' as <-.
  exists (fst (Stateful.leave now_isoformat sid st)),
         (snd (Stateful.leave now_isoformat sid st)).
  split_and!.
  - rewrite Hp. by destruct (Stateful.leave now_isoformat sid st).
  - simpl. by rewrite Hf, Ef.
  - simpl. rewrite Hi, Ei. done.
  - simpl. by rewrite Hmade.
  - exact Hid.
  - rewrite Hreq, Hi, Ei. simpl. lia.
Qed.

(** A conversation of several turns in one session returns one reply per
    user message; the session's messages grow by the user message and the
    assistant's response of each turn, in the order of the turns, and the
    other sessions stay as they are. Of all the requests of the
    conversation, only the very first one can carry the system prompt. *)
Theorem conversation_alternates_user_and_assistant
    (sid : string) (system_prompt : option string)
    (conversations : list string) (w : Stateful.World) :
  exists results w' added,
    Stateful.turns json_loads json_dumps now_isoformat aresponses
      sid system_prompt conversations w
    = Some (results, w')
    /\ length results = length conversations
    /\ Stateful.said
         <$> default [] (Stateful.get_session_history sid (Stateful.self w'))
       = (Stateful.said
            <$> default [] (Stateful.get_session_history sid (Stateful.self w)))
         ++ mjoin (zip_with Stateful.exchange conversations results)
    /\ (forall k, k <> sid ->
          Stateful.get_session_history k (Stateful.self w')
          = Stateful.get_session_history k (Stateful.self w))
    /\ Stateful.requests w' = Stateful.requests w ++ added
    /\ Forall (fun kwargs => Stateful.k_system kwargs = None) (tail added).
Proof.
  destruct (Stateful.turns_spec json_loads json_dumps now_isoformat aresponses
              sid system_prompt conversations w)
    as (results & w' & added & Ht & Hlen & Hsaid & Hk & Hr & Htail & _).
  exists results, w', added.
  rewrite !Stateful.get_session_history_spec.
  split_and!; try done.
  intros k Hne. rewrite !Stateful.get_session_history_spec. f_equal.
  by apply Hk.
Qed.

End Conversations.

Section Streams.

Variable json_loads : string -> Outcome Json.
Variable time_time : nat -> Z.
Variable acompletion : Streaming.Request -> Streaming.Stream.

(** The events of a turn, apart from their times. First come the events of
    the chunks that the stream delivered, in the order of the chunks: the
    text of a chunk, then the start and the argument events of its
    fragments. When the stream was read to its end, the events of the
    pending calls follow, each call as it is executed alone and in the
    order of the buffer, and [END] is the last event; when the stream
    raised, [ERROR] with the message is the last event and no pending call
    is executed. No [END] and no [ERROR] comes earlier, and the turn leaves
    the registry and the schemas of the handler as they were. *)
Theorem events_of_a_turn
    (model : string) (messages : list Json) (kwargs : Dict Json)
    (h : Streaming.StreamingToolHandler) (now : nat) :
  let stream := acompletion (Streaming.request_of model messages kwargs h) in
  let turn :=
    Streaming.stream_with_tools json_loads time_time acompletion
      model messages kwargs h now in
  let pending :=
    Streaming.current_tool_calls
      (Streaming.accumulate
         (Streaming.fragments_of (Streaming.delivered stream)) h) in
  exists body last,
    map Streaming.payload (Streaming.events turn) = body ++ [last]
    /\ body
       = flat_map Streaming.chunk_payloads (Streaming.delivered stream)
         ++ match Streaming.failure stream with
            | Some _ => []
            | None =>
                flat_map
                  (fun item =>
                     Streaming.alone json_loads time_time h (fst item)
                       (snd item))
                  pending
            end
    /\ last
       = match Streaming.failure stream with
         | Some e => (Streaming.ERROR, Streaming.ErrorText e)
         | None => (Streaming.END, Streaming.NoData)
         end
    /\ Forall Streaming.in_progress body
    /\ Streaming.tools (Streaming.handler turn) = Streaming.tools h
    /\ Streaming.tool_schemas (Streaming.handler turn)
       = Streaming.tool_schemas h.
Proof.
  cbv zeta.
  pose proof (Streaming.stream_with_tools_payloads json_loads time_time
                acompletion model messages kwargs h now) as Hp.
  pose proof (Streaming.stream_with_tools_handler json_loads time_time
                acompletion model messages kwargs h now) as (Ht & Hs & _).
  cbv zeta in Hp.
  set (stream := acompletion (Streaming.request_of model messages kwargs h))
    in *.
  eexists _, _. split_and!; [| reflexivity | reflexivity | | exact Ht | exact Hs].
  - rewrite Hp. destruct (Streaming.failure stream).
    + by rewrite app_nil_r.
    + by rewrite app_assoc.
  - apply Forall_app. split; [apply Streaming.in_progress_chunks |].
    destruct (Streaming.failure stream); [constructor |].
    apply Streaming.in_progress_alone.
Qed.

(** The texts of the [TEXT] events of a turn are the contents of the
    chunks that the stream delivered, those that are not empty, in the
    order of the chunks, whether the stream ends or raises; and
    [process_user_query] returns the user's number with these texts joined,
    also when the stream raised. *)
Theorem process_user_query_returns_the_streamed_text :
  (forall model messages kwargs (h : Streaming.StreamingToolHandler) now,
      Streaming.texts
        (map Streaming.payload
           (Streaming.events
              (Streaming.stream_with_tools json_loads time_time acompletion
                 model messages kwargs h now)))
      = omap Streaming.chunk_text
          (Streaming.delivered
             (acompletion (Streaming.request_of model messages kwargs h))))
  /\ (forall user_id query (h : Streaming.StreamingToolHandler) now,
        fst (Streaming.process_user_query json_loads time_time acompletion
               user_id query h now)
        = (user_id,
           String.concat ""
             (omap Streaming.chunk_text
                (Streaming.delivered
                   (acompletion
                      (Streaming.request_of "gpt-4o-mini"
                         [JObj [("role", JStr "user");
                                ("content", JStr query)]]
                         [] h)))))).
Proof.
  assert (Htexts :
    forall model messages kwargs (h : Streaming.StreamingToolHandler) now,
      Streaming.texts
        (map Streaming.payload
           (Streaming.events
              (Streaming.stream_with_tools json_loads time_time acompletion
                 model messages kwargs h now)))
      = omap Streaming.chunk_text
          (Streaming.delivered
             (acompletion (Streaming.request_of model messages kwargs h)))).
  { intros model messages kwargs h now.
    rewrite Streaming.stream_with_tools_payloads.
    rewrite Streaming.texts_app, Streaming.texts_chunks.
    destruct (Streaming.failure _); [by rewrite app_nil_r |].
    rewrite Streaming.texts_app, Streaming.texts_alone. by rewrite app_nil_r. }
  split; [exact Htexts |].
  intros user_id query h now. unfold Streaming.process_user_query.
  cbn [fst]. f_equal. f_equal.
  pose proof (Streaming.stream_with_tools_payloads json_loads time_time
                acompletion "gpt-4o-mini"
                [JObj [("role", JStr "user"); ("content", JStr query)]]
                [] h now) as Hp.
  cbv zeta in Hp.
  set (stream := acompletion _) in *.
  destruct (Streaming.failure stream) as [e|] eqn:E.
  - rewrite (Streaming.response_parts_spec _ _ _ Hp);
      [apply Streaming.texts_chunks | apply Streaming.in_progress_chunks |].
    by right.
  - rewrite app_assoc in Hp.
    rewrite (Streaming.response_parts_spec _ _ _ Hp).
    + rewrite Streaming.texts_app, Streaming.texts_chunks.
      by rewrite Streaming.texts_alone, app_nil_r.
    + apply Forall_app. split; [apply Streaming.in_progress_chunks |].
      apply Streaming.in_progress_alone.
    + by left.
Qed.

(** A fragment without an identifier, or with an empty one, does not reach
    the buffer: the accumulator does with a list of fragments what it does
    with those of them that carry an identifier. Reading a chunk of such
    fragments leaves the handler as it is and still yields their start and
    argument events. *)
Theorem fragments_without_identifier_are_dropped :
  (forall ds (h : Streaming.StreamingToolHandler),
      Streaming.accumulate ds h
      = Streaming.accumulate (List.filter Streaming.identified ds) h)
  /\ (forall chunk (r : Streaming.Run),
        Forall (fun d => Streaming.identified d = false)
          (Streaming.chunk_fragments chunk) ->
        Streaming.handler (Streaming._process_chunk time_time chunk r)
        = Streaming.handler r
        /\ map Streaming.payload
             (Streaming.events (Streaming._process_chunk time_time chunk r))
           = map Streaming.payload (Streaming.events r)
             ++ Streaming.chunk_payloads chunk).
Proof.
  split; [apply Streaming.accumulate_identified |].
  intros chunk r Hall. split; [|apply Streaming._process_chunk_payloads].
  rewrite Streaming._process_chunk_handler, Streaming.accumulate_identified.
  replace (List.filter Streaming.identified (Streaming.chunk_fragments chunk))
    with (@nil Streaming.ToolCallDelta); [done |].
  induction Hall as [|d ds Hd _ IH]; [done |].
  cbn [List.filter]. by rewrite Hd.
Qed.

(** The pending calls of a turn whose stream raised are executed by the
    next turn of the handler that reads its stream to the end: that turn
    finalizes the identifiers that the fragments of both streams
    accumulated, each once, and leaves the buffer empty. The two turns call
    the provider once each, [first_call] and [second_call]: the second turn
    can repeat the request of the first one and get another stream. *)
Theorem unfinished_calls_run_in_the_next_turn
    (first_call second_call : Streaming.Request -> Streaming.Stream)
    (h : Streaming.StreamingToolHandler)
    (model1 : string) (messages1 : list Json) (kwargs1 : Dict Json)
    (now1 : nat)
    (model2 : string) (messages2 : list Json) (kwargs2 : Dict Json)
    (now2 : nat) (e : string) :
  let stream1 := first_call (Streaming.request_of model1 messages1 kwargs1 h) in
  let turn1 :=
    Streaming.stream_with_tools json_loads time_time first_call
      model1 messages1 kwargs1 h now1 in
  let stream2 :=
    second_call
      (Streaming.request_of model2 messages2 kwargs2 (Streaming.handler turn1)) in
  let turn2 :=
    Streaming.stream_with_tools json_loads time_time second_call
      model2 messages2 kwargs2 (Streaming.handler turn1) now2 in
  Streaming.failure stream1 = Some e ->
  Streaming.failure stream2 = None ->
  Streaming.finalized (Streaming.events turn1) = []
  /\ Streaming.finalized (Streaming.events turn2)
     = dict_keys
         (Streaming.current_tool_calls
            (Streaming.accumulate
               (Streaming.fragments_of (Streaming.delivered stream1)
                ++ Streaming.fragments_of (Streaming.delivered stream2))
               h))
  /\ Streaming.current_tool_calls (Streaming.handler turn2) = [].
Proof.
  cbv zeta. intros He1 He2.
  pose proof (Streaming.stream_with_tools_payloads json_loads time_time
                first_call model1 messages1 kwargs1 h now1) as Hp1.
  pose proof (Streaming.stream_with_tools_handler json_loads time_time
                first_call model1 messages1 kwargs1 h now1)
    as (Ht1 & Hs1 & Hc1).
  cbv zeta in Hp1, Hc1. rewrite He1 in Hp1, Hc1.
  set (turn1 := Streaming.stream_with_tools json_loads time_time first_call
                  model1 messages1 kwargs1 h now1) in *.
  pose proof (Streaming.stream_with_tools_payloads json_loads time_time
                second_call model2 messages2 kwargs2
                (Streaming.handler turn1) now2) as Hp2.
  pose proof (Streaming.stream_with_tools_handler json_loads time_time
                second_call model2 messages2 kwargs2
                (Streaming.handler turn1) now2)
    as (_ & _ & Hc2).
  cbv zeta in Hp2, Hc2. rewrite He2 in Hp2, Hc2.
  split_and!; [| | exact Hc2].
  - rewrite Streaming.finalized_ends, Hp1, Streaming.ends_app.
    by rewrite Streaming.ends_chunks.
  - rewrite Streaming.finalized_ends, Hp2, !Streaming.ends_app.
    rewrite Streaming.ends_chunks, Streaming.ends_alone, app_nil_r.
    cbn [app]. f_equal. rewrite Streaming.accumulate_app.
    assert (Hh : Streaming.handler turn1
                 = Streaming.accumulate
                     (Streaming.fragments_of
                        (Streaming.delivered
                           (first_call
                              (Streaming.request_of model1 messages1 kwargs1
                                 h))))
                     h).
    { subst turn1. unfold Streaming.stream_with_tools. rewrite He1.
      rewrite Streaming.yield_handler.
      by rewrite Streaming.process_chunks_handler. }
    by rewrite <- Hh.
Qed.

(** The request of a turn: the model and the messages of the caller;
    among the keyword arguments, the schemas of the handler as the tools
    and the stream flag set, whatever the caller gave under these keys, the
    tool choice of the caller when there is one and "auto" otherwise, and
    every other keyword argument of the caller as it is. *)
Theorem request_carries_the_schemas_and_the_stream_flag
    (model : string) (messages : list Json) (kwargs : Dict Json)
    (h : Streaming.StreamingToolHandler) :
  let request := Streaming.request_of model messages kwargs h in
  Streaming.rq_model request = model
  /\ Streaming.rq_messages request = messages
  /\ dict_get "tools" (Streaming.rq_kwargs request)
     = Some (JArr (Streaming.tool_schemas h))
  /\ dict_get "stream" (Streaming.rq_kwargs request) = Some (JBool true)
  /\ dict_get "tool_choice" (Streaming.rq_kwargs request)
     = Some (default (JStr "auto") (dict_get "tool_choice" kwargs))
  /\ forall k,
       k <> "tools" -> k <> "tool_choice" -> k <> "stream" ->
       dict_get k (Streaming.rq_kwargs request) = dict_get k kwargs.
Proof.
  cbv zeta. unfold Streaming.request_of. cbn [Streaming.rq_model
    Streaming.rq_messages Streaming.rq_kwargs].
  split_and!; [done | done | | | |].
  - rewrite dict_get_set_ne by done. rewrite dict_get_set_ne by done.
    apply dict_get_set_eq.
  - apply dict_get_set_eq.
  - rewrite dict_get_set_ne by done. rewrite dict_get_set_eq.
    by rewrite dict_get_set_ne.
  - intros k H1 H2 H3.
    rewrite dict_get_set_ne by done. rewrite dict_get_set_ne by done.
    by rewrite dict_get_set_ne.
Qed.

(** The summary of [demo_streaming_with_tools]. [event_counts] lists a
    type under its value when the log has an event of the type, once and
    with the number of these events, so that the counts add up to the
    length of the log. For the log of a turn, exactly one of "end" and
    "error" is listed, with the count one: "end" when the stream was read to
    its end and "error" when it raised; and [full_response] is the contents
    of the chunks that were delivered, joined in their order. *)
Theorem event_summary_counts_every_event_once :
  (forall events_log value,
      dict_get value (Streaming.event_counts events_log)
      = match Streaming.occurrences value events_log with
        | O => None
        | S n => Some (Z.of_nat (S n))
        end)
  /\ (forall events_log,
        NoDup (dict_keys (Streaming.event_counts events_log))
        /\ Streaming.total (Streaming.event_counts events_log)
           = Z.of_nat (length events_log))
  /\ (forall model messages kwargs (h : Streaming.StreamingToolHandler) now,
        let stream :=
          acompletion (Streaming.request_of model messages kwargs h) in
        let events_log :=
          Streaming.events
            (Streaming.stream_with_tools json_loads time_time acompletion
               model messages kwargs h now) in
        dict_get "end" (Streaming.event_counts events_log)
        = match Streaming.failure stream with
          | Some _ => None
          | None => Some 1%Z
          end
        /\ dict_get "error" (Streaming.event_counts events_log)
           = match Streaming.failure stream with
             | Some _ => Some 1%Z
             | None => None
             end
        /\ Streaming.full_response events_log
           = String.concat ""
               (omap Streaming.chunk_text (Streaming.delivered stream))).
Proof.
  assert (Hlookup : forall events_log value,
    dict_get value (Streaming.event_counts events_log)
    = match Streaming.occurrences value events_log with
      | O => None
      | S n => Some (Z.of_nat (S n))
      end).
  { intros events_log value. unfold Streaming.event_counts.
    rewrite Streaming.count_events_lookup.
    by destruct (Streaming.occurrences value events_log). }
  split_and!; [exact Hlookup | |].
  - intros events_log. unfold Streaming.event_counts. split.
    + apply Streaming.count_events_NoDup. constructor.
    + by rewrite Streaming.count_events_total.
  - intros model messages kwargs h now. cbv zeta.
    pose proof (Streaming.stream_with_tools_payloads json_loads time_time
                  acompletion model messages kwargs h now) as Hp.
    cbv zeta in Hp.
    set (stream := acompletion (Streaming.request_of model messages kwargs h))
      in *.
    set (events_log := Streaming.events _) in *.
    set (body :=
      flat_map Streaming.chunk_payloads (Streaming.delivered stream)
      ++ match Streaming.failure stream with
         | Some _ => []
         | None =>
             flat_map
               (fun item =>
                  Streaming.alone json_loads time_time h (fst item) (snd item))
               (Streaming.current_tool_calls
                  (Streaming.accumulate
                     (Streaming.fragments_of (Streaming.delivered stream)) h))
         end).
    set (last :=
      match Streaming.failure stream with
      | Some e => (Streaming.ERROR, Streaming.ErrorText e)
      | None => (Streaming.END, Streaming.NoData)
      end).
    assert (Hlog : map Streaming.payload events_log = body ++ [last]).
    { rewrite Hp. subst body last. destruct (Streaming.failure stream).
      - by rewrite app_nil_r.
      - by rewrite app_assoc. }
    assert (Hbody : Forall Streaming.in_progress body).
    { subst body. apply Forall_app.
      split; [apply Streaming.in_progress_chunks |].
      destruct (Streaming.failure stream); [constructor |].
      apply Streaming.in_progress_alone. }
    assert (Hlast : fst last = Streaming.END \/ fst last = Streaming.ERROR).
    { subst last. destruct (Streaming.failure stream); [by right | by left]. }
    assert (Hocc : forall value,
      value = "end" \/ value = "error" ->
      Streaming.occurrences value events_log
      = Streaming.occurrences_in value [last]).
    { intros value Hv.
      rewrite Streaming.occurrences_payloads, Hlog.
      rewrite Streaming.occurrences_in_app.
      by rewrite (Streaming.occurrences_in_progress value body Hv Hbody). }
    split_and!.
    + rewrite Hlookup, Hocc by (by left). subst last.
      by destruct (Streaming.failure stream).
    + rewrite Hlookup, Hocc by (by right). subst last.
      by destruct (Streaming.failure stream).
    + rewrite (Streaming.full_response_spec events_log body last Hlog Hbody
                 Hlast).
      f_equal. subst body. rewrite Streaming.texts_app.
      rewrite Streaming.texts_chunks.
      destruct (Streaming.failure stream); [by rewrite app_nil_r |].
      by rewrite Streaming.texts_alone, app_nil_r.
Qed.

End Streams.

Section Retries.

Variable random_random : nat -> QArith_base.Q.

(** [reliable_api] calls the unreliable function until a call succeeds, at
    most [max_retries] times, and sleeps 0.5, 1.0, 1.5, ... seconds between
    the calls. It returns the result of the first call that succeeds; when
    [max_retries] calls have failed it returns the text that says so, with
    the message of the last failure, and sleeps no more; with a bound that
    is not positive it makes no call and returns nothing. It never
    raises. *)
Theorem reliable_api_retries_up_to_the_bound
    (query : string) (max_retries : Z) (a : Streaming.Attempts) :
  ((max_retries <= 0)%Z ->
   Streaming.reliable_api random_random query max_retries a = (None, a))
  /\ (forall k,
        (Z.of_nat k < max_retries)%Z ->
        (forall i, i < k ->
           Streaming.unavailable random_random (Streaming.draws a + i) = true) ->
        Streaming.unavailable random_random (Streaming.draws a + k) = false ->
        Streaming.reliable_api random_random query max_retries a
        = (Some ("Result for: " +:+ query),
           {| Streaming.draws := Streaming.draws a + k + 1;
              Streaming.sleeps :=
                Streaming.sleeps a
                ++ (Streaming.backoff <$> seqZ 0 (Z.of_nat k)) |}))
  /\ ((0 < max_retries)%Z ->
      (forall i, (Z.of_nat i < max_retries)%Z ->
         Streaming.unavailable random_random (Streaming.draws a + i) = true) ->
      Streaming.reliable_api random_random query max_retries a
      = (Some ("Failed after " +:+ pretty max_retries
               +:+ " attempts: API temporarily unavailable"),
         {| Streaming.draws := Streaming.draws a + Z.to_nat max_retries;
            Streaming.sleeps :=
              Streaming.sleeps a
              ++ (Streaming.backoff <$> seqZ 0 (max_retries - 1)) |}))
  /\ Streaming.draws a
     <= Streaming.draws
          (snd (Streaming.reliable_api random_random query max_retries a))
     <= Streaming.draws a + Z.to_nat max_retries.
Proof.
  unfold Streaming.reliable_api. split_and!.
  - intros Hle. unfold seqZ. by replace (Z.to_nat max_retries) with 0 by lia.
  - intros k Hk Hfail Hok.
    pose proof (Streaming.attempts_succeed random_random query max_retries
                  k 0 a ltac:(lia) ltac:(lia) Hfail Hok) as H.
    by rewrite Z.sub_0_r in H.
  - intros Hpos Hfail.
    pose proof (Streaming.attempts_fail random_random query max_retries
                  (Z.to_nat (max_retries - 1)) 0 a ltac:(lia) ltac:(lia)) as H.
    rewrite Z.sub_0_r in H. rewrite H.
    + f_equal. f_equal; [lia |]. do 3 f_equal. lia.
    + intros i Hi. apply Hfail. lia.
  - pose proof (Streaming.attempts_draws random_random query max_retries
                  (seqZ 0 max_retries) a) as H.
    rewrite length_seqZ in H. lia.
  - pose proof (Streaming.attempts_draws random_random query max_retries
                  (seqZ 0 max_retries) a) as H.
    rewrite length_seqZ in H. lia.
Qed.

End Retries.

Section ToolCallingExamples.

Variable json_loads : string -> Outcome Json.
Variable json_dumps : Json -> string.
Variable acompletion :
  list ToolCalling.Request -> ToolCalling.Request
  -> Outcome ToolCalling.Completion.
Variable time_tool calculator_tool search_tool weather_tool : Callable.

(** [register_tool] of [ToolHandler] raises [KeyError] for a schema that
    has no function entry, and for one whose function entry has no name; it
    has changed nothing of the handler then. The examples
    [multi_step_tool_calling] and [parallel_tool_execution] register the
    weather tool with the function entry of its schema, which is such a
    schema: they raise before any request is sent, and so [main] never
    returns; it raises after the one or two requests of
    [simple_tool_calling_example]. *)
Theorem examples_stop_at_the_weather_tool :
  (forall func members (h : ToolCalling.ToolHandler),
      dict_get "function" members = None ->
      ToolCalling.register_tool func (JObj members) h = Raised "'function'")
  /\ (forall func members function (h : ToolCalling.ToolHandler),
        dict_get "function" members = Some (JObj function) ->
        dict_get "name" function = None ->
        ToolCalling.register_tool func (JObj members) h = Raised "'name'")
  /\ (forall sent,
        ToolCalling.multi_step_tool_calling json_loads json_dumps acompletion
          calculator_tool search_tool weather_tool sent
        = (Raised "'function'", sent))
  /\ (forall sent,
        ToolCalling.parallel_tool_execution json_loads acompletion
          time_tool search_tool weather_tool sent
        = (Raised "'function'", sent))
  /\ (forall sent,
        exists e more,
          ToolCalling.main json_loads json_dumps acompletion
            time_tool calculator_tool search_tool weather_tool sent
          = (Raised e, sent ++ ToolCalling.simple_request :: more)
          /\ length more <= 1).
Proof.
  split_and!.
  - intros func members h Hf. unfold ToolCalling.register_tool. simpl.
    by rewrite Hf.
  - intros func members function h Hf Hn.
    unfold ToolCalling.register_tool. simpl. rewrite Hf. simpl.
    by rewrite Hn.
  - reflexivity.
  - reflexivity.
  - intros sent. unfold ToolCalling.main.
    unfold ToolCalling.bind at 1.
    destruct (ToolCalling.simple_tool_calling_example_requests json_loads
                json_dumps acompletion time_tool calculator_tool sent)
      as (more & Hs & Hl).
    destruct (ToolCalling.simple_tool_calling_example _ _ _ _ _ sent)
      as [[[]|e] sent'] eqn:E; cbn [snd] in Hs; subst sent'.
    + exists "'function'", more. split; [reflexivity | done].
    + by exists e, more.
Qed.

(** [simple_tool_calling_example]. When the first answer asks for tool
    calls whose arguments decode, the example sends a second request with
    three messages: the question, the message of the assistant, and one
    tool message whose content is the JSON text of the list of the results,
    one per tool call and in the order of the calls, each with the
    identifier of its call and the JSON text of what [execute_tool]
    returned. When the arguments of a call do not decode, the exception of
    the decoder leaves the example after the first request; and with no
    tool call the first request is the only one. *)
Theorem simple_example_sends_the_results_back
    (sent : list ToolCalling.Request) (message : ToolCalling.AssistantMessage)
    (rest : list ToolCalling.AssistantMessage) :
  acompletion sent ToolCalling.simple_request
  = Returned {| ToolCalling.choices := message :: rest |} ->
  let example :=
    ToolCalling.simple_tool_calling_example json_loads json_dumps acompletion
      time_tool calculator_tool sent in
  let handler := ToolCalling.simple_handler time_tool calculator_tool in
  (ToolCalling.wanted message = [] ->
   example = (Returned tt, sent ++ [ToolCalling.simple_request]))
  /\ (forall tool_call tcs arguments,
        ToolCalling.wanted message = tool_call :: tcs ->
        ToolCalling.decode_to json_loads (tool_call :: tcs) arguments ->
        snd example
        = sent
          ++ [ToolCalling.simple_request;
              {| ToolCalling.rq_model := "gpt-4o-mini";
                 ToolCalling.rq_messages :=
                   [ToolCalling.user ToolCalling.simple_question;
                    ToolCalling.dict message;
                    JObj
                      [("role", JStr "tool");
                       ("content",
                        JStr
                          (json_dumps
                             (JArr
                                (zip_with
                                   (fun tc a =>
                                      JObj
                                        [("tool_call_id",
                                          JStr (ToolCalling.call_id tc));
                                         ("output",
                                          JStr
                                            (json_dumps
                                               (ToolCalling.result_of handler
                                                  tc a)))])
                                   (tool_call :: tcs) arguments))));
                       ("tool_call_id", JStr "multi")]];
                 ToolCalling.rq_tools := None;
                 ToolCalling.rq_tool_choice := None |}])
  /\ (forall tcs1 arguments tool_call tcs2 e,
        ToolCalling.wanted message = tcs1 ++ tool_call :: tcs2 ->
        ToolCalling.decode_to json_loads tcs1 arguments ->
        json_loads (ToolCalling.function_arguments tool_call) = Raised e ->
        example = (Raised e, sent ++ [ToolCalling.simple_request])).
Proof.
  intros Ha. cbv zeta.
  assert (Hex :
    ToolCalling.simple_tool_calling_example json_loads json_dumps acompletion
      time_tool calculator_tool sent
    = ToolCalling.simple_follow_up json_loads json_dumps acompletion
        time_tool calculator_tool message
        (sent ++ [ToolCalling.simple_request])).
  { rewrite ToolCalling.simple_tool_calling_example_unfold.
    unfold ToolCalling.bind at 1. unfold ToolCalling.complete at 1.
    rewrite Ha. unfold ToolCalling.bind at 1. unfold ToolCalling.lift at 1.
    done. }
  rewrite Hex. unfold ToolCalling.simple_follow_up.
  split_and!.
  - by intros ->.
  - intros tool_call tcs arguments Hw Hd. rewrite Hw.
    unfold ToolCalling.bind at 1. unfold ToolCalling.lift at 1.
    rewrite (ToolCalling.collect_results_spec json_loads json_dumps _ _
               arguments [] Hd).
    cbn [app]. unfold ToolCalling.bind at 1. unfold ToolCalling.complete at 1.
    match goal with
    | |- context [acompletion (sent ++ ?l) ?request] =>
        destruct (acompletion (sent ++ l) request) as [follow_up|e]
    end; cbn [snd]; [|by rewrite <- app_assoc].
    unfold ToolCalling.bind, ToolCalling.lift.
    destruct (ToolCalling.first_message follow_up); cbn [snd];
      by rewrite <- app_assoc.
  - intros tcs1 arguments tool_call tcs2 e Hw Hd He. rewrite Hw.
    destruct (tcs1 ++ tool_call :: tcs2) as [|tc0 tcs0] eqn:E;
      [by destruct tcs1 |].
    unfold ToolCalling.bind at 1. unfold ToolCalling.lift at 1.
    rewrite <- E.
    by rewrite (ToolCalling.collect_results_raises json_loads json_dumps _
                  tcs1 arguments tool_call tcs2 [] e Hd He).
Qed.

(** The loop of [multi_step_tool_calling], for any handler and any
    messages: it sends one request per pass at most, so five at most in the
    example; it keeps the messages that it is given and adds to them; a
    round of tool calls whose arguments decode adds one tool message per
    call, in the order of the calls, with the identifier of the call and
    the JSON text of what [execute_tool] returned, and arguments that do
    not decode raise the exception of the decoder; and with a provider
    whose every answer asks for such tool calls the loop sends as many
    requests as it has passes, and returns. *)
Theorem multi_step_rounds_are_bounded :
  (forall (handler : ToolCalling.ToolHandler) passes messages sent,
      exists more,
        snd (ToolCalling.rounds json_loads json_dumps acompletion
               handler passes messages sent)
        = sent ++ more
        /\ length more <= passes)
  /\ (forall (handler : ToolCalling.ToolHandler) passes messages sent messages',
        fst (ToolCalling.rounds json_loads json_dumps acompletion
               handler passes messages sent)
        = Returned messages' ->
        messages `prefix_of` messages')
  /\ (forall (handler : ToolCalling.ToolHandler) tcs arguments messages,
        ToolCalling.decode_to json_loads tcs arguments ->
        ToolCalling.answer_tool_calls json_loads json_dumps handler tcs messages
        = Returned
            (messages
             ++ zip_with
                  (fun tc a =>
                     JObj
                       [("role", JStr "tool");
                        ("tool_call_id", JStr (ToolCalling.call_id tc));
                        ("content",
                         JStr
                           (json_dumps
                              (ToolCalling.execute_tool
                                 (ToolCalling.function_name tc) a handler)))])
                  tcs arguments))
  /\ (forall (handler : ToolCalling.ToolHandler) tcs1 arguments tc tcs2
             messages e,
        ToolCalling.decode_to json_loads tcs1 arguments ->
        json_loads (ToolCalling.function_arguments tc) = Raised e ->
        ToolCalling.answer_tool_calls json_loads json_dumps handler
          (tcs1 ++ tc :: tcs2) messages
        = Raised e)
  /\ ((forall history request,
         ToolCalling.asks_for_tools json_loads (acompletion history request)) ->
      forall (handler : ToolCalling.ToolHandler) passes messages sent,
        exists messages' more,
          ToolCalling.rounds json_loads json_dumps acompletion
            handler passes messages sent
          = (Returned messages', sent ++ more)
          /\ length more = passes).
Proof.
  split_and!.
  - apply ToolCalling.rounds_requests.
  - apply ToolCalling.rounds_messages.
  - intros handler tcs arguments messages Hd.
    by rewrite (ToolCalling.answer_tool_calls_spec json_loads json_dumps
                  handler tcs arguments messages Hd).
  - intros handler tcs1 arguments tc tcs2 messages e Hd He.
    by apply (ToolCalling.answer_tool_calls_raises json_loads json_dumps
                handler tcs1 arguments).
  - intros Hasks handler passes messages sent.
    by apply ToolCalling.rounds_bounded.
Qed.

(** The loop of [tool_error_handling] with a provider that answers every
    request with a choice: for tool calls whose arguments decode it sends
    one follow-up request per call, in the order of the calls, each with
    the question, the message of the assistant and the tool message of that
    one call, and returns. *)
Theorem error_example_reports_each_result_on_its_own
    (handler : ToolCalling.ToolHandler) (message : ToolCalling.AssistantMessage)
    (tcs : list ToolCalling.ToolCall) (arguments : list Json)
    (sent : list ToolCalling.Request) :
  (forall history request,
     ToolCalling.answers (acompletion history request)) ->
  ToolCalling.decode_to json_loads tcs arguments ->
  ToolCalling.report_each json_loads json_dumps acompletion
    handler message tcs sent
  = (Returned tt,
     sent
     ++ zip_with
          (fun tc a =>
             {| ToolCalling.rq_model := "gpt-4o-mini";
                ToolCalling.rq_messages :=
                  [ToolCalling.user ToolCalling.error_question;
                   ToolCalling.dict message;
                   ToolCalling.tool_message json_dumps tc
                     (ToolCalling.execute_tool (ToolCalling.function_name tc)
                        a handler)];
                ToolCalling.rq_tools := None;
                ToolCalling.rq_tool_choice := None |})
          tcs arguments)
  /\ length
       (snd (ToolCalling.report_each json_loads json_dumps acompletion
               handler message tcs sent))
     = length sent + length tcs.
Proof.
  intros Hans Hd.
  rewrite (ToolCalling.report_each_spec json_loads json_dumps acompletion
             handler message tcs arguments sent Hans Hd).
  split; [done |]. cbn [snd]. rewrite length_app, length_zip_with.
  apply Forall2_length in Hd. lia.
Qed.

End ToolCallingExamples.

Section ToolFunctions.

Variable Value : Type.
Variable eval : string -> Outcome Value.
Variable float : Value -> Outcome string.
Variable str_lower : string -> string.
Variable str_of : Json -> string.

(** [calculate] evaluates an expression only when every character of it is
    a digit, one of [+-*/().] or a space: an expression with any other
    character raises "Invalid characters in expression", whatever [eval]
    would make of it. An expression of allowed characters gives the float
    of its value, and an exception of [eval] or of [float] becomes "Invalid
    expression: " followed by its message. So [calculate] returns a float or
    raises one of these two errors. *)
Theorem calculate_evaluates_allowed_characters_only (expression : string) :
  (forall c,
      In c (list_ascii_of_string expression) ->
      ToolCalling.allowed c = false ->
      ToolCalling.calculate Value eval float expression
      = Raised "Invalid characters in expression")
  /\ (Forall (fun c => ToolCalling.allowed c = true)
        (list_ascii_of_string expression) ->
      ToolCalling.calculate Value eval float expression
      = match eval expression with
        | Returned result =>
            match float result with
            | Returned f => Returned (JFloat f)
            | Raised e => Raised ("Invalid expression: " +:+ e)
            end
        | Raised e => Raised ("Invalid expression: " +:+ e)
        end)
  /\ ((exists f,
         ToolCalling.calculate Value eval float expression
         = Returned (JFloat f))
      \/ ToolCalling.calculate Value eval float expression
         = Raised "Invalid characters in expression"
      \/ exists e,
           ToolCalling.calculate Value eval float expression
           = Raised ("Invalid expression: " +:+ e)).
Proof.
  split_and!.
  - intros c Hin Hc. unfold ToolCalling.calculate.
    by rewrite (ToolCalling.forallb_allowed_false expression c Hin Hc).
  - intros Hall. unfold ToolCalling.calculate.
    replace (forallb ToolCalling.allowed (list_ascii_of_string expression))
      with true; [done |].
    symmetry. apply forallb_forall. intros c Hc.
    rewrite List.Forall_forall in Hall. by apply Hall.
  - unfold ToolCalling.calculate.
    destruct (forallb _ _); [|by right; left].
    destruct (eval expression) as [result|e]; [|by right; right; eexists].
    destruct (float result) as [f|e]; [by left; eexists |].
    by right; right; eexists.
Qed.

(** [search_database] returns the rows of the table that match the query,
    in the order of the table, cut after [limit] of them, and after one of
    them when the limit is smaller than one: a limit of zero or less gives
    the first match, not an empty list. A table that is not in the data
    gives no row. *)
Theorem search_database_takes_the_first_matches
    (query table : string) (limit : Z) :
  ToolCalling.search_database str_lower str_of query table limit
  = take (Z.to_nat (Z.max 1 limit))
      (List.filter (ToolCalling.matches str_lower str_of query)
         (default [] (dict_get table ToolCalling.mock_data)))
  /\ (dict_get table ToolCalling.mock_data = None ->
      ToolCalling.search_database str_lower str_of query table limit = [])
  /\ length (ToolCalling.search_database str_lower str_of query table limit)
     <= Z.to_nat (Z.max 1 limit)
  /\ Forall (fun item => ToolCalling.matches str_lower str_of query item = true)
       (ToolCalling.search_database str_lower str_of query table limit).
Proof.
  assert (Hs : ToolCalling.search_database str_lower str_of query table limit
               = take (Z.to_nat (Z.max 1 limit))
                   (List.filter (ToolCalling.matches str_lower str_of query)
                      (default [] (dict_get table ToolCalling.mock_data)))).
  { unfold ToolCalling.search_database. rewrite ToolCalling.search_spec.
    cbn [app length]. do 3 f_equal. lia. }
  split_and!; [exact Hs | | |].
  - intros Hnone. rewrite Hs, Hnone. cbn. apply take_nil.
  - rewrite Hs, length_take. lia.
  - rewrite Hs. apply Forall_take. apply List.Forall_forall.
    intros item Hin. by apply List.filter_In in Hin as [_ ?].
Qed.

End ToolFunctions.

End Properties.

(** ** The handlers on concrete inputs *)

Module Examples.
Import Py.

(** One double quote, and a quoted word. *)
Definition dq : string := Codec.text [Codec.quote].

Definition quoted (s : string) : string := dq +:+ s +:+ dq.

(** *** A tool of the examples: [get_news_headlines] of
    [04_streaming_with_tools.py] *)

Definition headlines : Dict (list string) :=
  [("tech",
    ["AI breakthrough: New model achieves human-level reasoning";
     "Tech giant announces quantum computing milestone";
     "Cybersecurity alert: Major vulnerability discovered"]);
   ("business",
    ["Markets rally on positive economic data";
     "Major merger announced in retail sector";
     "Central bank hints at policy changes"]);
   ("science",
    ["Scientists discover new exoplanet in habitable zone";
     "Breakthrough in cancer research shows promise";
     "Climate study reveals accelerating changes"])].

Definition type_name (v : Json) : string :=
  match v with
  | JNull => "NoneType"
  | JBool _ => "bool"
  | JInt _ => "int"
  | JFloat _ => "float"
  | JStr _ => "str"
  | JArr _ => "list"
  | JObj _ => "dict"
  end.

(** [l[:n]]. *)
Definition up_to {A} (n : Z) (l : list A) : list A :=
  if (0 <=? n)%Z then take (Z.to_nat n) l
  else take (length l - Z.to_nat (- n)) l.

(** [headlines.get(category, ["No headlines available"])]. *)
Definition headlines_get (category : Json) : Outcome (list string) :=
  match category with
  | JStr c => Returned (default ["No headlines available"] (dict_get c headlines))
  | JArr _ | JObj _ => Raised ("unhashable type: '" +:+ type_name category +:+ "'")
  | _ => Returned ["No headlines available"]
  end.

(** [found[:limit]]. *)
Definition headlines_slice (found : list string) (limit : Json)
  : Outcome Json :=
  match limit with
  | JInt n => Returned (JArr (JStr <$> up_to n found))
  | JBool b => Returned (JArr (JStr <$> up_to (if b then 1 else 0) found))
  | JNull => Returned (JArr (JStr <$> found))
  | _ =>
      Raised "slice indices must be integers or None or have an __index__ method"
  end.

(** [get_news_headlines( **args)], with [category="tech"] and [limit=3] by
    default. *)
Definition get_news_headlines : Callable :=
  {| iscoroutinefunction := true;
     invoke args :=
       match args with
       | JObj kwargs =>
           match
             filter (fun k => k <> "category" /\ k <> "limit") (dict_keys kwargs)
           with
           | k :: _ =>
               Raised
                 ("get_news_headlines() got an unexpected keyword argument '"
                  +:+ k +:+ "'")
           | [] =>
               match
                 headlines_get
                   (default (JStr "tech") (dict_get "category" kwargs))
               with
               | Raised e => Raised e
               | Returned found =>
                   headlines_slice found
                     (default (JInt 3) (dict_get "limit" kwargs))
               end
           end
       | _ =>
           Raised
             ("__main__.get_news_headlines() argument after ** must be a "
              +:+ "mapping, not " +:+ type_name args)
       end |}.

(** [NEWS_TOOL_SCHEMA], and its function entry. *)
Definition NEWS_FUNCTION : Dict Json :=
  [("name", JStr "get_news_headlines");
   ("description", JStr "Get latest news headlines");
   ("parameters",
    JObj
      [("type", JStr "object");
       ("properties",
        JObj
          [("category",
            JObj
              [("type", JStr "string");
               ("enum", JArr [JStr "tech"; JStr "business"; JStr "science"]);
               ("description", JStr "News category");
               ("default", JStr "tech")]);
           ("limit",
            JObj
              [("type", JStr "integer");
               ("description", JStr "Number of headlines");
               ("default", JInt 3)])])])].

Definition NEWS_TOOL_SCHEMA : Dict Json :=
  [("type", JStr "function"); ("function", JObj NEWS_FUNCTION)].

(** A second callable for the same name: [def no_headlines( **kwargs):
    return []]. *)
Definition no_headlines : Callable :=
  {| iscoroutinefunction := false;
     invoke args :=
       match args with
       | JObj _ => Returned (JArr [])
       | _ =>
           Raised
             ("__main__.no_headlines() argument after ** must be a "
              +:+ "mapping, not " +:+ type_name args)
       end |}.

(** *** The environment of the examples *)

Definition time_time (n : nat) : Z := 1700000000 + Z.of_nat n.

Definition now_isoformat (n : nat) : string :=
  "2024-01-01T00:00:00." +:+ pretty n.

(** The three handlers with [get_news_headlines] registered. *)
Definition tool_handler : ToolCalling.ToolHandler :=
  {| ToolCalling.tools := {["get_news_headlines" := get_news_headlines]};
     ToolCalling.tool_schemas := [JObj NEWS_TOOL_SCHEMA] |}.

Definition streaming_handler : Streaming.StreamingToolHandler :=
  Streaming.register_tool "get_news_headlines" get_news_headlines
    (JObj NEWS_TOOL_SCHEMA) Streaming.__init__.

Definition stateful_handler : Stateful.StatefulConversationHandler :=
  fst (Stateful.register_tool "get_news_headlines" get_news_headlines
         NEWS_TOOL_SCHEMA Stateful.__init__).

Definition world : Stateful.World :=
  {| Stateful.self := stateful_handler; Stateful.clock := 0;
     Stateful.requests := [] |}.

(** A [function_call] item of a response. *)
Definition function_call (name : string) (arguments : option string)
    (call_id : option string) : Stateful.ToolCallObj :=
  {| Stateful.tc_type := Some "function_call";
     Stateful.tc_name := Some name;
     Stateful.tc_arguments := arguments;
     Stateful.tc_call_id := call_id;
     Stateful.tc_id := None;
     Stateful.tc_function := None |}.

(** A fragment of a streamed tool call. *)
Definition fragment (id : string) (name arguments : option string)
  : Streaming.ToolCallDelta :=
  {| Streaming.delta_id := Some id;
     Streaming.delta_function :=
       Some {| Streaming.fn_name := name;
               Streaming.fn_arguments := arguments |} |}.

(** Argument texts: no arguments, a category that is a list, and a text
    cut off after its first key. *)
Definition no_arguments : string := "{}".

Definition list_category : string := "{" +:+ quoted "category" +:+ ": []}".

Definition cut_off : string := "{" +:+ quoted "location".

Definition pending (id arguments : string) : string * Streaming.PendingCall :=
  (id, {| Streaming.pc_id := id; Streaming.pc_name := "get_news_headlines";
          Streaming.pc_arguments := arguments |}).

Definition chunk (tcs : list Streaming.ToolCallDelta) : Streaming.Chunk :=
  {| Streaming.choices :=
       [{| Streaming.delta :=
             {| Streaming.content := None;
                Streaming.tool_calls := Some tcs |} |}] |}.

(** A provider that streams the given chunks and ends the stream. *)
Definition streams (chunks : list Streaming.Chunk)
  : Streaming.Request -> Streaming.Stream :=
  fun _ => {| Streaming.delivered := chunks; Streaming.failure := None |}.

(** A provider that asks for the headlines on every round, one that raises,
    and one whose answer is a text. *)
Definition asks_for_tools
  : list Stateful.Kwargs -> Stateful.Kwargs -> Outcome Stateful.Response :=
  fun _ _ =>
    Returned
      {| Stateful.r_id := Some "resp_1";
         Stateful.r_output :=
           Some [{| Stateful.oi_self :=
                      function_call "get_news_headlines" (Some no_arguments)
                        (Some "call_1");
                    Stateful.oi_tool_calls := None;
                    Stateful.oi_content := None |}] |}.


Definition no_call : Stateful.ToolCallObj :=
  {| Stateful.tc_type := Some "message";
     Stateful.tc_name := None;
     Stateful.tc_arguments := None;
     Stateful.tc_call_id := None;
     Stateful.tc_id := None;
     Stateful.tc_function := None |}.

Definition message (text : string) : Stateful.OutputItem :=
  {| Stateful.oi_self := no_call;
     Stateful.oi_tool_calls := None;
     Stateful.oi_content :=
       Some [{| Stateful.ci_type := Some "output_text";
                Stateful.ci_text := Some text |}] |}.

Definition answer (text : string) : Stateful.Response :=
  {| Stateful.r_id := Some "resp_1";
     Stateful.r_output := Some [message text] |}.

Definition answers (text : string)
  : list Stateful.Kwargs -> Stateful.Kwargs -> Outcome Stateful.Response :=
  fun _ _ => Returned (answer text).

(** A provider whose stream raises after the given chunks. *)
Definition breaks_after (chunks : list Streaming.Chunk) (e : string)
  : Streaming.Request -> Streaming.Stream :=
  fun _ => {| Streaming.delivered := chunks; Streaming.failure := Some e |}.

Example registered_with_tool_handler :
  ToolCalling.register_tool get_news_headlines (JObj NEWS_TOOL_SCHEMA)
    ToolCalling.__init__
  = Returned tool_handler.
Proof. reflexivity. Qed.

(** The weather fragments of the specification: a name and two chunks of
    argument text under the identifier t1. *)
Definition weather_fragments : list Streaming.ToolCallDelta :=
  [fragment "t1" (Some "get_weather") None;
   fragment "t1" None (Some ("{" +:+ quoted "location"));
   fragment "t1" None (Some (":" +:+ quoted "NYC" +:+ "}"))].

Lemma weather_fragments_reassembled :
  dict_get "t1"
    (Streaming.current_tool_calls
       (Streaming.accumulate weather_fragments Streaming.__init__))
  = Some {| Streaming.pc_id := "t1"; Streaming.pc_name := "get_weather";
            Streaming.pc_arguments :=
              "{" +:+ quoted "location" +:+ ":" +:+ quoted "NYC" +:+ "}" |}
  /\ (Codec.loads ∘ Streaming.pc_arguments)
       <$> dict_get "t1"
             (Streaming.current_tool_calls
                (Streaming.accumulate weather_fragments Streaming.__init__))
     = Some (Returned (JObj [("location", JStr "NYC")])).
Proof.
  destruct (Claims.fragments_of_one_call_reassembled Codec.loads "t1"
              (fragment "t1" (Some "get_weather") None)
              [fragment "t1" None (Some ("{" +:+ quoted "location"));
               fragment "t1" None (Some (":" +:+ quoted "NYC" +:+ "}"))]
              Streaming.__init__)
    as (_ & Hentry & Hwhole).
  - discriminate.
  - reflexivity.
  - repeat constructor.
  - split.
    + etrans; [exact Hentry | vm_compute; reflexivity].
    + etrans; [exact Hwhole | vm_compute; reflexivity].
Defined.

(** A turn with two streamed tool calls. *)
Definition two_calls : list Streaming.Chunk :=
  [chunk [fragment "t1" (Some "get_news_headlines") (Some no_arguments)];
   chunk [fragment "t2" (Some "get_news_headlines") (Some list_category)]].

Lemma two_calls_finalized_once_and_cleared :
  NoDup
    (Streaming.finalized
       (Streaming.events
          (Streaming.stream_with_tools Codec.loads time_time
             (streams two_calls) "gpt-4o-mini" [] [] streaming_handler 0)))
  /\ Streaming.current_tool_calls
       (Streaming.handler
          (Streaming.stream_with_tools Codec.loads time_time
             (streams two_calls) "gpt-4o-mini" [] [] streaming_handler 0))
     = [].
Proof.
  destruct (Claims.finalized_once_then_buffer_cleared Codec.loads time_time
              (streams two_calls) "gpt-4o-mini" [] [] streaming_handler 0
              (Streaming.fresh streaming_handler))
    as (Hnodup & Hclear & _).
  - vm_compute. constructor.
  - split; [exact Hnodup | apply Hclear; reflexivity].
Defined.

Definition tech_headlines : Json :=
  JArr
    [JStr "AI breakthrough: New model achieves human-level reasoning";
     JStr "Tech giant announces quantum computing milestone";
     JStr "Cybersecurity alert: Major vulnerability discovered"].

Definition call_end (id arguments : string)
  : Streaming.StreamEventType * Streaming.EventData :=
  (Streaming.TOOL_CALL_END,
   Streaming.CallEnd id "get_news_headlines" arguments).

Lemma list_category_gives_failure_result :
  ToolCalling.execute_tool "get_news_headlines"
    (JObj [("category", JArr [])]) tool_handler
  = JObj [("error",
           JStr "Tool execution failed: unhashable type: 'list'")]
  /\ map Streaming.payload
       (Streaming.events
          (Streaming.execute_each Codec.loads time_time
             [pending "t1" no_arguments; pending "t2" list_category;
              pending "t3" no_arguments]
             (Streaming.fresh streaming_handler)))
     = [call_end "t1" no_arguments;
        (Streaming.TOOL_RESULT,
         Streaming.ResultOk "t1" "get_news_headlines" tech_headlines);
        call_end "t2" list_category;
        (Streaming.TOOL_RESULT,
         Streaming.ResultFailed "t2" "get_news_headlines"
           "unhashable type: 'list'");
        call_end "t3" no_arguments;
        (Streaming.TOOL_RESULT,
         Streaming.ResultOk "t3" "get_news_headlines" tech_headlines)]
  /\ fst (Stateful._execute_tools Codec.loads now_isoformat
            [function_call "get_news_headlines" (Some no_arguments)
               (Some "call_1");
             function_call "get_news_headlines" (Some list_category)
               (Some "call_2")]
            "s1" world) !! 1
     = Some {| Stateful.call_id := "call_2";
               Stateful.tool := Some "get_news_headlines";
               Stateful.args := None;
               Stateful.result :=
                 JObj [("error", JStr "unhashable type: 'list'")];
               Stateful.success := Some false |}.
Proof.
  destruct (Claims.raising_tool_gives_failure_result Codec.loads time_time
              now_isoformat) as (H03 & H04 & H05).
  split_and!.
  - apply (H03 tool_handler "get_news_headlines" get_news_headlines
             (JObj [("category", JArr [])]) "unhashable type: 'list'");
      reflexivity.
  - etrans.
    + apply (H04 (Streaming.fresh streaming_handler)
               [pending "t1" no_arguments] "t2"
               (snd (pending "t2" list_category))
               [pending "t3" no_arguments] get_news_headlines
               (JObj [("category", JArr [])]) "unhashable type: 'list'");
        reflexivity.
    + vm_compute. reflexivity.
  - destruct (H05 world "s1"
                [function_call "get_news_headlines" (Some no_arguments)
                   (Some "call_1")]
                (function_call "get_news_headlines" (Some list_category)
                   (Some "call_2"))
                [] get_news_headlines (JObj [("category", JArr [])])
                "unhashable type: 'list'")
      as (_ & Hresult & _); [reflexivity .. |].
    etrans; [exact Hresult | vm_compute; reflexivity].
Defined.

Lemma second_registration_is_the_one_used :
  (exists h',
      ToolCalling.register_tool no_headlines (JObj NEWS_TOOL_SCHEMA)
        tool_handler = Returned h'
      /\ ToolCalling.execute_tool "get_news_headlines" (JObj []) h'
         = JObj [("result", JArr [])])
  /\ Streaming.tools
       (Streaming.register_tool "get_news_headlines" no_headlines
          (JObj NEWS_TOOL_SCHEMA) streaming_handler)
       !! "get_news_headlines" = Some no_headlines
  /\ Stateful.tools
       (fst (Stateful.register_tool "get_news_headlines" no_headlines
               NEWS_TOOL_SCHEMA stateful_handler))
       !! "get_news_headlines" = Some no_headlines.
Proof.
  destruct (Claims.registration_overwrites Codec.loads time_time)
    as (H03 & H04 & H05).
  split_and!.
  - destruct (H03 tool_handler "get_news_headlines" get_news_headlines
                no_headlines (JObj NEWS_TOOL_SCHEMA))
      as (h' & Hreg & _ & _ & Hexec).
    + reflexivity.
    + eexists. split; reflexivity.
    + exists h'. split; [exact Hreg | apply Hexec].
  - apply (H04 streaming_handler "get_news_headlines" get_news_headlines
             no_headlines (JObj NEWS_TOOL_SCHEMA)). reflexivity.
  - apply (H05 stateful_handler "get_news_headlines" get_news_headlines
             no_headlines NEWS_TOOL_SCHEMA). reflexivity.
Defined.






Lemma news_schema_is_appended :
  (exists h',
      ToolCalling.register_tool get_news_headlines (JObj NEWS_TOOL_SCHEMA)
        ToolCalling.__init__ = Returned h'
      /\ ToolCalling.tool_schemas h' = [JObj NEWS_TOOL_SCHEMA])
  /\ Stateful.tool_schemas stateful_handler
     = [JObj (("type", JStr "function") :: NEWS_FUNCTION)].
Proof.
  destruct (Claims.registered_schema_is_appended) as (H03 & _ & H05 & _).
  split.
  - apply (H03 ToolCalling.__init__ get_news_headlines
             (JObj NEWS_TOOL_SCHEMA) "get_news_headlines").
    eexists. split; reflexivity.
  - unfold stateful_handler.
    rewrite (H05 Stateful.__init__ "get_news_headlines" get_news_headlines
               NEWS_TOOL_SCHEMA NEWS_FUNCTION eq_refl).
    reflexivity.
Defined.

(** The stateful handler keeps the converted dictionary, which is not the
    schema that was registered. *)
Lemma stateful_handler_keeps_another_schema :
  Stateful.tool_schemas
    (fst (Stateful.register_tool "get_news_headlines" get_news_headlines
            NEWS_TOOL_SCHEMA Stateful.__init__))
  = [JObj (("type", JStr "function") :: NEWS_FUNCTION)]
  /\ JObj (("type", JStr "function") :: NEWS_FUNCTION)
     <> JObj NEWS_TOOL_SCHEMA.
Proof. split; [reflexivity | discriminate]. Qed.

(** A streamed call of a tool that is not registered: the turn yields no
    result for it, where [execute_tool] and [_execute_tools] report the
    unknown tool. *)
Lemma streamed_call_of_unknown_tool :
  map Streaming.payload
    (Streaming.events
       (Streaming.stream_with_tools Codec.loads time_time
          (streams
             [chunk [fragment "t1" (Some "get_weather") (Some no_arguments)]])
          "gpt-4o-mini" [] [] streaming_handler 0))
  = [(Streaming.TOOL_CALL_START, Streaming.CallStart (Some "t1") "get_weather");
     (Streaming.TOOL_CALL_ARGS, Streaming.CallArgs (Some "t1") no_arguments);
     (Streaming.TOOL_CALL_END,
      Streaming.CallEnd "t1" "get_weather" no_arguments);
     (Streaming.END, Streaming.NoData)]
  /\ ToolCalling.execute_tool "get_weather" (JObj []) tool_handler
     = JObj [("error", JStr "Unknown tool: get_weather")]
  /\ fst (Stateful._execute_tools Codec.loads now_isoformat
            [function_call "get_weather" (Some no_arguments) (Some "call_1")]
            "s1" world)
     = [{| Stateful.call_id := "call_1"; Stateful.tool := None;
           Stateful.args := None;
           Stateful.result :=
             JObj [("error", JStr "Unknown tool: get_weather")];
           Stateful.success := None |}].
Proof. split_and!; vm_compute; reflexivity. Qed.

Lemma get_weather_is_reported_unknown :
  ToolCalling.execute_tool "get_weather" (JObj []) tool_handler
  = JObj [("error", JStr "Unknown tool: get_weather")]
  /\ fst (Stateful._execute_tools Codec.loads now_isoformat
            [function_call "get_news_headlines" (Some no_arguments)
               (Some "call_1");
             function_call "get_weather" (Some no_arguments) None]
            "s1" world) !! 1
     = Some {| Stateful.call_id := "error_1"; Stateful.tool := None;
               Stateful.args := None;
               Stateful.result :=
                 JObj [("error", JStr "Unknown tool: get_weather")];
               Stateful.success := None |}.
Proof.
  destruct (Claims.unknown_tool_is_reported Codec.loads now_isoformat)
    as (H03 & H05).
  split.
  - apply (H03 tool_handler "get_weather" (JObj [])). reflexivity.
  - destruct (H05 world "s1"
                [function_call "get_news_headlines" (Some no_arguments)
                   (Some "call_1")]
                (function_call "get_weather" (Some no_arguments) None) [])
      as (_ & Hresult & _); [reflexivity |].
    etrans; [exact Hresult | reflexivity].
Defined.


Lemma greeting_is_answered_in_one_round :
  exists reply w',
    Stateful.process_message Codec.loads Codec.dumps now_isoformat
      (answers "Hello!") "s1" "Hi" "gpt-4o-mini" None 10 world
    = Some (reply, w')
    /\ Stateful.response reply = "Hello!"
    /\ Stateful.iterations reply = 1%Z
    /\ length (Stateful.requests w') = 1.
Proof.
  apply (Claims.text_answer_ends_after_one_round Codec.loads Codec.dumps
           now_isoformat (answers "Hello!") "s1" "Hi" "gpt-4o-mini" None 10
           world (answer "Hello!") [message "Hello!"] "Hello!");
    [lia | reflexivity | reflexivity | reflexivity | discriminate].
Defined.

(** *** The headlines *)

Lemma dict_get_In {V} k (v : V) d : dict_get k d = Some v -> In (k, v) d.
Proof.
  induction d as [|[k' v'] d IH]; simpl; [done |].
  destruct (String.eqb_spec k k') as [->|_].
  - intros [= ->]. by left.
  - intros H. right. by apply IH.
Qed.

Lemma up_to_prefix {A} (n : Z) (l : list A) :
  up_to n l `prefix_of` l /\ length (up_to n l) <= length l
  /\ ((0 <= n)%Z -> length (up_to n l) <= Z.to_nat n).
Proof.
  unfold up_to. destruct (Z.leb_spec 0 n) as [Hn|Hn].
  - split_and!; [|rewrite length_take; lia|rewrite length_take; lia].
    exists (drop (Z.to_nat n) l). by rewrite take_drop.
  - split_and!; [|rewrite length_take; lia|lia].
    eexists (drop _ l). by rewrite take_drop.
Qed.

(** Whatever the arguments, [get_news_headlines] raises or returns a list
    of headlines: three at most, and no more than the limit when the limit
    is a number that is not negative; they are the first headlines of a
    category of the table, in their order, or of the list with the one text
    "No headlines available" that stands for any other category. *)
Theorem get_news_headlines_gives_known_headlines
    (kwargs : Dict Json) (v : Json) :
  invoke get_news_headlines (JObj kwargs) = Returned v ->
  exists l,
    v = JArr (JStr <$> l)
    /\ length l <= 3
    /\ (forall n,
          dict_get "limit" kwargs = Some (JInt n) -> (0 <= n)%Z ->
          length l <= Z.to_nat n)
    /\ (l `prefix_of` ["No headlines available"]
        \/ exists category found,
             dict_get category headlines = Some found
             /\ l `prefix_of` found).
Proof.
  cbn [invoke get_news_headlines].
  destruct (filter _ (dict_keys kwargs)); [|done].
  assert (Hfound : forall found,
    headlines_get (default (JStr "tech") (dict_get "category" kwargs))
    = Returned found ->
    length found <= 3
    /\ (found = ["No headlines available"]
        \/ exists category, dict_get category headlines = Some found)).
  { intros found. unfold headlines_get.
    destruct (default (JStr "tech") (dict_get "category" kwargs)) as
      [| | | |c| |]; try (intros [= <-]; split; [simpl; lia | by left]);
      try done.
    destruct (dict_get c headlines) as [l|] eqn:E; simpl;
      intros [= <-]; [|split; [simpl; lia | by left]].
    split; [|right; by exists c].
    apply dict_get_In in E. unfold headlines in E.
    repeat (destruct E as [[= <- <-]|E]; [simpl; lia |]). done. }
  destruct (headlines_get _) as [found|e]; [|done].
  destruct (Hfound found eq_refl) as (Hlen & Hwhere).
  assert (Hcut : forall n,
    exists l, JArr (JStr <$> up_to n found) = JArr (JStr <$> l)
      /\ length l <= 3
      /\ ((0 <= n)%Z -> length l <= Z.to_nat n)
      /\ (l `prefix_of` ["No headlines available"]
          \/ exists category found',
               dict_get category headlines = Some found'
               /\ l `prefix_of` found')).
  { intros n. destruct (up_to_prefix n found) as (Hp & Hl & Hn).
    exists (up_to n found). split_and!; [done | lia | done |].
    destruct Hwhere as [->|(c & Hc)]; [by left |].
    right. by exists c, found. }
  unfold headlines_slice.
  destruct (default (JInt 3) (dict_get "limit" kwargs)) as [|b|n| | | |] eqn:El;
    try done; intros [= <-].
  - exists found. split_and!; [done | done | | ].
    + intros n Hn. destruct (dict_get "limit" kwargs); simpl in El; congruence.
    + destruct Hwhere as [->|(c & Hc)]; [by left |]. right. by exists c, found.
  - destruct (Hcut (if b then 1 else 0)%Z) as (l & Hl & H3 & _ & Hw).
    exists l. split_and!; [done | done | | done].
    intros n Hn. destruct (dict_get "limit" kwargs); simpl in El; congruence.
  - destruct (Hcut n) as (l & Hl & H3 & Hn & Hw).
    exists l. split_and!; [done | done | | done].
    intros n' Hn' Hpos.
    destruct (dict_get "limit" kwargs) as [x|]; simpl in El.
    + injection Hn' as ->. injection El as ->. by apply Hn.
    + done.
Qed.

Lemma two_business_headlines :
  invoke get_news_headlines
    (JObj [("category", JStr "business"); ("limit", JInt 2)])
  = Returned
      (JArr [JStr "Markets rally on positive economic data";
             JStr "Major merger announced in retail sector"])
  /\ exists l,
       JArr [JStr "Markets rally on positive economic data";
             JStr "Major merger announced in retail sector"]
       = JArr (JStr <$> l)
       /\ length l <= 2.
Proof.
  split; [reflexivity |].
  destruct (get_news_headlines_gives_known_headlines
              [("category", JStr "business"); ("limit", JInt 2)]
              (JArr [JStr "Markets rally on positive economic data";
                     JStr "Major merger announced in retail sector"]))
    as (l & Hl & _ & Hlimit & _); [reflexivity |].
  exists l. split; [exact Hl |].
  apply (Hlimit 2%Z); [reflexivity | lia].
Defined.

(** *** Conversations *)

(** A provider that asks for the headlines when it is called first and
    answers with a text after that. *)
Definition headlines_request : Stateful.Response :=
  {| Stateful.r_id := Some "resp_1";
     Stateful.r_output :=
       Some [{| Stateful.oi_self :=
                  function_call "get_news_headlines" (Some no_arguments)
                    (Some "call_1");
                Stateful.oi_tool_calls := None;
                Stateful.oi_content := None |}] |}.

Definition final_answer (text : string) : Stateful.Response :=
  {| Stateful.r_id := Some "resp_2";
     Stateful.r_output := Some [message text] |}.

Definition asks_once (text : string)
  : list Stateful.Kwargs -> Stateful.Kwargs -> Outcome Stateful.Response :=
  fun history _ =>
    match history with
    | [] => Returned headlines_request
    | _ :: _ => Returned (final_answer text)
    end.

Lemma headlines_are_sent_back :
  exists reply w',
    Stateful.process_message Codec.loads Codec.dumps now_isoformat
      (asks_once "Here is the news.") "s1" "What is new?" "gpt-4o-mini"
      None 10 world
    = Some (reply, w')
    /\ Stateful.response reply = "Here is the news."
    /\ Stateful.iterations reply = 2%Z
    /\ Stateful.reply_tool_calls reply = 1
    /\ Stateful.k_input <$> Stateful.requests w' !! 1
       = Some
           (Stateful.InputToolOutputs
              [{| Stateful.fco_call_id := "call_1";
                  Stateful.fco_output := Codec.dumps tech_headlines |}]).
Proof.
  destruct (Properties.tool_outputs_are_the_next_input Codec.loads Codec.dumps
              now_isoformat (asks_once "Here is the news.") "s1"
              "What is new?" "gpt-4o-mini" None 10 world
              headlines_request (final_answer "Here is the news.")
              [{| Stateful.oi_self :=
                    function_call "get_news_headlines" (Some no_arguments)
                      (Some "call_1");
                  Stateful.oi_tool_calls := None;
                  Stateful.oi_content := None |}]
              [message "Here is the news."]
              (function_call "get_news_headlines" (Some no_arguments)
                 (Some "call_1"))
              [] None "Here is the news.")
    as (reply & w' & assistant & Hp & Hresponse & Hrounds & Hcalls & _ & Hreq
        & _);
    [lia | reflexivity | reflexivity | reflexivity | reflexivity
    | reflexivity | reflexivity | discriminate |].
  exists reply, w'.
  split_and!; [exact Hp | exact Hresponse | exact Hrounds | exact Hcalls |].
  rewrite Hreq. vm_compute. reflexivity.
Defined.

Lemma system_prompt_is_sent_once :
  exists reply w' first rest,
    Stateful.process_message Codec.loads Codec.dumps now_isoformat
      asks_for_tools "s1" "What is new?" "gpt-4o-mini" (Some "Be brief.")
      3 world
    = Some (reply, w')
    /\ Stateful.requests w' = first :: rest
    /\ Stateful.k_system first = Some "Be brief."
    /\ Forall (fun kwargs => Stateful.k_system kwargs = None) rest.
Proof.
  destruct (Properties.system_prompt_goes_with_the_first_request Codec.loads
              Codec.dumps now_isoformat asks_for_tools "s1" "What is new?"
              "gpt-4o-mini" (Some "Be brief.") 3 world)
    as (reply & w' & first & rest & Hp & Hreq & _ & Hsys & Hrest & _); [lia |].
  exists reply, w', first, rest.
  split_and!; [exact Hp | exact Hreq | exact Hsys |].
  eapply Forall_impl; [exact Hrest |]. by intros kwargs [? _].
Defined.

Lemma empty_text_ends_the_turn :
  exists reply w',
    Stateful.process_message Codec.loads Codec.dumps now_isoformat
      (answers "") "s1" "Hi" "gpt-4o-mini" None 10 world
    = Some (reply, w')
    /\ Stateful.response reply = ""
    /\ Stateful.iterations reply = 1%Z.
Proof.
  destruct (Properties.answer_without_content_ends_the_turn Codec.loads
              Codec.dumps now_isoformat (answers "") "s1" "Hi" "gpt-4o-mini"
              None 10 world (answer ""))
    as (reply & w' & Hp & Hresponse & Hrounds & _);
    [lia | reflexivity | split; reflexivity |].
  by exists reply, w'.
Defined.

Lemma second_turn_names_the_first_response :
  exists reply1 w1 reply2 w2 first rest,
    Stateful.process_message Codec.loads Codec.dumps now_isoformat
      (answers "Hello!") "s1" "Hi" "gpt-4o-mini" None 10 world
    = Some (reply1, w1)
    /\ Stateful.process_message Codec.loads Codec.dumps now_isoformat
         (answers "Hello!") "s1" "And now?" "gpt-4o-mini" None 10 w1
       = Some (reply2, w2)
    /\ Stateful.requests w2 = Stateful.requests w1 ++ first :: rest
    /\ Stateful.k_previous_response_id first = Some "resp_1".
Proof.
  destruct (Properties.turns_are_chained_by_the_response_identifier
              Codec.loads Codec.dumps now_isoformat (answers "Hello!") "s1"
              world "Hi" "gpt-4o-mini" None 10 "And now?" "gpt-4o-mini" None 10)
    as (reply1 & w1 & Hp1 & _ & Hnext).
  destruct Hnext as (reply2 & w2 & first & rest & Hp2 & Hreq & _ & Hprev);
    [lia |].
  exists reply1, w1, reply2, w2, first, rest.
  split_and!; [exact Hp1 | exact Hp2 | exact Hreq |].
  rewrite Hprev. vm_compute in Hp1. injection Hp1 as <- _. reflexivity.
Defined.

Lemma cleared_session_is_new :
  exists reply w' first,
    Stateful.process_message Codec.loads Codec.dumps now_isoformat
      (answers "Hello!") "s1" "Hi" "gpt-4o-mini" (Some "Be brief.") 10
      (Stateful.on_self (Stateful.clear_session "s1") world)
    = Some (reply, w')
    /\ length <$> Stateful.get_session_history "s1" (Stateful.self w')
       = Some 2
    /\ Stateful.requests w' !! 0 = Some first
    /\ Stateful.k_system first = Some "Be brief.".
Proof.
  destruct (Properties.cleared_session_starts_afresh Codec.loads Codec.dumps
              now_isoformat (answers "Hello!") "s1" "Hi" "gpt-4o-mini"
              (Some "Be brief.") 10 world)
    as (_ & _ & reply & w' & user & assistant & Hp & Hh & _ & _ & Hfirst).
  destruct Hfirst as (first & Hreq & _ & _ & Hsys); [lia |].
  exists reply, w', first.
  split_and!; [exact Hp | by rewrite Hh | exact Hreq | exact Hsys].
Defined.

Lemma three_turns_make_six_messages :
  exists results w',
    Stateful.turns Codec.loads Codec.dumps now_isoformat (answers "Hello!")
      "s1" (Some "Be brief.") ["Hi"; "And now?"; "Bye"] world
    = Some (results, w')
    /\ Stateful.said
         <$> default [] (Stateful.get_session_history "s1" (Stateful.self w'))
       = [("user", "Hi"); ("assistant", "Hello!");
          ("user", "And now?"); ("assistant", "Hello!");
          ("user", "Bye"); ("assistant", "Hello!")].
Proof.
  destruct (Properties.conversation_alternates_user_and_assistant Codec.loads
              Codec.dumps now_isoformat (answers "Hello!") "s1"
              (Some "Be brief.") ["Hi"; "And now?"; "Bye"] world)
    as (results & w' & added & Ht & _ & Hsaid & _).
  exists results, w'. split; [exact Ht |].
  rewrite Hsaid. vm_compute in Ht. injection Ht as <- _. reflexivity.
Defined.


(** *** Streams *)

(** A fragment without an identifier, as the later fragments of a call are
    streamed. *)
Definition later_fragment (arguments : string) : Streaming.ToolCallDelta :=
  {| Streaming.delta_id := None;
     Streaming.delta_function :=
       Some {| Streaming.fn_name := None;
               Streaming.fn_arguments := Some arguments |} |}.

Definition words (text : string) : Streaming.Chunk :=
  {| Streaming.choices :=
       [{| Streaming.delta :=
             {| Streaming.content := Some text;
                Streaming.tool_calls := None |} |}] |}.

Lemma later_fragments_are_lost :
  Streaming.current_tool_calls
    (Streaming.accumulate
       [fragment "t1" (Some "get_news_headlines") None;
        later_fragment no_arguments]
       streaming_handler)
  = [("t1",
      {| Streaming.pc_id := "t1"; Streaming.pc_name := "get_news_headlines";
         Streaming.pc_arguments := "" |})]
  /\ map Streaming.payload
       (Streaming.events
          (Streaming.stream_with_tools Codec.loads time_time
             (streams
                [chunk [fragment "t1" (Some "get_news_headlines") None];
                 chunk [later_fragment no_arguments]])
             "gpt-4o-mini" [] [] streaming_handler 0))
     = [(Streaming.TOOL_CALL_START,
         Streaming.CallStart (Some "t1") "get_news_headlines");
        (Streaming.TOOL_CALL_ARGS, Streaming.CallArgs None no_arguments);
        (Streaming.TOOL_CALL_END,
         Streaming.CallEnd "t1" "get_news_headlines" "");
        (Streaming.TOOL_RESULT,
         Streaming.ResultFailed "t1" "get_news_headlines"
           "Expecting value: line 1 column 1 (char 0)");
        (Streaming.END, Streaming.NoData)].
Proof.
  destruct (Properties.fragments_without_identifier_are_dropped time_time)
    as (Hdrop & _).
  split.
  - rewrite Hdrop. reflexivity.
  - vm_compute. reflexivity.
Defined.

Lemma turn_with_text_and_a_call :
  map Streaming.payload
    (Streaming.events
       (Streaming.stream_with_tools Codec.loads time_time
          (streams
             [words "The news: ";
              chunk [fragment "t1" (Some "get_news_headlines")
                       (Some no_arguments)]])
          "gpt-4o-mini" [] [] streaming_handler 0))
  = [(Streaming.TEXT, Streaming.Text "The news: ");
     (Streaming.TOOL_CALL_START,
      Streaming.CallStart (Some "t1") "get_news_headlines");
     (Streaming.TOOL_CALL_ARGS, Streaming.CallArgs (Some "t1") no_arguments);
     (Streaming.TOOL_CALL_END,
      Streaming.CallEnd "t1" "get_news_headlines" no_arguments);
     (Streaming.TOOL_RESULT,
      Streaming.ResultOk "t1" "get_news_headlines" tech_headlines);
     (Streaming.END, Streaming.NoData)].
Proof.
  destruct (Properties.events_of_a_turn Codec.loads time_time
              (streams
                 [words "The news: ";
                  chunk [fragment "t1" (Some "get_news_headlines")
                           (Some no_arguments)]])
              "gpt-4o-mini" [] [] streaming_handler 0)
    as (body & last & Hp & Hbody & Hlast & _).
  rewrite Hp, Hbody, Hlast. vm_compute. reflexivity.
Defined.

Lemma broken_stream_returns_its_text :
  fst (Streaming.process_user_query Codec.loads time_time
         (breaks_after [words "The news: "; words "none"] "Connection error.")
         7 "What is new?" streaming_handler 0)
  = (7%Z, "The news: none").
Proof.
  destruct (Properties.process_user_query_returns_the_streamed_text
              Codec.loads time_time
              (breaks_after [words "The news: "; words "none"]
                 "Connection error."))
    as (_ & Hquery).
  rewrite Hquery. reflexivity.
Defined.

(** A request that is sent again after its stream broke: the first stream
    raises after the fragment of a call, the second one is read to its
    end. *)
Lemma call_of_the_broken_turn_runs_later :
  Streaming.request_of "gpt-4o-mini" [] []
    (Streaming.handler
       (Streaming.stream_with_tools Codec.loads time_time
          (breaks_after
             [chunk [fragment "t1" (Some "get_news_headlines")
                       (Some no_arguments)]]
             "Connection error.")
          "gpt-4o-mini" [] [] streaming_handler 0))
  = Streaming.request_of "gpt-4o-mini" [] [] streaming_handler
  /\ Streaming.finalized
       (Streaming.events
          (Streaming.stream_with_tools Codec.loads time_time
             (streams [words "Here is the news."])
             "gpt-4o-mini" [] []
             (Streaming.handler
                (Streaming.stream_with_tools Codec.loads time_time
                   (breaks_after
                      [chunk [fragment "t1" (Some "get_news_headlines")
                                (Some no_arguments)]]
                      "Connection error.")
                   "gpt-4o-mini" [] [] streaming_handler 0))
             10))
     = ["t1"].
Proof.
  split; [reflexivity |].
  destruct (Properties.unfinished_calls_run_in_the_next_turn Codec.loads
              time_time
              (breaks_after
                 [chunk [fragment "t1" (Some "get_news_headlines")
                           (Some no_arguments)]]
                 "Connection error.")
              (streams [words "Here is the news."])
              streaming_handler
              "gpt-4o-mini" [] [] 0 "gpt-4o-mini" [] [] 10 "Connection error.")
    as (_ & Hnext & _); [reflexivity | reflexivity |].
  rewrite Hnext. reflexivity.
Defined.

(** C7, at a stream that raises. The stream delivers the fragment of the
    call t1 and raises: the turn ends with [ERROR], the call is neither
    executed nor removed, and the next turn of the handler, whose stream
    only delivers a text, executes it. The buffer is emptied only by
    [_execute_pending_tools], which a turn whose stream raises does not
    reach. *)
Lemma call_of_a_broken_turn_is_carried_over :
  map Streaming.payload
    (Streaming.events
       (Streaming.stream_with_tools Codec.loads time_time
          (breaks_after
             [chunk [fragment "t1" (Some "get_news_headlines")
                       (Some no_arguments)]]
             "Connection error.")
          "gpt-4o-mini" [] [] streaming_handler 0))
  = [(Streaming.TOOL_CALL_START,
      Streaming.CallStart (Some "t1") "get_news_headlines");
     (Streaming.TOOL_CALL_ARGS, Streaming.CallArgs (Some "t1") no_arguments);
     (Streaming.ERROR, Streaming.ErrorText "Connection error.")]
  /\ Streaming.current_tool_calls
       (Streaming.handler
          (Streaming.stream_with_tools Codec.loads time_time
             (breaks_after
                [chunk [fragment "t1" (Some "get_news_headlines")
                          (Some no_arguments)]]
                "Connection error.")
             "gpt-4o-mini" [] [] streaming_handler 0))
     = [pending "t1" no_arguments]
  /\ map Streaming.payload
       (Streaming.events
          (Streaming.stream_with_tools Codec.loads time_time
             (streams [words "Hello."]) "gpt-4o-mini" [] []
             (Streaming.handler
                (Streaming.stream_with_tools Codec.loads time_time
                   (breaks_after
                      [chunk [fragment "t1" (Some "get_news_headlines")
                                (Some no_arguments)]]
                      "Connection error.")
                   "gpt-4o-mini" [] [] streaming_handler 0))
             10))
     = [(Streaming.TEXT, Streaming.Text "Hello.");
        (Streaming.TOOL_CALL_END,
         Streaming.CallEnd "t1" "get_news_headlines" no_arguments);
        (Streaming.TOOL_RESULT,
         Streaming.ResultOk "t1" "get_news_headlines" tech_headlines);
        (Streaming.END, Streaming.NoData)].
Proof. split_and!; vm_compute; reflexivity. Qed.

Lemma caller_cannot_switch_streaming_off :
  dict_get "stream"
    (Streaming.rq_kwargs
       (Streaming.request_of "gpt-4o-mini" []
          [("stream", JBool false); ("temperature", JInt 0)]
          streaming_handler))
  = Some (JBool true)
  /\ dict_get "temperature"
       (Streaming.rq_kwargs
          (Streaming.request_of "gpt-4o-mini" []
             [("stream", JBool false); ("temperature", JInt 0)]
             streaming_handler))
     = Some (JInt 0).
Proof.
  destruct (Properties.request_carries_the_schemas_and_the_stream_flag
              "gpt-4o-mini" []
              [("stream", JBool false); ("temperature", JInt 0)]
              streaming_handler)
    as (_ & _ & _ & Hstream & _ & Hother).
  split; [exact Hstream |].
  rewrite Hother; [reflexivity | done..].
Defined.

Lemma summary_of_a_turn :
  Streaming.event_counts
    (Streaming.events
       (Streaming.stream_with_tools Codec.loads time_time
          (streams
             [words "The news: ";
              chunk [fragment "t1" (Some "get_news_headlines")
                       (Some no_arguments)]])
          "gpt-4o-mini" [] [] streaming_handler 0))
  = [("text", 1%Z); ("tool_call_start", 1%Z); ("tool_call_args", 1%Z);
     ("tool_call_end", 1%Z); ("tool_result", 1%Z); ("end", 1%Z)]
  /\ dict_get "error"
       (Streaming.event_counts
          (Streaming.events
             (Streaming.stream_with_tools Codec.loads time_time
                (streams
                   [words "The news: ";
                    chunk [fragment "t1" (Some "get_news_headlines")
                             (Some no_arguments)]])
                "gpt-4o-mini" [] [] streaming_handler 0)))
     = None.
Proof.
  destruct (Properties.event_summary_counts_every_event_once Codec.loads
              time_time
              (streams
                 [words "The news: ";
                  chunk [fragment "t1" (Some "get_news_headlines")
                           (Some no_arguments)]]))
    as (_ & _ & Hturn).
  destruct (Hturn "gpt-4o-mini" [] [] streaming_handler 0)
    as (_ & Herror & _).
  split; [vm_compute; reflexivity | exact Herror].
Defined.

(** *** Retries *)

(** Draws that make the first two calls fail. *)
Definition two_low_draws (n : nat) : QArith_base.Q :=
  if n <? 2 then QArith_base.Qmake 1 10 else QArith_base.Qmake 9 10.

Definition low_draws (n : nat) : QArith_base.Q := QArith_base.Qmake 1 10.

Definition no_attempt : Streaming.Attempts :=
  {| Streaming.draws := 0; Streaming.sleeps := [] |}.

Lemma third_call_succeeds :
  Streaming.reliable_api two_low_draws "test data" 3 no_attempt
  = (Some "Result for: test data",
     {| Streaming.draws := 3;
        Streaming.sleeps :=
          [QArith_base.Qmake 1 2; QArith_base.Qmake 2 2] |})
  /\ Streaming.reliable_api low_draws "test data" 3 no_attempt
     = (Some "Failed after 3 attempts: API temporarily unavailable",
        {| Streaming.draws := 3;
           Streaming.sleeps :=
             [QArith_base.Qmake 1 2; QArith_base.Qmake 2 2] |})
  /\ Streaming.reliable_api low_draws "test data" 0 no_attempt
     = (None, no_attempt).
Proof.
  assert (Hbound := Properties.reliable_api_retries_up_to_the_bound).
  split_and!.
  - destruct (Hbound two_low_draws "test data" 3%Z no_attempt)
      as (_ & Hsucceeds & _).
    rewrite (Hsucceeds 2); [reflexivity | lia | | reflexivity].
    intros [|[|i]] Hi; [reflexivity | reflexivity | lia].
  - destruct (Hbound low_draws "test data" 3%Z no_attempt)
      as (_ & _ & Hfails & _).
    rewrite Hfails; [reflexivity | lia | reflexivity].
  - destruct (Hbound low_draws "test data" 0%Z no_attempt) as (Hnone & _).
    apply Hnone. lia.
Defined.

(** *** The examples of [03_tool_calling.py] *)

(** A callable that returns one value, whatever its arguments. *)
Definition returns (v : Json) : Callable :=
  {| iscoroutinefunction := false; invoke := fun _ => Returned v |}.

Definition sum_arguments : string :=
  "{" +:+ quoted "expression" +:+ ": " +:+ quoted "42 * 17" +:+ "}".

Definition sum_call : ToolCalling.ToolCall :=
  {| ToolCalling.call_id := "call_1";
     ToolCalling.function_name := "calculate";
     ToolCalling.function_arguments := sum_arguments |}.

Definition wants_the_sum : ToolCalling.AssistantMessage :=
  {| ToolCalling.content := None;
     ToolCalling.tool_calls := Some [sum_call];
     ToolCalling.dict := JObj [("role", JStr "assistant")] |}.

(** A provider whose every answer asks for the sum. *)
Definition asks_for_the_sum
  : list ToolCalling.Request -> ToolCalling.Request
    -> Outcome ToolCalling.Completion :=
  fun _ _ => Returned {| ToolCalling.choices := [wants_the_sum] |}.

Lemma sum_is_sent_back :
  length
    (snd (ToolCalling.simple_tool_calling_example Codec.loads Codec.dumps
            asks_for_the_sum (returns (JStr "12:00")) (returns (JFloat "714.0"))
            []))
  = 2.
Proof.
  destruct (Properties.simple_example_sends_the_results_back Codec.loads
              Codec.dumps asks_for_the_sum (returns (JStr "12:00"))
              (returns (JFloat "714.0")) [] wants_the_sum [])
    as (_ & Hcalls & _); [reflexivity |].
  rewrite (Hcalls sum_call [] [JObj [("expression", JStr "42 * 17")]]);
    [reflexivity | reflexivity |].
  repeat constructor.
Defined.

Lemma multi_step_example_raises :
  ToolCalling.multi_step_tool_calling Codec.loads Codec.dumps asks_for_the_sum
    (returns (JFloat "714.0")) (returns (JArr [])) (returns (JObj [])) []
  = (Raised "'function'", [])
  /\ exists e more,
       ToolCalling.main Codec.loads Codec.dumps asks_for_the_sum
         (returns (JStr "12:00")) (returns (JFloat "714.0"))
         (returns (JArr [])) (returns (JObj [])) []
       = (Raised e, ToolCalling.simple_request :: more).
Proof.
  destruct (Properties.examples_stop_at_the_weather_tool Codec.loads
              Codec.dumps asks_for_the_sum (returns (JStr "12:00"))
              (returns (JFloat "714.0")) (returns (JArr []))
              (returns (JObj [])))
    as (_ & _ & Hmulti & _ & Hmain).
  split; [apply Hmulti |].
  destruct (Hmain []) as (e & more & Hm & _). by exists e, more.
Defined.

Lemma five_rounds_of_sums :
  exists messages more,
    ToolCalling.rounds Codec.loads Codec.dumps asks_for_the_sum
      (ToolCalling.simple_handler (returns (JStr "12:00"))
         (returns (JFloat "714.0")))
      5 [ToolCalling.user "What is 42 * 17?"] []
    = (Returned messages, more)
    /\ length more = 5.
Proof.
  destruct (Properties.multi_step_rounds_are_bounded Codec.loads Codec.dumps
              asks_for_the_sum)
    as (_ & _ & _ & _ & Hbound).
  destruct (Hbound
              ltac:(intros history request;
                    exists wants_the_sum, [], sum_call, [],
                      [JObj [("expression", JStr "42 * 17")]];
                    split_and!; [reflexivity | reflexivity | repeat constructor])
              (ToolCalling.simple_handler (returns (JStr "12:00"))
                 (returns (JFloat "714.0")))
              5 [ToolCalling.user "What is 42 * 17?"] [])
    as (messages & more & Hr & Hl).
  by exists messages, more.
Defined.

(** Three rounds of [process_message] for a bound of three, and five
    requests of the loop of [multi_step_tool_calling] for its five
    passes. *)
Lemma three_rounds_and_five_rounds :
  (exists reply w',
     Stateful.process_message Codec.loads Codec.dumps now_isoformat
       asks_for_tools "s1" "What is new?" "gpt-4o-mini" None 3 world
     = Some (reply, w')
     /\ Stateful.iterations reply = 3%Z
     /\ length (Stateful.requests w') = 3
     /\ Stateful.response reply = "")
  /\ exists messages more,
       ToolCalling.rounds Codec.loads Codec.dumps asks_for_the_sum
         (ToolCalling.simple_handler (returns (JStr "12:00"))
            (returns (JFloat "714.0")))
         5 [ToolCalling.user "What is 42 * 17?"] []
       = (Returned messages, more)
       /\ length more = 5.
Proof.
  destruct (Claims.tool_rounds_stop_at_the_bound Codec.loads Codec.dumps
              now_isoformat asks_for_tools)
    as (Hprocess & _ & Hrounds & _).
  split.
  - apply (Hprocess "s1" "What is new?" "gpt-4o-mini" None 3%Z world).
    + lia.
    + intros history kwargs. eexists _, _.
      split_and!; [reflexivity | reflexivity | vm_compute; discriminate].
  - destruct (Hrounds asks_for_the_sum
                (ToolCalling.simple_handler (returns (JStr "12:00"))
                   (returns (JFloat "714.0")))
                5 [ToolCalling.user "What is 42 * 17?"] [])
      as (messages & more & Hr & Hl).
    + intros history request.
      exists wants_the_sum, [], sum_call, [],
        [JObj [("expression", JStr "42 * 17")]].
      split_and!; [reflexivity | reflexivity | repeat constructor].
    + by exists messages, more.
Defined.

(** A provider whose every answer asks for a sum with an argument text that
    is cut off. *)
Definition cut_off_call : ToolCalling.ToolCall :=
  {| ToolCalling.call_id := "call_1";
     ToolCalling.function_name := "calculate";
     ToolCalling.function_arguments := cut_off |}.

Definition wants_a_cut_off_call : ToolCalling.AssistantMessage :=
  {| ToolCalling.content := None;
     ToolCalling.tool_calls := Some [cut_off_call];
     ToolCalling.dict := JObj [("role", JStr "assistant")] |}.

Definition asks_with_cut_off_arguments
  : list ToolCalling.Request -> ToolCalling.Request
    -> Outcome ToolCalling.Completion :=
  fun _ _ => Returned {| ToolCalling.choices := [wants_a_cut_off_call] |}.

(** The loop of [multi_step_tool_calling] with this provider, which asks for
    a tool call on every round: the first round raises the exception of
    [json.loads], after one request of the five. *)
Lemma cut_off_arguments_end_the_rounds :
  ToolCalling.wanted wants_a_cut_off_call = [cut_off_call]
  /\ ToolCalling.rounds Codec.loads Codec.dumps asks_with_cut_off_arguments
       (ToolCalling.simple_handler (returns (JStr "12:00"))
          (returns (JFloat "714.0")))
       5 [ToolCalling.user "What is 42 * 17?"] []
     = (Raised "Expecting ':' delimiter: line 1 column 12 (char 11)",
        [{| ToolCalling.rq_model := "gpt-4o-mini";
            ToolCalling.rq_messages := [ToolCalling.user "What is 42 * 17?"];
            ToolCalling.rq_tools :=
              Some [ToolCalling.TIME_TOOL_SCHEMA;
                    ToolCalling.CALCULATOR_TOOL_SCHEMA];
            ToolCalling.rq_tool_choice := Some "auto" |}]).
Proof. split; vm_compute; reflexivity. Qed.

Lemma division_by_zero_is_reported :
  length
    (snd (ToolCalling.report_each Codec.loads Codec.dumps asks_for_the_sum
            (ToolCalling.simple_handler (returns (JStr "12:00"))
               (returns (JFloat "714.0")))
            wants_the_sum [sum_call; sum_call] []))
  = 2.
Proof.
  destruct (Properties.error_example_reports_each_result_on_its_own
              Codec.loads Codec.dumps asks_for_the_sum
              (ToolCalling.simple_handler (returns (JStr "12:00"))
                 (returns (JFloat "714.0")))
              wants_the_sum [sum_call; sum_call]
              [JObj [("expression", JStr "42 * 17")];
               JObj [("expression", JStr "42 * 17")]]
              [])
    as (_ & Hl).
  - intros history request. by exists wants_the_sum, [].
  - repeat constructor.
  - exact Hl.
Defined.

(** An evaluator that is never to be run, and a conversion of its values. *)
Definition no_eval : string -> Outcome Z :=
  fun _ => Raised "not evaluated".

Definition no_float : Z -> Outcome string :=
  fun _ => Raised "not converted".

Lemma import_is_not_evaluated :
  ToolCalling.calculate Z no_eval no_float "__import__('os')"
  = Raised "Invalid characters in expression".
Proof.
  destruct (Properties.calculate_evaluates_allowed_characters_only Z no_eval
              no_float "__import__('os')") as (Hreject & _).
  apply (Hreject "_"%char); [by left | reflexivity].
Defined.

(** [str.lower] on ASCII texts, and [str] of a row of the mock data: a
    dictionary of integers, floats and strings without quotes. *)
Definition lower_char (c : ascii) : ascii :=
  let n := nat_of_ascii c in
  if (65 <=? n) && (n <=? 90) then ascii_of_nat (n + 32) else c.

Definition ascii_lower (s : string) : string :=
  string_of_list_ascii (map lower_char (list_ascii_of_string s)).

Definition value_text (v : Json) : string :=
  match v with
  | JInt z => pretty z
  | JFloat lit => lit
  | JStr s => "'" +:+ s +:+ "'"
  | _ => ""
  end.

Definition row_text (v : Json) : string :=
  match v with
  | JObj members =>
      "{"
      +:+ String.concat ", "
            (map (fun member =>
                    "'" +:+ fst member +:+ "': " +:+ value_text (snd member))
               members)
      +:+ "}"
  | _ => value_text v
  end.

Lemma limit_of_zero_gives_one_row :
  ToolCalling.search_database ascii_lower row_text "e" "products" 0
  = [JObj [("id", JInt 1); ("name", JStr "Laptop"); ("price", JFloat "999.99");
           ("category", JStr "Electronics")]]
  /\ length
       (ToolCalling.search_database ascii_lower row_text "ELECTRONICS"
          "products" 5)
     = 3.
Proof.
  split.
  - destruct (Properties.search_database_takes_the_first_matches ascii_lower
                row_text "e" "products" 0) as (Hs & _).
    rewrite Hs. vm_compute. reflexivity.
  - destruct (Properties.search_database_takes_the_first_matches ascii_lower
                row_text "ELECTRONICS" "products" 5) as (Hs & _).
    rewrite Hs. vm_compute. reflexivity.
Defined.

End Examples.
